(** * IELTS speaking-practice assistant: the realtime audio / session core

    A shallow embedding of the [GdmLiveAudio] component (the live-session
    message handler, the capture callback, [startRecording], [stopRecording],
    [handlePartSelect], [handleStartPart], [deductCredits]) and of the PCM
    codec it imports from [./utils], with the properties of the
    specification stated and settled against it; then more of the
    component ([cleanup], [saveCurrentSessionHistory], [fetchHistory],
    [processMissingFeedback], [generateCueCard], the Part 2 countdowns,
    [handleVisualizerClick]), the line-by-line saving of the second version
    of [index.tsx] and the circle of [GdmAudioVisualizer], with properties
    read off the code.

    Conventions.
    - A JavaScript number is represented by the rational it stands for
      ([Q]); counters and credit balances are integers ([Z]).  The sum the
      scheduler forms when it advances the playback cursor is the IEEE 754
      double sum ([Double.add]); maximum and comparison are exact on
      doubles.  The sample arithmetic of the codec and the averages of the
      visualizer are kept exact.
    - Every asynchronous method is modelled as one atomic step whose
      external results (connection outcome, microphone grant, store reply)
      are given by an explicit environment argument; what the step does to
      the outside world is recorded in an event log.  A step is the method
      running to its end with no other event handled in between; where a
      method is called without [await] and its caller goes on ([cleanup]),
      the order in which the two run is written out.
    - [T | null] fields are [option T]; JavaScript truthiness of such a
      field is written out. *)

From Stdlib Require Import ZArith QArith Qabs Qround Qpower Lia Lqa.
From Stdlib Require Import String Ascii List Bool.
From stdpp Require Import base strings list gmap.
Import ListNotations.

Local Open Scope Z_scope.

(* ================================================================== *)
(** * PCM codec ([./utils]: [createBlob], [decode], [decodeAudioData]) *)
(* ================================================================== *)

Module Codec.

(** ** Base64 transport (RFC 4648 alphabet, [=] padding) *)

Definition alphabet : string :=
  "ABCDEFGHIJKLMNOPQRSTUVWXYZabcdefghijklmnopqrstuvwxyz0123456789+/".

Definition pad : ascii := "="%char.

(** The character standing for a six-bit value. *)
Definition b64char (n : Z) : ascii :=
  match String.get (Z.to_nat n) alphabet with
  | Some c => c
  | None => pad
  end.

Fixpoint index_of (c : ascii) (s : string) (i : Z) : option Z :=
  match s with
  | EmptyString => None
  | String d s' => if Ascii.eqb c d then Some i else index_of c s' (i + 1)
  end.

(** The six-bit value of a character of the alphabet. *)
Definition b64val (c : ascii) : option Z := index_of c alphabet 0.

(** Modelled from the spec: the base64 step of [encodeFrame] ("base64-encodes
    the byte buffer"); [./utils] is not part of the sources at hand.  Bytes
    are integers in [0, 256). *)
Fixpoint encode (bs : list Z) : string :=
  match bs with
  | [] => EmptyString
  | [a] =>
      String (b64char (a / 4)) (String (b64char ((a mod 4) * 16))
        (String pad (String pad EmptyString)))
  | [a; b] =>
      String (b64char (a / 4)) (String (b64char ((a mod 4) * 16 + b / 16))
        (String (b64char ((b mod 16) * 4)) (String pad EmptyString)))
  | a :: b :: c :: rest =>
      String (b64char (a / 4)) (String (b64char ((a mod 4) * 16 + b / 16))
        (String (b64char ((b mod 16) * 4 + c / 64))
          (String (b64char (c mod 64)) (encode rest))))
  end.

Definition byte1 (s1 s2 : Z) : Z := s1 * 4 + s2 / 16.
Definition byte2 (s2 s3 : Z) : Z := (s2 mod 16) * 16 + s3 / 4.
Definition byte3 (s3 s4 : Z) : Z := (s3 mod 4) * 64 + s4.

(** The last group of four characters, where padding may occur. *)
Definition decode_last (c1 c2 c3 c4 : ascii) : option (list Z) :=
  s1 ← b64val c1;
  s2 ← b64val c2;
  if Ascii.eqb c3 pad then
    if Ascii.eqb c4 pad then Some [byte1 s1 s2] else None
  else
    s3 ← b64val c3;
    if Ascii.eqb c4 pad then Some [byte1 s1 s2; byte2 s2 s3]
    else s4 ← b64val c4; Some [byte1 s1 s2; byte2 s2 s3; byte3 s3 s4].

(** Modelled from the spec: [decodeBase64(payload) -> byte buffer], "inverse
    of base64 step; fails with DecodeError on malformed input" ([decode] in
    the import list of the component).  [None] is the DecodeError. *)
Fixpoint decode (s : string) : option (list Z) :=
  match s with
  | EmptyString => Some []
  | String c1 (String c2 (String c3 (String c4 rest))) =>
      match rest with
      | EmptyString => decode_last c1 c2 c3 c4
      | _ =>
          s1 ← b64val c1;
          s2 ← b64val c2;
          s3 ← b64val c3;
          s4 ← b64val c4;
          tl ← decode rest;
          Some (byte1 s1 s2 :: byte2 s2 s3 :: byte3 s3 s4 :: tl)
      end
  | _ => None
  end.

(** ** 16-bit PCM *)

(** Float to integer conversion: the fractional part is dropped. *)
Definition truncate (x : Q) : Z := Z.quot (Qnum x) (Zpos (Qden x)).

(** "clamping implicitly by the conversion range" of a signed 16-bit value. *)
Definition clamp16 (n : Z) : Z := Z.max (-32768) (Z.min 32767 n).

(** Modelled from the spec: the sample conversion of [encodeFrame], "maps
    each float sample to a 16-bit signed integer by multiplying by 32768 and
    clamping implicitly by the conversion range". *)
Definition toInt16 (x : Q) : Z := clamp16 (truncate (x * 32768)%Q).

(** Little-endian packing of one signed 16-bit value: low byte first. *)
Definition packLE (n : Z) : list Z :=
  let u := n mod 65536 in [u mod 256; u / 256].

Definition pcmBytes (samples : list Q) : list Z :=
  flat_map (fun x => packLE (toInt16 x)) samples.

Record EncodedBlob := { mimeType : string; data : string }.

(** Modelled from the spec: [encodeFrame(samples) -> EncodedBlob]
    ([createBlob] in the import list of the component): convert, pack
    little-endian, base64-encode.  The capture context runs at 16 kHz. *)
Definition createBlob (samples : list Q) : EncodedBlob :=
  {| mimeType := "audio/pcm;rate=16000";
     data := encode (pcmBytes samples) |}.

(** Reading one little-endian signed 16-bit value. *)
Definition readLE (lo hi : Z) : Z :=
  let u := lo + 256 * hi in if 32768 <=? u then u - 65536 else u.

Fixpoint readSamples (bs : list Z) : list Q :=
  match bs with
  | lo :: hi :: rest => (readLE lo hi # 32768)%Q :: readSamples rest
  | _ => []
  end.

(** Every [n]-th element, starting [k] elements in. *)
Fixpoint stride {A} (n k : nat) (l : list A) : list A :=
  match l with
  | [] => []
  | x :: t =>
      match k with
      | O => x :: stride n (Nat.pred n) t
      | S k' => stride n k' t
      end
  end.

Definition deinterleave {A} (n : nat) (l : list A) : list (list A) :=
  map (fun c => stride n c l) (seq 0 n).

Record AudioBuffer := {
  sampleRate : Z;
  channels : list (list Q)
}.

Definition frames (b : AudioBuffer) : nat :=
  match channels b with
  | [] => O
  | c :: _ => List.length c
  end.

(** Playing time of a buffer, in seconds. *)
Definition duration (b : AudioBuffer) : Q :=
  (inject_Z (Z.of_nat (frames b)) / inject_Z (sampleRate b))%Q.

(** Modelled from the spec: [decodeAudioData(bytes, sampleRate,
    channelCount)], "interprets bytes as little-endian 16-bit PCM,
    de-interleaves per channel, rescales each sample by dividing by 32768
    [...] Fails with MalformedAudioError if byte length is not a multiple of
    2*channelCount".  [None] is the MalformedAudioError. *)
Definition decodeAudioData (bs : list Z) (rate : Z) (numChannels : nat)
  : option AudioBuffer :=
  if (numChannels =? 0)%nat then None
  else if (List.length bs mod (2 * numChannels) =? 0)%nat then
    Some {| sampleRate := rate;
            channels := deinterleave numChannels (readSamples bs) |}
  else None.

(** Ranges of the values that travel through the codec. *)
Definition sextet (n : Z) : Prop := 0 <= n < 64.
Definition octet (b : Z) : Prop := 0 <= b < 256.
Definition int16 (n : Z) : Prop := -32768 <= n <= 32767.

End Codec.

(* ================================================================== *)
(** * JavaScript numbers: IEEE 754 binary64 on rationals               *)
(* ================================================================== *)

Module Double.
Local Open Scope Q_scope.

Definition pow2 (e : Z) : Q := 2 ^ e.

(** Rounding to the nearest integer, a tie going to the even one. *)
Definition rne (x : Q) : Z :=
  let f := Qfloor x in
  match Qcompare (x - inject_Z f) (1 # 2) with
  | Lt => f
  | Gt => (f + 1)%Z
  | Eq => if Z.even f then f else (f + 1)%Z
  end.

(** The binary exponent of [x > 0]: [2 ^ ilog2 x <= x < 2 ^ (ilog2 x + 1)]. *)
Definition ilog2 (x : Q) : Z :=
  let k := (Z.log2 (Qnum x) - Z.log2 (Zpos (Qden x)))%Z in
  if Qle_bool (pow2 k) x then k else (k - 1)%Z.

(** The exponent of the last place of a double near [x > 0]: 53 significant
    bits, and no exponent below that of the subnormal numbers. *)
Definition expo (x : Q) : Z := Z.max (ilog2 x - 52) (-1074).

Definition roundPos (x : Q) : Q :=
  inject_Z (rne (x / pow2 (expo x))) * pow2 (expo x).

(** The double nearest to [x], a tie going to the even significand
    (a number beyond the largest double, which would overflow, is not
    treated: the numbers here are seconds). *)
Definition round (x : Q) : Q :=
  match Qcompare x 0 with
  | Eq => 0
  | Gt => roundPos x
  | Lt => - roundPos (- x)
  end.

(** The rationals that are doubles. *)
Definition representable (x : Q) : bool := Qeq_bool (round x) x.

(** [a + b] on JavaScript numbers: the exact sum of two doubles, rounded.
    The fields this is applied to only ever hold doubles; on other
    rationals, which the code cannot have, the sum is left exact. *)
Definition add (a b : Q) : Q :=
  if representable a && representable b then round (a + b) else a + b.


End Double.

(* ================================================================== *)
(** * Live-session message handler ([initSession], [onmessage])        *)
(* ================================================================== *)

Module Live.

(** The two parties of a conversation and the literals the handler writes
    into the [speaker] field for them. *)
Inductive Speaker := Candidate | Examiner.

Definition label (who : Speaker) : string :=
  match who with
  | Candidate => "Candidate"
  | Examiner => "Examiner"
  end.

(** One element of [this.transcripts] in the variants without finality
    ([index.tsx], first version; the IELTS version of the component). *)
Record TranscriptLine := { speaker : string; text : string }.

(** One element of [this.transcripts] in the variants that track finality
    ([isFinal?: boolean]; an absent flag counts as not final). *)
Record FinalLine := { fspeaker : string; ftext : string; isFinal : bool }.

(** [Transcription]: both fields may be absent on the wire. *)
Record Transcription := {
  t_text : option string;
  status : option string
}.

(** [message.serverContent], reduced to what the handler reads:
    [modelTurn?.parts[0]?.inlineData] (its base64 [data]),
    the two transcriptions and the [interrupted] flag. *)
Record ServerContent := {
  inlineData : option string;
  inputTranscription : option Transcription;
  outputTranscription : option Transcription;
  interrupted : bool
}.

Record LiveServerMessage := { serverContent : option ServerContent }.

(** The scheduler and reconciler fields of the component.  [sources] is the
    JavaScript [Set] of live [AudioBufferSourceNode]s, kept in insertion
    order; a node is identified by the number it got at creation, and
    [created] counts the nodes made so far. *)
Record State := {
  nextStartTime : Q;
  sources : list nat;
  transcripts : list TranscriptLine;
  created : nat
}.

(** What the handler does to the audio graph. *)
Inductive Event :=
| Started (source : nat) (at_time : Q) (length : Q)   (* source.start(t) *)
| Stopped (source : nat).                             (* source.stop()   *)

(** [Math.max] on times. *)
Definition max_time (a b : Q) : Q := if Qle_bool a b then b else a.

(** A non-empty string is truthy. *)
Definition truthy (s : string) : bool := negb (String.eqb s "").

(** [Set.prototype.add] and [Set.prototype.delete]. *)
Definition set_add (x : nat) (s : list nat) : list nat :=
  if existsb (Nat.eqb x) s then s else s ++ [x].
Definition set_delete (x : nat) (s : list nat) : list nat :=
  List.filter (fun y => negb (Nat.eqb x y)) s.

(** *** Audio scheduling *)

(** [initAudio]: [this.nextStartTime = this.outputAudioContext.currentTime]. *)
Definition initAudio (clock : Q) (st : State) : State :=
  {| nextStartTime := clock;
     sources := sources st;
     transcripts := transcripts st;
     created := created st |}.

(** [this.nextStartTime = Math.max(this.nextStartTime, currentTime)]. *)
Definition anchor (clock : Q) (st : State) : State :=
  {| nextStartTime := max_time (nextStartTime st) clock;
     sources := sources st;
     transcripts := transcripts st;
     created := created st |}.

(** [audioBuffer.duration]: the number of frames over the sample rate, as
    a double. *)
Definition durationOf (buf : Codec.AudioBuffer) : Q :=
  Double.round (Codec.duration buf).

(** [source.start(this.nextStartTime);
    this.nextStartTime = this.nextStartTime + audioBuffer.duration;
    this.sources.add(source)] for a freshly created source.  The sum is a
    sum of doubles; the event keeps the time the buffer takes to play. *)
Definition enqueue (buf : Codec.AudioBuffer) (st : State) : State * list Event :=
  let source := created st in
  ({| nextStartTime := Double.add (nextStartTime st) (durationOf buf);
      sources := set_add source (sources st);
      transcripts := transcripts st;
      created := S (created st) |},
   [Started source (nextStartTime st) (Codec.duration buf)]).

(** The audio branch of [onmessage] once the payload is decoded. *)
Definition scheduleBuffer (clock : Q) (buf : Codec.AudioBuffer) (st : State)
  : State * list Event :=
  enqueue buf (anchor clock st).

(** [decodeAudioData(decode(audio.data), ctx, 24000, 1)]. *)
Definition decodeInline (payload : string) : option Codec.AudioBuffer :=
  bytes ← Codec.decode payload; Codec.decodeAudioData bytes 24000 1.

(** The 'ended' listener of a source. *)
Definition onended (source : nat) (st : State) : State :=
  {| nextStartTime := nextStartTime st;
     sources := set_delete source (sources st);
     transcripts := transcripts st;
     created := created st |}.

(** *** Transcript reconciliation *)

Definition with_transcripts (ts : list TranscriptLine) (st : State) : State :=
  {| nextStartTime := nextStartTime st;
     sources := sources st;
     transcripts := ts;
     created := created st |}.

(** The two transcript blocks of [onmessage] differ only in the speaker
    literal; [who] is that literal.
<<
    if (transcription?.text) {
      const lastTranscript = this.transcripts[this.transcripts.length - 1];
      if (lastTranscript?.speaker === who) {
        lastTranscript.text += transcription.text;
        this.transcripts = [...this.transcripts];
      } else {
        this.transcripts = [...this.transcripts, {speaker: who, text}];
      }
    }
>> *)
Definition fragmentText (t : option Transcription) : option string :=
  tr ← t; txt ← t_text tr; if truthy txt then Some txt else None.

Definition appendText (who txt : string) (ts : list TranscriptLine)
  : list TranscriptLine :=
  match last ts with
  | Some l =>
      if String.eqb (speaker l) who
      then removelast ts ++ [{| speaker := speaker l; text := text l +:+ txt |}]
      else ts ++ [{| speaker := who; text := txt |}]
  | None => ts ++ [{| speaker := who; text := txt |}]
  end.

Definition reconcile (who : string) (t : option Transcription)
    (ts : list TranscriptLine) : list TranscriptLine :=
  match fragmentText t with
  | Some txt => appendText who txt ts
  | None => ts
  end.

(** *** Interruption *)

(** [for (const source of this.sources.values()) { source.stop();
    this.sources.delete(source); }]: the loop visits the members in
    insertion order; deleting the member just visited does not disturb the
    iteration over the remaining ones. *)
Fixpoint stopAll (pending : list nat) (live : list nat) : list nat * list Event :=
  match pending with
  | [] => (live, [])
  | source :: rest =>
      let '(live', evs) := stopAll rest (set_delete source live) in
      (live', Stopped source :: evs)
  end.

Definition onInterrupted (st : State) : State * list Event :=
  let '(live, evs) := stopAll (sources st) (sources st) in
  ({| nextStartTime := 0%Q;
      sources := live;
      transcripts := transcripts st;
      created := created st |}, evs).

(** *** The handler

    [clock] is [outputAudioContext.currentTime] when the message arrives.
    A payload that fails to decode makes the handler's promise reject after
    the anchor has been moved: the rest of the body is not run. *)
Definition onmessage (clock : Q) (message : LiveServerMessage) (st : State)
  : State * list Event :=
  match serverContent message with
  | None => (st, [])
  | Some sc =>
      let audio_step :=
        match inlineData sc with
        | None => Some (st, [])
        | Some payload =>
            match decodeInline payload with
            | Some buf => Some (scheduleBuffer clock buf st)
            | None => None
            end
        end in
      match audio_step with
      | None => (anchor clock st, [])
      | Some (st1, evs1) =>
          let ts := reconcile (label Examiner) (outputTranscription sc)
                      (reconcile (label Candidate) (inputTranscription sc)
                         (transcripts st1)) in
          let st2 := with_transcripts ts st1 in
          if interrupted sc then
            let '(st3, evs3) := onInterrupted st2 in (st3, evs1 ++ evs3)
          else (st2, evs1)
      end
  end.

Fixpoint handleAll (arrivals : list (Q * LiveServerMessage)) (st : State)
  : State * list Event :=
  match arrivals with
  | [] => (st, [])
  | (clock, m) :: rest =>
      let '(st1, evs1) := onmessage clock m st in
      let '(st2, evs2) := handleAll rest st1 in
      (st2, evs1 ++ evs2)
  end.


(** A transcript fragment as the remote service sends it: a message that
    carries one transcription and nothing else. *)
Definition fragmentMessage (who : Speaker) (txt : string) : LiveServerMessage :=
  let tr := Some {| t_text := Some txt; status := None |} in
  {| serverContent := Some
       {| inlineData := None;
          inputTranscription :=
            match who with Candidate => tr | Examiner => None end;
          outputTranscription :=
            match who with Candidate => None | Examiner => tr end;
          interrupted := false |} |}.

Definition initial : State :=
  {| nextStartTime := 0%Q; sources := []; transcripts := []; created := O |}.

(** The transcript after a run of fragments, from an empty transcript. *)
Definition feed (frags : list (Speaker * string)) : list TranscriptLine :=
  transcripts
    (fst (handleAll (map (fun f => (0%Q, fragmentMessage (fst f) (snd f))) frags)
            initial)).

(** *** What the specification says of the reconciler

    "merges consecutive same-speaker fragments into one line and starts a
    new line exactly on a speaker change": the runs of equal speakers, read
    off the fragment list itself. *)
Fixpoint mergeRuns (frags : list (Speaker * string)) : list TranscriptLine :=
  match frags with
  | [] => []
  | (who, txt) :: rest =>
      match mergeRuns rest with
      | l :: ls =>
          if String.eqb (label who) (speaker l)
          then {| speaker := label who; text := txt +:+ text l |} :: ls
          else {| speaker := label who; text := txt |} :: l :: ls
      | [] => [{| speaker := label who; text := txt |}]
      end
  end.

(** What one fragment does to the transcript. *)
Definition absorb (f : Speaker * string) (ts : list TranscriptLine)
  : list TranscriptLine :=
  if truthy (snd f) then appendText (label (fst f)) (snd f) ts else ts.

(** A fragment that carries text. *)
Definition spoken (f : Speaker * string) : bool := truthy (snd f).

Definition fragment (txt : string) (st : option string) : option Transcription :=
  Some {| t_text := Some txt; status := st |}.

(** Joining a transcript with the lines that later fragments make: the
    first of those lines continues the last line of the transcript when the
    speaker is the same. *)
Definition join (ts ms : list TranscriptLine) : list TranscriptLine :=
  match last ts, ms with
  | Some l, m :: ms' =>
      if String.eqb (speaker l) (speaker m)
      then removelast ts ++ {| speaker := speaker l; text := text l +:+ text m |} :: ms'
      else ts ++ ms
  | _, _ => ts ++ ms
  end.

(** Putting a fragment in front of the lines of the fragments after it. *)
Definition lead (f : Speaker * string) (ms : list TranscriptLine)
  : list TranscriptLine :=
  match ms with
  | l :: ls =>
      if String.eqb (label (fst f)) (speaker l)
      then {| speaker := label (fst f); text := snd f +:+ text l |} :: ls
      else {| speaker := label (fst f); text := snd f |} :: l :: ls
  | [] => [{| speaker := label (fst f); text := snd f |}]
  end.


(** A buffer of [n] silent frames at the output rate. *)
Definition silence (n : nat) : Codec.AudioBuffer :=
  {| Codec.sampleRate := 24000; Codec.channels := [repeat 0%Q n] |}.

(** A message that carries an audio payload and nothing else. *)
Definition audioMessage (payload : string) : LiveServerMessage :=
  {| serverContent := Some
       {| inlineData := Some payload; inputTranscription := None;
          outputTranscription := None; interrupted := false |} |}.

(** A message that carries the interruption flag and nothing else. *)
Definition interruptionMessage : LiveServerMessage :=
  {| serverContent := Some
       {| inlineData := None; inputTranscription := None;
          outputTranscription := None; interrupted := true |} |}.

(** *** The variants that track finality *)

Definition isFinalStatus (t : option Transcription) : bool :=
  match t with
  | Some tr => match status tr with
               | Some s => String.eqb s "FINAL"
               | None => false
               end
  | None => false
  end.

(** First version of the component:
    [lastTranscript.isFinal = transcription.status === 'FINAL']. *)
Definition reconcileFinal (who : string) (t : option Transcription)
    (ts : list FinalLine) : list FinalLine :=
  match fragmentText t with
  | None => ts
  | Some txt =>
      let fresh := {| fspeaker := who; ftext := txt; isFinal := isFinalStatus t |} in
      match last ts with
      | Some l =>
          if String.eqb (fspeaker l) who && negb (isFinal l)
          then removelast ts ++
                 [{| fspeaker := fspeaker l; ftext := ftext l +:+ txt;
                     isFinal := isFinalStatus t |}]
          else ts ++ [fresh]
      | None => ts ++ [fresh]
      end
  end.

(** Second version of [index.tsx]: the flag is only ever raised, and a line
    that becomes final is written to the store ([saveTranscript(who, text)],
    returned here as the list of texts saved). *)
Definition reconcileSaving (who : string) (t : option Transcription)
    (ts : list FinalLine) : list FinalLine * list (string * string) :=
  match fragmentText t with
  | None => (ts, [])
  | Some txt =>
      let final := isFinalStatus t in
      let fresh := {| fspeaker := who; ftext := txt; isFinal := final |} in
      let saved (l : FinalLine) := if final then [(who, ftext l)] else [] in
      match last ts with
      | Some l =>
          if String.eqb (fspeaker l) who && negb (isFinal l)
          then
            let l' := {| fspeaker := fspeaker l; ftext := ftext l +:+ txt;
                         isFinal := if final then true else isFinal l |} in
            (removelast ts ++ [l'], saved l')
          else (ts ++ [fresh], saved fresh)
      | None => (ts ++ [fresh], saved fresh)
      end
  end.

End Live.

(* ================================================================== *)
(** * The host: external collaborators, effects, atomic steps          *)
(* ================================================================== *)

Module Host.

Inductive Modality := AUDIO | TEXT.

(** The live [Session] object: the connection it stands for and the
    configuration it was opened with. *)
Record Session := {
  connection : nat;
  systemInstruction : string;
  responseModalities : list Modality
}.

(** A row of the [transcripts] table as the store returns it. *)
Record HistoryRow := {
  row_session : string;
  row_speaker : string;
  row_text : string;
  created_at : string
}.

(** A row as the component inserts it. *)
Record InsertRow := {
  user_id : string;
  session_id : string;
  ins_speaker : string;
  ins_text : string
}.

(** The reply [{data, error}] of a store call. *)
Inductive Reply (A : Type) :=
| Failed (message : string)
| Returned (data : A)
| Nothing.
Arguments Failed {A} _.
Arguments Returned {A} _.
Arguments Nothing {A}.

(** A generated cue card ([JSON.parse(response.text)]). *)
Record Generated := {
  topic : option string;
  gen_description : string;
  gen_points : list string
}.

(** What the outside world answers during one step. *)
Record Env := {
  uuid : string;                              (* crypto.randomUUID()         *)
  connect : option nat;                       (* live.connect; None: throws  *)
  userMedia : option nat;                     (* getUserMedia; None: rejects *)
  timer : nat;                                (* id of the credit-poll timer *)
  countdown : nat;                            (* id of a part-2 countdown    *)
  insertReply : Reply (list HistoryRow);      (* transcripts insert          *)
  rpcReply : Reply Z;                         (* rpc('deduct_credits')       *)
  generated : option Generated                (* generateContent; None: throws *)
}.

Inductive Timer := CreditPoll | PreparationCountdown | SpeakingCountdown.

(** What one step does to the outside world, in program order. *)
Inductive Event :=
| ConsoleError (message : string)
| Connect (instruction : string) (modalities : list Modality)
| SessionClose (connection : nat)
| InputContextResume
| GetUserMedia
| WireCapture (stream : nat) (bufferSize : nat)
| DisconnectProcessor
| DisconnectSource
| TrackStop (stream : nat)
| SetInterval (what : Timer) (id : nat) (periodMs : Z)
| ClearInterval (id : nat)
| InsertTranscripts (rows : list InsertRow)
| ProcessMissingFeedback
| RpcDeductCredits (seconds : Z)
| GenerateContent
| SendRealtimeInput (connection : nat) (media : Codec.EncodedBlob)
| Audio (e : Live.Event).

(** How a capture callback ends. *)
Inductive Outcome := Dropped | Sent | TypeError.

(** An atomic step over a component state [S]: a result, the next state
    and the events issued. *)
Record Act (S A : Type) := act { run : S -> A * S * list Event }.
Arguments act {S A} _.
Arguments run {S A} _ _.

Section Steps.
Context {S : Type}.

#[export] Instance act_ret : MRet (Act S) :=
  fun A x => act (fun s => (x, s, [])).

#[export] Instance act_bind : MBind (Act S) :=
  fun A B f m => act (fun s =>
    let '(x, s1, e1) := run m s in
    let '(y, s2, e2) := run (f x) s1 in
    (y, s2, e1 ++ e2)).

Definition get : Act S S := act (fun s => (s, s, [])).
Definition modify (f : S -> S) : Act S unit := act (fun s => (tt, f s, [])).
Definition emit (e : Event) : Act S unit := act (fun s => (tt, s, [e])).
Definition skip : Act S unit := mret tt.
Definition when (b : bool) (m : Act S unit) : Act S unit :=
  if b then m else skip.

(** The state and the events of a step. *)
Definition exec {A} (m : Act S A) (s : S) : S * list Event :=
  let '(_, s', evs) := run m s in (s', evs).

(** The value a step returns. *)
Definition result {A} (m : Act S A) (s : S) : A := fst (fst (run m s)).

(** A step that leaves a field as it is. *)
Definition keeps {A B} (f : S -> B) (m : Act S A) : Prop :=
  forall s, f (fst (exec m s)) = f s.

(** A step that ends with [P] whatever the state it starts from. *)
Definition ensures {A} (P : S -> Prop) (m : Act S A) : Prop :=
  forall s, P (fst (exec m s)).

(** A step that does not disturb [P]. *)
Definition stable {A} (P : S -> Prop) (m : Act S A) : Prop :=
  forall s, P s -> P (fst (exec m s)).
End Steps.

(** How many times a step wrote the transcript to the store. *)
Definition inserts (evs : list Event) : nat :=
  List.length (List.filter (fun e => match e with
                                     | InsertTranscripts _ => true
                                     | _ => false
                                     end) evs).

Definition count (e : Event -> bool) (evs : list Event) : nat :=
  List.length (List.filter e evs).

Definition isSessionClose (e : Event) : bool :=
  match e with SessionClose _ => true | _ => false end.
Definition isTrackStop (e : Event) : bool :=
  match e with TrackStop _ => true | _ => false end.
Definition isDisconnect (e : Event) : bool :=
  match e with DisconnectProcessor | DisconnectSource => true | _ => false end.

(** JavaScript truthiness of a [string | null] field. *)
Definition truthy_str (o : option string) : bool :=
  match o with
  | Some s => Live.truthy s
  | None => false
  end.

Definition isSome {A} (o : option A) : bool :=
  match o with Some _ => true | None => false end.

(** [this.inputAudioContext] is created with the component and never
    reassigned: it is truthy throughout. *)
Definition inputAudioContext : bool := true.

(** [session.sendRealtimeInput({media})]: a method call on an absent
    session object raises a TypeError. *)
Definition sendRealtimeInput (target : option Session)
    (media : Codec.EncodedBlob) : Outcome * list Event :=
  match target with
  | Some ss => (Sent, [SendRealtimeInput (connection ss) media])
  | None => (TypeError, [])
  end.

(** String building for template literals. *)
Definition nl : string := String (ascii_of_nat 10) EmptyString.

End Host.

(* ================================================================== *)
(** * The IELTS component: parts, credits, recording                   *)
(* ================================================================== *)

Module App.
Import Host.

Inductive Part := part1 | part2 | part3.

Inductive Part2State := idle | generating | preparing | speaking | finished.

Record CueCard := { description : string; points : list string }.

Record IntroContent := {
  title : string;
  instructions : list string;
  checkboxLabel : string
}.

(** The fields of the component that the audio/session core reads or
    writes; fields that only drive page chrome (history panel, profile menu,
    current view, feedback annotations) are left out.  [live] groups
    [nextStartTime], [sources] and [transcripts], the fields of the message
    handler; [client] tells whether [this.client] is set; a timer field holds
    the id returned by [setInterval], which is never 0. *)
Record State := {
  live : Live.State;
  isRecording : bool;
  supabaseSession : option string;
  currentSessionId : option string;
  chatHistory : gmap string (list HistoryRow);
  userCredits : option Z;
  isOutOfCreditsModalOpen : bool;
  creditUsageInterval : option nat;
  currentPart : option Part;
  part2State : Part2State;
  part2CueCard : option CueCard;
  part2Topic : option string;
  part2TopicForPart3 : option string;
  part2PreparationTimeLeft : Z;
  part2SpeakingTimeLeft : Z;
  part2TimerInterval : option nat;
  isIntroModalOpen : bool;
  introModalContent : option IntroContent;
  isIntroConfirmed : bool;
  client : bool;
  session : option Session;
  mediaStream : option nat;
  sourceNode : option nat;
  scriptProcessorNode : option nat
}.

(** Field assignments ([this.f = v]). *)
Definition set_live (v : Live.State) (s : State) : State :=
  {| live := v; isRecording := isRecording s;
     supabaseSession := supabaseSession s;
     currentSessionId := currentSessionId s; chatHistory := chatHistory s;
     userCredits := userCredits s;
     isOutOfCreditsModalOpen := isOutOfCreditsModalOpen s;
     creditUsageInterval := creditUsageInterval s;
     currentPart := currentPart s; part2State := part2State s;
     part2CueCard := part2CueCard s; part2Topic := part2Topic s;
     part2TopicForPart3 := part2TopicForPart3 s;
     part2PreparationTimeLeft := part2PreparationTimeLeft s;
     part2SpeakingTimeLeft := part2SpeakingTimeLeft s;
     part2TimerInterval := part2TimerInterval s;
     isIntroModalOpen := isIntroModalOpen s;
     introModalContent := introModalContent s;
     isIntroConfirmed := isIntroConfirmed s; client := client s;
     session := session s; mediaStream := mediaStream s;
     sourceNode := sourceNode s;
     scriptProcessorNode := scriptProcessorNode s |}.
Definition set_isRecording (v : bool) (s : State) : State :=
  {| live := live s; isRecording := v;
     supabaseSession := supabaseSession s;
     currentSessionId := currentSessionId s; chatHistory := chatHistory s;
     userCredits := userCredits s;
     isOutOfCreditsModalOpen := isOutOfCreditsModalOpen s;
     creditUsageInterval := creditUsageInterval s;
     currentPart := currentPart s; part2State := part2State s;
     part2CueCard := part2CueCard s; part2Topic := part2Topic s;
     part2TopicForPart3 := part2TopicForPart3 s;
     part2PreparationTimeLeft := part2PreparationTimeLeft s;
     part2SpeakingTimeLeft := part2SpeakingTimeLeft s;
     part2TimerInterval := part2TimerInterval s;
     isIntroModalOpen := isIntroModalOpen s;
     introModalContent := introModalContent s;
     isIntroConfirmed := isIntroConfirmed s; client := client s;
     session := session s; mediaStream := mediaStream s;
     sourceNode := sourceNode s;
     scriptProcessorNode := scriptProcessorNode s |}.
Definition set_supabaseSession (v : option string) (s : State) : State :=
  {| live := live s; isRecording := isRecording s; supabaseSession := v;
     currentSessionId := currentSessionId s; chatHistory := chatHistory s;
     userCredits := userCredits s;
     isOutOfCreditsModalOpen := isOutOfCreditsModalOpen s;
     creditUsageInterval := creditUsageInterval s;
     currentPart := currentPart s; part2State := part2State s;
     part2CueCard := part2CueCard s; part2Topic := part2Topic s;
     part2TopicForPart3 := part2TopicForPart3 s;
     part2PreparationTimeLeft := part2PreparationTimeLeft s;
     part2SpeakingTimeLeft := part2SpeakingTimeLeft s;
     part2TimerInterval := part2TimerInterval s;
     isIntroModalOpen := isIntroModalOpen s;
     introModalContent := introModalContent s;
     isIntroConfirmed := isIntroConfirmed s; client := client s;
     session := session s; mediaStream := mediaStream s;
     sourceNode := sourceNode s;
     scriptProcessorNode := scriptProcessorNode s |}.
Definition set_currentSessionId (v : option string) (s : State) : State :=
  {| live := live s; isRecording := isRecording s;
     supabaseSession := supabaseSession s; currentSessionId := v;
     chatHistory := chatHistory s; userCredits := userCredits s;
     isOutOfCreditsModalOpen := isOutOfCreditsModalOpen s;
     creditUsageInterval := creditUsageInterval s;
     currentPart := currentPart s; part2State := part2State s;
     part2CueCard := part2CueCard s; part2Topic := part2Topic s;
     part2TopicForPart3 := part2TopicForPart3 s;
     part2PreparationTimeLeft := part2PreparationTimeLeft s;
     part2SpeakingTimeLeft := part2SpeakingTimeLeft s;
     part2TimerInterval := part2TimerInterval s;
     isIntroModalOpen := isIntroModalOpen s;
     introModalContent := introModalContent s;
     isIntroConfirmed := isIntroConfirmed s; client := client s;
     session := session s; mediaStream := mediaStream s;
     sourceNode := sourceNode s;
     scriptProcessorNode := scriptProcessorNode s |}.
Definition set_chatHistory (v : gmap string (list HistoryRow)) (s : State) : State :=
  {| live := live s; isRecording := isRecording s;
     supabaseSession := supabaseSession s;
     currentSessionId := currentSessionId s; chatHistory := v;
     userCredits := userCredits s;
     isOutOfCreditsModalOpen := isOutOfCreditsModalOpen s;
     creditUsageInterval := creditUsageInterval s;
     currentPart := currentPart s; part2State := part2State s;
     part2CueCard := part2CueCard s; part2Topic := part2Topic s;
     part2TopicForPart3 := part2TopicForPart3 s;
     part2PreparationTimeLeft := part2PreparationTimeLeft s;
     part2SpeakingTimeLeft := part2SpeakingTimeLeft s;
     part2TimerInterval := part2TimerInterval s;
     isIntroModalOpen := isIntroModalOpen s;
     introModalContent := introModalContent s;
     isIntroConfirmed := isIntroConfirmed s; client := client s;
     session := session s; mediaStream := mediaStream s;
     sourceNode := sourceNode s;
     scriptProcessorNode := scriptProcessorNode s |}.
Definition set_userCredits (v : option Z) (s : State) : State :=
  {| live := live s; isRecording := isRecording s;
     supabaseSession := supabaseSession s;
     currentSessionId := currentSessionId s; chatHistory := chatHistory s;
     userCredits := v;
     isOutOfCreditsModalOpen := isOutOfCreditsModalOpen s;
     creditUsageInterval := creditUsageInterval s;
     currentPart := currentPart s; part2State := part2State s;
     part2CueCard := part2CueCard s; part2Topic := part2Topic s;
     part2TopicForPart3 := part2TopicForPart3 s;
     part2PreparationTimeLeft := part2PreparationTimeLeft s;
     part2SpeakingTimeLeft := part2SpeakingTimeLeft s;
     part2TimerInterval := part2TimerInterval s;
     isIntroModalOpen := isIntroModalOpen s;
     introModalContent := introModalContent s;
     isIntroConfirmed := isIntroConfirmed s; client := client s;
     session := session s; mediaStream := mediaStream s;
     sourceNode := sourceNode s;
     scriptProcessorNode := scriptProcessorNode s |}.
Definition set_isOutOfCreditsModalOpen (v : bool) (s : State) : State :=
  {| live := live s; isRecording := isRecording s;
     supabaseSession := supabaseSession s;
     currentSessionId := currentSessionId s; chatHistory := chatHistory s;
     userCredits := userCredits s; isOutOfCreditsModalOpen := v;
     creditUsageInterval := creditUsageInterval s;
     currentPart := currentPart s; part2State := part2State s;
     part2CueCard := part2CueCard s; part2Topic := part2Topic s;
     part2TopicForPart3 := part2TopicForPart3 s;
     part2PreparationTimeLeft := part2PreparationTimeLeft s;
     part2SpeakingTimeLeft := part2SpeakingTimeLeft s;
     part2TimerInterval := part2TimerInterval s;
     isIntroModalOpen := isIntroModalOpen s;
     introModalContent := introModalContent s;
     isIntroConfirmed := isIntroConfirmed s; client := client s;
     session := session s; mediaStream := mediaStream s;
     sourceNode := sourceNode s;
     scriptProcessorNode := scriptProcessorNode s |}.
Definition set_creditUsageInterval (v : option nat) (s : State) : State :=
  {| live := live s; isRecording := isRecording s;
     supabaseSession := supabaseSession s;
     currentSessionId := currentSessionId s; chatHistory := chatHistory s;
     userCredits := userCredits s;
     isOutOfCreditsModalOpen := isOutOfCreditsModalOpen s;
     creditUsageInterval := v; currentPart := currentPart s;
     part2State := part2State s; part2CueCard := part2CueCard s;
     part2Topic := part2Topic s;
     part2TopicForPart3 := part2TopicForPart3 s;
     part2PreparationTimeLeft := part2PreparationTimeLeft s;
     part2SpeakingTimeLeft := part2SpeakingTimeLeft s;
     part2TimerInterval := part2TimerInterval s;
     isIntroModalOpen := isIntroModalOpen s;
     introModalContent := introModalContent s;
     isIntroConfirmed := isIntroConfirmed s; client := client s;
     session := session s; mediaStream := mediaStream s;
     sourceNode := sourceNode s;
     scriptProcessorNode := scriptProcessorNode s |}.
Definition set_currentPart (v : option Part) (s : State) : State :=
  {| live := live s; isRecording := isRecording s;
     supabaseSession := supabaseSession s;
     currentSessionId := currentSessionId s; chatHistory := chatHistory s;
     userCredits := userCredits s;
     isOutOfCreditsModalOpen := isOutOfCreditsModalOpen s;
     creditUsageInterval := creditUsageInterval s; currentPart := v;
     part2State := part2State s; part2CueCard := part2CueCard s;
     part2Topic := part2Topic s;
     part2TopicForPart3 := part2TopicForPart3 s;
     part2PreparationTimeLeft := part2PreparationTimeLeft s;
     part2SpeakingTimeLeft := part2SpeakingTimeLeft s;
     part2TimerInterval := part2TimerInterval s;
     isIntroModalOpen := isIntroModalOpen s;
     introModalContent := introModalContent s;
     isIntroConfirmed := isIntroConfirmed s; client := client s;
     session := session s; mediaStream := mediaStream s;
     sourceNode := sourceNode s;
     scriptProcessorNode := scriptProcessorNode s |}.
Definition set_part2State (v : Part2State) (s : State) : State :=
  {| live := live s; isRecording := isRecording s;
     supabaseSession := supabaseSession s;
     currentSessionId := currentSessionId s; chatHistory := chatHistory s;
     userCredits := userCredits s;
     isOutOfCreditsModalOpen := isOutOfCreditsModalOpen s;
     creditUsageInterval := creditUsageInterval s;
     currentPart := currentPart s; part2State := v;
     part2CueCard := part2CueCard s; part2Topic := part2Topic s;
     part2TopicForPart3 := part2TopicForPart3 s;
     part2PreparationTimeLeft := part2PreparationTimeLeft s;
     part2SpeakingTimeLeft := part2SpeakingTimeLeft s;
     part2TimerInterval := part2TimerInterval s;
     isIntroModalOpen := isIntroModalOpen s;
     introModalContent := introModalContent s;
     isIntroConfirmed := isIntroConfirmed s; client := client s;
     session := session s; mediaStream := mediaStream s;
     sourceNode := sourceNode s;
     scriptProcessorNode := scriptProcessorNode s |}.
Definition set_part2CueCard (v : option CueCard) (s : State) : State :=
  {| live := live s; isRecording := isRecording s;
     supabaseSession := supabaseSession s;
     currentSessionId := currentSessionId s; chatHistory := chatHistory s;
     userCredits := userCredits s;
     isOutOfCreditsModalOpen := isOutOfCreditsModalOpen s;
     creditUsageInterval := creditUsageInterval s;
     currentPart := currentPart s; part2State := part2State s;
     part2CueCard := v; part2Topic := part2Topic s;
     part2TopicForPart3 := part2TopicForPart3 s;
     part2PreparationTimeLeft := part2PreparationTimeLeft s;
     part2SpeakingTimeLeft := part2SpeakingTimeLeft s;
     part2TimerInterval := part2TimerInterval s;
     isIntroModalOpen := isIntroModalOpen s;
     introModalContent := introModalContent s;
     isIntroConfirmed := isIntroConfirmed s; client := client s;
     session := session s; mediaStream := mediaStream s;
     sourceNode := sourceNode s;
     scriptProcessorNode := scriptProcessorNode s |}.
Definition set_part2Topic (v : option string) (s : State) : State :=
  {| live := live s; isRecording := isRecording s;
     supabaseSession := supabaseSession s;
     currentSessionId := currentSessionId s; chatHistory := chatHistory s;
     userCredits := userCredits s;
     isOutOfCreditsModalOpen := isOutOfCreditsModalOpen s;
     creditUsageInterval := creditUsageInterval s;
     currentPart := currentPart s; part2State := part2State s;
     part2CueCard := part2CueCard s; part2Topic := v;
     part2TopicForPart3 := part2TopicForPart3 s;
     part2PreparationTimeLeft := part2PreparationTimeLeft s;
     part2SpeakingTimeLeft := part2SpeakingTimeLeft s;
     part2TimerInterval := part2TimerInterval s;
     isIntroModalOpen := isIntroModalOpen s;
     introModalContent := introModalContent s;
     isIntroConfirmed := isIntroConfirmed s; client := client s;
     session := session s; mediaStream := mediaStream s;
     sourceNode := sourceNode s;
     scriptProcessorNode := scriptProcessorNode s |}.
Definition set_part2TopicForPart3 (v : option string) (s : State) : State :=
  {| live := live s; isRecording := isRecording s;
     supabaseSession := supabaseSession s;
     currentSessionId := currentSessionId s; chatHistory := chatHistory s;
     userCredits := userCredits s;
     isOutOfCreditsModalOpen := isOutOfCreditsModalOpen s;
     creditUsageInterval := creditUsageInterval s;
     currentPart := currentPart s; part2State := part2State s;
     part2CueCard := part2CueCard s; part2Topic := part2Topic s;
     part2TopicForPart3 := v;
     part2PreparationTimeLeft := part2PreparationTimeLeft s;
     part2SpeakingTimeLeft := part2SpeakingTimeLeft s;
     part2TimerInterval := part2TimerInterval s;
     isIntroModalOpen := isIntroModalOpen s;
     introModalContent := introModalContent s;
     isIntroConfirmed := isIntroConfirmed s; client := client s;
     session := session s; mediaStream := mediaStream s;
     sourceNode := sourceNode s;
     scriptProcessorNode := scriptProcessorNode s |}.
Definition set_part2PreparationTimeLeft (v : Z) (s : State) : State :=
  {| live := live s; isRecording := isRecording s;
     supabaseSession := supabaseSession s;
     currentSessionId := currentSessionId s; chatHistory := chatHistory s;
     userCredits := userCredits s;
     isOutOfCreditsModalOpen := isOutOfCreditsModalOpen s;
     creditUsageInterval := creditUsageInterval s;
     currentPart := currentPart s; part2State := part2State s;
     part2CueCard := part2CueCard s; part2Topic := part2Topic s;
     part2TopicForPart3 := part2TopicForPart3 s;
     part2PreparationTimeLeft := v;
     part2SpeakingTimeLeft := part2SpeakingTimeLeft s;
     part2TimerInterval := part2TimerInterval s;
     isIntroModalOpen := isIntroModalOpen s;
     introModalContent := introModalContent s;
     isIntroConfirmed := isIntroConfirmed s; client := client s;
     session := session s; mediaStream := mediaStream s;
     sourceNode := sourceNode s;
     scriptProcessorNode := scriptProcessorNode s |}.
Definition set_part2SpeakingTimeLeft (v : Z) (s : State) : State :=
  {| live := live s; isRecording := isRecording s;
     supabaseSession := supabaseSession s;
     currentSessionId := currentSessionId s; chatHistory := chatHistory s;
     userCredits := userCredits s;
     isOutOfCreditsModalOpen := isOutOfCreditsModalOpen s;
     creditUsageInterval := creditUsageInterval s;
     currentPart := currentPart s; part2State := part2State s;
     part2CueCard := part2CueCard s; part2Topic := part2Topic s;
     part2TopicForPart3 := part2TopicForPart3 s;
     part2PreparationTimeLeft := part2PreparationTimeLeft s;
     part2SpeakingTimeLeft := v;
     part2TimerInterval := part2TimerInterval s;
     isIntroModalOpen := isIntroModalOpen s;
     introModalContent := introModalContent s;
     isIntroConfirmed := isIntroConfirmed s; client := client s;
     session := session s; mediaStream := mediaStream s;
     sourceNode := sourceNode s;
     scriptProcessorNode := scriptProcessorNode s |}.
Definition set_part2TimerInterval (v : option nat) (s : State) : State :=
  {| live := live s; isRecording := isRecording s;
     supabaseSession := supabaseSession s;
     currentSessionId := currentSessionId s; chatHistory := chatHistory s;
     userCredits := userCredits s;
     isOutOfCreditsModalOpen := isOutOfCreditsModalOpen s;
     creditUsageInterval := creditUsageInterval s;
     currentPart := currentPart s; part2State := part2State s;
     part2CueCard := part2CueCard s; part2Topic := part2Topic s;
     part2TopicForPart3 := part2TopicForPart3 s;
     part2PreparationTimeLeft := part2PreparationTimeLeft s;
     part2SpeakingTimeLeft := part2SpeakingTimeLeft s;
     part2TimerInterval := v; isIntroModalOpen := isIntroModalOpen s;
     introModalContent := introModalContent s;
     isIntroConfirmed := isIntroConfirmed s; client := client s;
     session := session s; mediaStream := mediaStream s;
     sourceNode := sourceNode s;
     scriptProcessorNode := scriptProcessorNode s |}.
Definition set_isIntroModalOpen (v : bool) (s : State) : State :=
  {| live := live s; isRecording := isRecording s;
     supabaseSession := supabaseSession s;
     currentSessionId := currentSessionId s; chatHistory := chatHistory s;
     userCredits := userCredits s;
     isOutOfCreditsModalOpen := isOutOfCreditsModalOpen s;
     creditUsageInterval := creditUsageInterval s;
     currentPart := currentPart s; part2State := part2State s;
     part2CueCard := part2CueCard s; part2Topic := part2Topic s;
     part2TopicForPart3 := part2TopicForPart3 s;
     part2PreparationTimeLeft := part2PreparationTimeLeft s;
     part2SpeakingTimeLeft := part2SpeakingTimeLeft s;
     part2TimerInterval := part2TimerInterval s; isIntroModalOpen := v;
     introModalContent := introModalContent s;
     isIntroConfirmed := isIntroConfirmed s; client := client s;
     session := session s; mediaStream := mediaStream s;
     sourceNode := sourceNode s;
     scriptProcessorNode := scriptProcessorNode s |}.
Definition set_introModalContent (v : option IntroContent) (s : State) : State :=
  {| live := live s; isRecording := isRecording s;
     supabaseSession := supabaseSession s;
     currentSessionId := currentSessionId s; chatHistory := chatHistory s;
     userCredits := userCredits s;
     isOutOfCreditsModalOpen := isOutOfCreditsModalOpen s;
     creditUsageInterval := creditUsageInterval s;
     currentPart := currentPart s; part2State := part2State s;
     part2CueCard := part2CueCard s; part2Topic := part2Topic s;
     part2TopicForPart3 := part2TopicForPart3 s;
     part2PreparationTimeLeft := part2PreparationTimeLeft s;
     part2SpeakingTimeLeft := part2SpeakingTimeLeft s;
     part2TimerInterval := part2TimerInterval s;
     isIntroModalOpen := isIntroModalOpen s; introModalContent := v;
     isIntroConfirmed := isIntroConfirmed s; client := client s;
     session := session s; mediaStream := mediaStream s;
     sourceNode := sourceNode s;
     scriptProcessorNode := scriptProcessorNode s |}.
Definition set_isIntroConfirmed (v : bool) (s : State) : State :=
  {| live := live s; isRecording := isRecording s;
     supabaseSession := supabaseSession s;
     currentSessionId := currentSessionId s; chatHistory := chatHistory s;
     userCredits := userCredits s;
     isOutOfCreditsModalOpen := isOutOfCreditsModalOpen s;
     creditUsageInterval := creditUsageInterval s;
     currentPart := currentPart s; part2State := part2State s;
     part2CueCard := part2CueCard s; part2Topic := part2Topic s;
     part2TopicForPart3 := part2TopicForPart3 s;
     part2PreparationTimeLeft := part2PreparationTimeLeft s;
     part2SpeakingTimeLeft := part2SpeakingTimeLeft s;
     part2TimerInterval := part2TimerInterval s;
     isIntroModalOpen := isIntroModalOpen s;
     introModalContent := introModalContent s; isIntroConfirmed := v;
     client := client s; session := session s;
     mediaStream := mediaStream s; sourceNode := sourceNode s;
     scriptProcessorNode := scriptProcessorNode s |}.
Definition set_client (v : bool) (s : State) : State :=
  {| live := live s; isRecording := isRecording s;
     supabaseSession := supabaseSession s;
     currentSessionId := currentSessionId s; chatHistory := chatHistory s;
     userCredits := userCredits s;
     isOutOfCreditsModalOpen := isOutOfCreditsModalOpen s;
     creditUsageInterval := creditUsageInterval s;
     currentPart := currentPart s; part2State := part2State s;
     part2CueCard := part2CueCard s; part2Topic := part2Topic s;
     part2TopicForPart3 := part2TopicForPart3 s;
     part2PreparationTimeLeft := part2PreparationTimeLeft s;
     part2SpeakingTimeLeft := part2SpeakingTimeLeft s;
     part2TimerInterval := part2TimerInterval s;
     isIntroModalOpen := isIntroModalOpen s;
     introModalContent := introModalContent s;
     isIntroConfirmed := isIntroConfirmed s; client := v;
     session := session s; mediaStream := mediaStream s;
     sourceNode := sourceNode s;
     scriptProcessorNode := scriptProcessorNode s |}.
Definition set_session (v : option Session) (s : State) : State :=
  {| live := live s; isRecording := isRecording s;
     supabaseSession := supabaseSession s;
     currentSessionId := currentSessionId s; chatHistory := chatHistory s;
     userCredits := userCredits s;
     isOutOfCreditsModalOpen := isOutOfCreditsModalOpen s;
     creditUsageInterval := creditUsageInterval s;
     currentPart := currentPart s; part2State := part2State s;
     part2CueCard := part2CueCard s; part2Topic := part2Topic s;
     part2TopicForPart3 := part2TopicForPart3 s;
     part2PreparationTimeLeft := part2PreparationTimeLeft s;
     part2SpeakingTimeLeft := part2SpeakingTimeLeft s;
     part2TimerInterval := part2TimerInterval s;
     isIntroModalOpen := isIntroModalOpen s;
     introModalContent := introModalContent s;
     isIntroConfirmed := isIntroConfirmed s; client := client s;
     session := v; mediaStream := mediaStream s;
     sourceNode := sourceNode s;
     scriptProcessorNode := scriptProcessorNode s |}.
Definition set_mediaStream (v : option nat) (s : State) : State :=
  {| live := live s; isRecording := isRecording s;
     supabaseSession := supabaseSession s;
     currentSessionId := currentSessionId s; chatHistory := chatHistory s;
     userCredits := userCredits s;
     isOutOfCreditsModalOpen := isOutOfCreditsModalOpen s;
     creditUsageInterval := creditUsageInterval s;
     currentPart := currentPart s; part2State := part2State s;
     part2CueCard := part2CueCard s; part2Topic := part2Topic s;
     part2TopicForPart3 := part2TopicForPart3 s;
     part2PreparationTimeLeft := part2PreparationTimeLeft s;
     part2SpeakingTimeLeft := part2SpeakingTimeLeft s;
     part2TimerInterval := part2TimerInterval s;
     isIntroModalOpen := isIntroModalOpen s;
     introModalContent := introModalContent s;
     isIntroConfirmed := isIntroConfirmed s; client := client s;
     session := session s; mediaStream := v; sourceNode := sourceNode s;
     scriptProcessorNode := scriptProcessorNode s |}.
Definition set_sourceNode (v : option nat) (s : State) : State :=
  {| live := live s; isRecording := isRecording s;
     supabaseSession := supabaseSession s;
     currentSessionId := currentSessionId s; chatHistory := chatHistory s;
     userCredits := userCredits s;
     isOutOfCreditsModalOpen := isOutOfCreditsModalOpen s;
     creditUsageInterval := creditUsageInterval s;
     currentPart := currentPart s; part2State := part2State s;
     part2CueCard := part2CueCard s; part2Topic := part2Topic s;
     part2TopicForPart3 := part2TopicForPart3 s;
     part2PreparationTimeLeft := part2PreparationTimeLeft s;
     part2SpeakingTimeLeft := part2SpeakingTimeLeft s;
     part2TimerInterval := part2TimerInterval s;
     isIntroModalOpen := isIntroModalOpen s;
     introModalContent := introModalContent s;
     isIntroConfirmed := isIntroConfirmed s; client := client s;
     session := session s; mediaStream := mediaStream s; sourceNode := v;
     scriptProcessorNode := scriptProcessorNode s |}.
Definition set_scriptProcessorNode (v : option nat) (s : State) : State :=
  {| live := live s; isRecording := isRecording s;
     supabaseSession := supabaseSession s;
     currentSessionId := currentSessionId s; chatHistory := chatHistory s;
     userCredits := userCredits s;
     isOutOfCreditsModalOpen := isOutOfCreditsModalOpen s;
     creditUsageInterval := creditUsageInterval s;
     currentPart := currentPart s; part2State := part2State s;
     part2CueCard := part2CueCard s; part2Topic := part2Topic s;
     part2TopicForPart3 := part2TopicForPart3 s;
     part2PreparationTimeLeft := part2PreparationTimeLeft s;
     part2SpeakingTimeLeft := part2SpeakingTimeLeft s;
     part2TimerInterval := part2TimerInterval s;
     isIntroModalOpen := isIntroModalOpen s;
     introModalContent := introModalContent s;
     isIntroConfirmed := isIntroConfirmed s; client := client s;
     session := session s; mediaStream := mediaStream s;
     sourceNode := sourceNode s; scriptProcessorNode := v |}.

Definition transcripts (s : State) : list Live.TranscriptLine :=
  Live.transcripts (live s).
Definition set_transcripts (ts : list Live.TranscriptLine) (s : State) : State :=
  set_live (Live.with_transcripts ts (live s)) s.

Definition creditUpdateIntervalMs : Z := 10000.

Definition PART1_INSTRUCTION : string :=
  "You are an IELTS examiner conducting Part 1 of the speaking test." +:+ nl +:+
  "Ask the candidate around 11-12 questions on 3 different general topics." +:+ nl +:+
  "Keep your questions concise. The user is the candidate." +:+ nl +:+
  "Start the conversation by asking your first question now.".

Definition PART2_INSTRUCTION : string :=
  "You are an IELTS examiner for Part 2 of the speaking test. The candidate will now speak for 1-2 minutes. Your task is to listen silently without speaking or interrupting.".

Definition PART3_INSTRUCTION_TEMPLATE (topic : string) : string :=
  "You are an IELTS examiner conducting Part 3 of the speaking test." +:+ nl +:+
  "The topic is a follow-up to Part 2, which was about '" +:+ topic +:+ "'." +:+ nl +:+
  "Your role is to ask abstract and opinion-based questions related to this topic." +:+ nl +:+
  "Keep your questions concise and ask only one question at a time." +:+ nl +:+
  "Do not provide your own opinions, explanations, or long statements." +:+ nl +:+
  "After the candidate responds, listen carefully and then ask a relevant follow-up question." +:+ nl +:+
  "The goal is to simulate a real two-way discussion for 4-5 minutes." +:+ nl +:+
  "Start the conversation now by asking your first question.".

Definition intro1 : IntroContent :=
  {| title := "IELTS Speaking: Part 1";
     instructions :=
       ["You will be asked general questions about yourself and familiar topics.";
        "This part lasts for 4-5 minutes.";
        "Ensure you are in a quiet place with a working microphone."];
     checkboxLabel := "I understand and am ready to begin." |}.

Definition intro2 : IntroContent :=
  {| title := "IELTS Speaking: Part 2";
     instructions :=
       ["You will be given a cue card with a topic.";
        "You will have 1 minute to prepare and take notes.";
        "You must speak on the topic for 1-2 minutes.";
        "Please have a pen and paper ready for note-taking."];
     checkboxLabel := "I have my pen and paper, and I am ready." |}.

Definition intro3 : IntroContent :=
  {| title := "IELTS Speaking: Part 3";
     instructions :=
       ["You will be asked abstract questions related to the topic from Part 2.";
        "This is a two-way discussion with the examiner.";
        "This part lasts for 4-5 minutes."];
     checkboxLabel := "I understand and am ready to continue." |}.

Definition examinerSays (txt : string) : Live.TranscriptLine :=
  {| Live.speaker := "Examiner"; Live.text := txt |}.

Definition completePart2First : Live.TranscriptLine :=
  examinerSays "Please complete Part 2 before starting Part 3.".

(** The component as constructed, before anyone signs in. *)
Definition initial : State :=
  {| live := Live.initial; isRecording := false; supabaseSession := None;
     currentSessionId := None; chatHistory := ∅; userCredits := None;
     isOutOfCreditsModalOpen := false; creditUsageInterval := None;
     currentPart := None; part2State := idle; part2CueCard := None;
     part2Topic := None; part2TopicForPart3 := None;
     part2PreparationTimeLeft := 60; part2SpeakingTimeLeft := 120;
     part2TimerInterval := None; isIntroModalOpen := false;
     introModalContent := None; isIntroConfirmed := false; client := false;
     session := None; mediaStream := None; sourceNode := None;
     scriptProcessorNode := None |}.

(** [this.userCredits !== null && this.userCredits <= 0]. *)
Definition creditsExhausted (s : State) : bool :=
  match userCredits s with
  | Some c => c <=? 0
  | None => false
  end.

Definition isPart2 (p : option Part) : bool :=
  match p with Some part2 => true | _ => false end.

(** [initClient]: [initAudio], then the client is created. *)
Definition initClient (clock : Q) (s : State) : State :=
  set_client true (set_live (Live.initAudio clock (live s)) s).

(** The user has just logged in ([updated]): [initClient] when there is no
    client yet; the profile and the history are fetched asynchronously. *)
Definition onLogin (user : string) (clock : Q) (s : State) : State :=
  let s1 := set_supabaseSession (Some user) s in
  if client s1 then s1 else initClient clock s1.

(** [fetchUserProfile] once the store has answered. *)
Definition fetchUserProfile (reply : Reply Z) : Act State unit :=
  s ← get;
  if isSome (supabaseSession s) then
    match reply with
    | Failed msg => emit (ConsoleError ("Error fetching user profile: " +:+ msg))
    | Returned credits => modify (set_userCredits (Some credits))
    | Nothing => skip
    end
  else skip.

(** The message handler of the live session, on the component state. *)
Definition onmessage (clock : Q) (message : Live.LiveServerMessage)
  : Act State unit :=
  act (fun s =>
    let '(l, evs) := Live.onmessage clock message (live s) in
    (tt, set_live l s, map Audio evs)).

Definition saveCurrentSessionHistory (env : Env) : Act State unit :=
  s ← get;
  match supabaseSession s with
  | None => skip
  | Some user =>
      if negb (truthy_str (currentSessionId s)) then skip
      else
        match currentSessionId s, transcripts s with
        | None, _ | _, [] => skip
        | Some sid, lines =>
            emit (InsertTranscripts
                    (map (fun l => {| user_id := user; session_id := sid;
                                      ins_speaker := Live.speaker l;
                                      ins_text := Live.text l |}) lines));;
            match insertReply env with
            | Failed msg =>
                emit (ConsoleError ("Error saving session history: " +:+ msg))
            | Returned rows =>
                modify (fun s => set_chatHistory (<[sid := rows]> (chatHistory s)) s)
            | Nothing => skip
            end
        end
  end.

Definition initSession (instruction : string) (modalities : list Modality)
    (env : Env) : Act State unit :=
  s ← get;
  if negb (client s) then skip
  else
    emit (Connect instruction modalities);;
    match connect env with
    | Some c =>
        modify (set_session
                  (Some {| connection := c; systemInstruction := instruction;
                           responseModalities := modalities |}))
    | None => emit (ConsoleError "live.connect failed")
    end.

(** The capture callback installed by [startRecording]. *)
Definition onaudioprocess (frame : list Q) (s : State) : Outcome * list Event :=
  if negb (isRecording s) || negb (isSome (session s)) then (Dropped, [])
  else sendRealtimeInput (session s) (Codec.createBlob frame).

(** The blocks of [stopRecording], in program order.  Each reads the
    fields it tests when it runs. *)

(** [if (this.currentPart === 'part2' && this.part2Topic) { ... }] *)
Definition markPart2Finished : Act State unit :=
  s ← get;
  when (isPart2 (currentPart s) && truthy_str (part2Topic s))
    (modify (set_part2TopicForPart3 (part2Topic s));;
     modify (set_part2State finished)).

(** [if (this.part2TimerInterval) { clearInterval(...); ... = null; }] *)
Definition cancelPartTimer : Act State unit :=
  s ← get;
  match part2TimerInterval s with
  | Some id => emit (ClearInterval id);; modify (set_part2TimerInterval None)
  | None => skip
  end.

(** [if (this.creditUsageInterval) { clearInterval(...); ... = null; }] *)
Definition cancelCreditPoll : Act State unit :=
  s ← get;
  match creditUsageInterval s with
  | Some id => emit (ClearInterval id);; modify (set_creditUsageInterval None)
  | None => skip
  end.

(** [if (this.transcripts.length > 0) { await save; processMissingFeedback(); }];
    the body of [processMissingFeedback] runs after this step. *)
Definition persistTranscript (env : Env) : Act State unit :=
  s ← get;
  match transcripts s with
  | [] => skip
  | _ :: _ => saveCurrentSessionHistory env;; emit ProcessMissingFeedback
  end.

(** [if (this.session) { this.session.close(); this.session = null; }] *)
Definition closeSession : Act State unit :=
  s ← get;
  match session s with
  | Some ss => emit (SessionClose (connection ss));; modify (set_session None)
  | None => skip
  end.

(** The two nodes are disconnected when both exist, and forgotten. *)
Definition disconnectCapture : Act State unit :=
  s ← get;
  when (isSome (scriptProcessorNode s) && isSome (sourceNode s)
        && inputAudioContext)
    (emit DisconnectProcessor;; emit DisconnectSource);;
  modify (set_scriptProcessorNode None);;
  modify (set_sourceNode None).

(** [if (this.mediaStream) { tracks.forEach(stop); this.mediaStream = null; }] *)
Definition releaseMedia : Act State unit :=
  s ← get;
  match mediaStream s with
  | Some stream => emit (TrackStop stream);; modify (set_mediaStream None)
  | None => skip
  end.

Definition stopRecording (env : Env) : Act State unit :=
  s ← get;
  if negb (isRecording s) && negb (isSome (mediaStream s))
     && negb inputAudioContext
  then skip
  else
    markPart2Finished;;
    cancelPartTimer;;
    cancelCreditPoll;;
    persistTranscript env;;
    modify (set_isRecording false);;
    closeSession;;
    disconnectCapture;;
    releaseMedia.

(** [stopRecording] past its first line. *)
Definition release (env : Env) : Act State unit :=
  markPart2Finished;; cancelPartTimer;; cancelCreditPoll;;
  persistTranscript env;; modify (set_isRecording false);;
  closeSession;; disconnectCapture;; releaseMedia.

(** Nothing is recording and nothing is held. *)
Definition stopped (s : State) : Prop :=
  isRecording s = false /\ session s = None /\ mediaStream s = None
  /\ sourceNode s = None /\ scriptProcessorNode s = None
  /\ creditUsageInterval s = None /\ part2TimerInterval s = None.

Definition bufferSize : nat := 4096.

Definition startRecording (instruction : string) (modalities : list Modality)
    (env : Env) : Act State unit :=
  s ← get;
  if creditsExhausted s then modify (set_isOutOfCreditsModalOpen true)
  else if isRecording s then skip
  else
    modify (set_transcripts []);;
    modify (set_currentSessionId (Some (uuid env)));;
    initSession instruction modalities env;;
    s1 ← get;
    if negb (isSome (session s1)) then
      emit (ConsoleError "Could not start new session.")
    else
      emit InputContextResume;;
      emit GetUserMedia;;
      match userMedia env with
      | Some stream =>
          modify (set_mediaStream (Some stream));;
          modify (set_sourceNode (Some stream));;
          modify (set_scriptProcessorNode (Some bufferSize));;
          emit (WireCapture stream bufferSize);;
          modify (set_isRecording true);;
          modify (set_creditUsageInterval (Some (timer env)));;
          emit (SetInterval CreditPoll (timer env) creditUpdateIntervalMs)
      | None =>
          emit (ConsoleError "Error starting recording:");;
          stopRecording env
      end.

Definition stopCurrentSession (env : Env) : Act State unit :=
  s ← get;
  when (isRecording s) (stopRecording env).

Definition handlePartSelect (part : Part) (env : Env) : Act State unit :=
  stopCurrentSession env;;
  s ← get;
  if creditsExhausted s then modify (set_isOutOfCreditsModalOpen true)
  else
    modify (set_currentPart (Some part));;
    modify (set_transcripts []);;
    modify (set_part2CueCard None);;
    modify (set_part2Topic None);;
    modify (set_part2State idle);;
    modify (set_part2PreparationTimeLeft 60);;
    modify (set_part2SpeakingTimeLeft 120);;
    let openIntro (content : IntroContent) : Act State unit :=
      modify (set_introModalContent (Some content));;
      modify (set_isIntroConfirmed false);;
      modify (set_isIntroModalOpen true) in
    match part with
    | part1 => openIntro intro1
    | part2 => openIntro intro2
    | part3 =>
        s1 ← get;
        if negb (truthy_str (part2TopicForPart3 s1))
        then modify (set_transcripts [completePart2First])
        else openIntro intro3
    end.

Definition startPart2Preparation (env : Env) : Act State unit :=
  modify (set_part2State preparing);;
  modify (set_part2PreparationTimeLeft 60);;
  modify (set_part2TimerInterval (Some (countdown env)));;
  emit (SetInterval PreparationCountdown (countdown env) 1000).

Definition generateCueCard (env : Env) : Act State unit :=
  s ← get;
  when (client s) (emit GenerateContent);;
  match (if client s then generated env else None) with
  | Some g =>
      modify (set_part2Topic (topic g));;
      modify (set_part2CueCard
                (Some {| description := gen_description g;
                         points := gen_points g |}));;
      modify (set_transcripts []);;
      startPart2Preparation env
  | None =>
      emit (ConsoleError "Error generating cue card:");;
      modify (set_transcripts
                [examinerSays "Sorry, there was an error generating the cue card. Please try again."]);;
      modify (set_part2State idle)
  end.

Definition handleStartPart (env : Env) : Act State unit :=
  modify (set_isIntroModalOpen false);;
  s ← get;
  match currentPart s with
  | None => skip
  | Some part1 => startRecording PART1_INSTRUCTION [AUDIO] env
  | Some part2 =>
      modify (set_part2State generating);;
      modify (set_transcripts [examinerSays "Generating your Part 2 cue card..."]);;
      generateCueCard env
  | Some part3 =>
      match part2TopicForPart3 s with
      | Some topic =>
          if Live.truthy topic
          then startRecording (PART3_INSTRUCTION_TEMPLATE topic) [AUDIO] env
          else skip
      | None => skip
      end
  end.

Definition clearPart2Timer : Act State unit :=
  s ← get;
  match part2TimerInterval s with
  | Some id => emit (ClearInterval id)
  | None => skip
  end;;
  modify (set_part2TimerInterval None).

Definition startPart2SpeakingSession (env : Env) : Act State unit :=
  modify (set_part2State speaking);;
  modify (set_part2SpeakingTimeLeft 120);;
  startRecording PART2_INSTRUCTION [AUDIO] env;;
  modify (set_part2TimerInterval (Some (countdown env)));;
  emit (SetInterval SpeakingCountdown (countdown env) 1000).

(** One firing of the preparation countdown. *)
Definition preparationTick (env : Env) : Act State unit :=
  modify (fun s => set_part2PreparationTimeLeft (part2PreparationTimeLeft s - 1) s);;
  s ← get;
  when (part2PreparationTimeLeft s <=? 0)
    (clearPart2Timer;; startPart2SpeakingSession env).

(** One firing of the speaking countdown. *)
Definition speakingTick (env : Env) : Act State unit :=
  modify (fun s => set_part2SpeakingTimeLeft (part2SpeakingTimeLeft s - 1) s);;
  s ← get;
  when (part2SpeakingTimeLeft s <=? 0)
    (clearPart2Timer;; stopCurrentSession env).

(** One firing of the credit-poll timer. *)
Definition deductCredits (env : Env) : Act State unit :=
  s ← get;
  if negb (isRecording s) || negb (isSome (userCredits s)) then skip
  else
    emit (RpcDeductCredits (creditUpdateIntervalMs / 1000));;
    match rpcReply env with
    | Failed _ => emit (ConsoleError "Error deducting credits:")
    | Returned balance =>
        modify (set_userCredits (Some balance));;
        when (balance <=? 0)
          (stopCurrentSession env;; modify (set_isOutOfCreditsModalOpen true))
    | Nothing =>
        modify (set_userCredits None);;
        stopCurrentSession env;; modify (set_isOutOfCreditsModalOpen true)
    end.

(** The assignments with which [handlePartSelect] starts a part. *)
Definition selected (part : Part) (s : State) : State :=
  set_part2SpeakingTimeLeft 120
    (set_part2PreparationTimeLeft 60
       (set_part2State idle
          (set_part2Topic None
             (set_part2CueCard None
                (set_transcripts [] (set_currentPart (Some part) s)))))).

Definition handleVisualizerClick (env : Env) : Act State unit :=
  s ← get;
  if isRecording s then stopRecording env
  else match currentPart s with
       | Some part => handlePartSelect part env
       | None => skip
       end.

(** [saveCurrentSessionHistory] up to its [await]: the guards, and the
    call of [insert] with the rows made from the transcript.  The result
    tells whether the insert was issued. *)
Definition saveRequest : Act State bool :=
  s ← get;
  match supabaseSession s with
  | None => mret false
  | Some user =>
      if negb (truthy_str (currentSessionId s)) then mret false
      else
        match currentSessionId s, transcripts s with
        | None, _ | _, [] => mret false
        | Some sid, lines =>
            emit (InsertTranscripts
                    (map (fun l => {| user_id := user; session_id := sid;
                                      ins_speaker := Live.speaker l;
                                      ins_text := Live.text l |}) lines));;
            mret true
        end
  end.

(** The property name [[this.currentSessionId!]] evaluates to. *)
Definition sessionKey (id : option string) : string :=
  match id with
  | Some sid => sid
  | None => "null"
  end.

(** [saveCurrentSessionHistory] from its [await] on, once the store has
    answered: the history and the session id are read as they are then. *)
Definition saveReply (env : Env) (issued : bool) : Act State unit :=
  if issued then
    match insertReply env with
    | Failed msg =>
        emit (ConsoleError ("Error saving session history: " +:+ msg))
    | Returned rows =>
        modify (fun s => set_chatHistory
                           (<[sessionKey (currentSessionId s) := rows]>
                              (chatHistory s)) s)
    | Nothing => skip
    end
  else skip.

(** [stopRecording] from [this.isRecording = false] on. *)
Definition windDown : Act State unit :=
  modify (set_isRecording false);;
  closeSession;;
  disconnectCapture;;
  releaseMedia.

(** [stopRecording] as far as it runs when it is called: to its end (the
    result is [None]), or, with lines in the transcript, to
    [await this.saveCurrentSessionHistory()], the save having run to its
    own [await] (the result tells whether the insert was issued). *)
Definition stopRecordingUntilAwait : Act State (option bool) :=
  s ← get;
  if negb (isRecording s) && negb (isSome (mediaStream s))
     && negb inputAudioContext
  then mret None
  else
    markPart2Finished;;
    cancelPartTimer;;
    cancelCreditPoll;;
    s1 ← get;
    match transcripts s1 with
    | [] => windDown;; mret None
    | _ :: _ => issued ← saveRequest; mret (Some issued)
    end.

(** [stopRecording] from its [await] on: the rest of the save, then the
    rest of [stopRecording]. *)
Definition stopRecordingAfterAwait (env : Env) (issued : bool)
  : Act State unit :=
  saveReply env issued;;
  emit ProcessMissingFeedback;;
  windDown.

(** The body of [cleanup] after its first line. *)
Definition forget : Act State unit :=
  (s ← get;
   match session s with
   | Some ss => emit (SessionClose (connection ss))
   | None => skip
   end);;
  modify (set_client false);;
  modify (set_session None);;
  modify (set_transcripts []);;
  modify (set_chatHistory ∅);;
  modify (set_userCredits None);;
  cancelCreditPoll.

(** [cleanup], run when the user has logged out.  Its first line calls
    [stopRecording] without [await]: [stopRecording] runs as far as its
    first [await], if it meets one, and is suspended there; the rest of
    [cleanup] runs; then the save and [stopRecording] go on, from the state
    [cleanup] has left, with no other event handled before they end. *)
Definition cleanup (env : Env) : Act State unit :=
  suspended ← stopRecordingUntilAwait;
  forget;;
  match suspended with
  | Some issued => stopRecordingAfterAwait env issued
  | None => skip
  end.

(** What can happen to the component: user actions, timers firing and
    replies coming in. *)
Inductive Action :=
| Login (user : string) (clock : Q)
| Logout
| ProfileFetched (reply : Reply Z)
| Message (clock : Q) (message : Live.LiveServerMessage)
| SelectPart (part : Part)
| StartPart
| VisualizerClick
| PreparationTick
| SpeakingTick
| CreditTick.

Definition perform (a : Action) (env : Env) : Act State unit :=
  match a with
  | Login user clock => modify (onLogin user clock)
  | Logout => modify (set_supabaseSession None);; cleanup env
  | ProfileFetched reply => fetchUserProfile reply
  | Message clock message => onmessage clock message
  | SelectPart part => handlePartSelect part env
  | StartPart => handleStartPart env
  | VisualizerClick => handleVisualizerClick env
  | PreparationTick => preparationTick env
  | SpeakingTick => speakingTick env
  | CreditTick => deductCredits env
  end.

(** States the component gets into from construction on, in the runs in
    which every action has run to its end before the next event is handled.
    Such a run is a run of the code (the events come far enough apart), so
    a state listed here does occur.  While an action is suspended at an
    [await] the component is in a state that is not listed here, and other
    events can be handled in it: the relation shows that a state occurs, it
    does not list all the states that do, and nothing is proved of all
    states by induction on it. *)
Inductive reachable : State -> Prop :=
| reach_initial : reachable initial
| reach_step s a env :
    reachable s -> reachable (fst (exec (perform a env) s)).

End App.

(* ================================================================== *)
(** * [index.tsx], first version: recording without parts or credits   *)
(* ================================================================== *)

Module Basic.
Import Host.

(** The fields of the first version of [index.tsx] that the core reads
    or writes. *)
Record State := {
  live : Live.State;
  isRecording : bool;
  supabaseSession : option string;
  currentSessionId : option string;
  client : bool;
  session : option Session;
  mediaStream : option nat;
  sourceNode : option nat;
  scriptProcessorNode : option nat
}.

(** Field assignments ([this.f = v]). *)
Definition set_live (v : Live.State) (s : State) : State :=
  {| live := v; isRecording := isRecording s;
     supabaseSession := supabaseSession s;
     currentSessionId := currentSessionId s; client := client s;
     session := session s; mediaStream := mediaStream s;
     sourceNode := sourceNode s;
     scriptProcessorNode := scriptProcessorNode s |}.
Definition set_isRecording (v : bool) (s : State) : State :=
  {| live := live s; isRecording := v;
     supabaseSession := supabaseSession s;
     currentSessionId := currentSessionId s; client := client s;
     session := session s; mediaStream := mediaStream s;
     sourceNode := sourceNode s;
     scriptProcessorNode := scriptProcessorNode s |}.
Definition set_supabaseSession (v : option string) (s : State) : State :=
  {| live := live s; isRecording := isRecording s; supabaseSession := v;
     currentSessionId := currentSessionId s; client := client s;
     session := session s; mediaStream := mediaStream s;
     sourceNode := sourceNode s;
     scriptProcessorNode := scriptProcessorNode s |}.
Definition set_currentSessionId (v : option string) (s : State) : State :=
  {| live := live s; isRecording := isRecording s;
     supabaseSession := supabaseSession s; currentSessionId := v;
     client := client s; session := session s;
     mediaStream := mediaStream s; sourceNode := sourceNode s;
     scriptProcessorNode := scriptProcessorNode s |}.
Definition set_client (v : bool) (s : State) : State :=
  {| live := live s; isRecording := isRecording s;
     supabaseSession := supabaseSession s;
     currentSessionId := currentSessionId s; client := v;
     session := session s; mediaStream := mediaStream s;
     sourceNode := sourceNode s;
     scriptProcessorNode := scriptProcessorNode s |}.
Definition set_session (v : option Session) (s : State) : State :=
  {| live := live s; isRecording := isRecording s;
     supabaseSession := supabaseSession s;
     currentSessionId := currentSessionId s; client := client s;
     session := v; mediaStream := mediaStream s;
     sourceNode := sourceNode s;
     scriptProcessorNode := scriptProcessorNode s |}.
Definition set_mediaStream (v : option nat) (s : State) : State :=
  {| live := live s; isRecording := isRecording s;
     supabaseSession := supabaseSession s;
     currentSessionId := currentSessionId s; client := client s;
     session := session s; mediaStream := v; sourceNode := sourceNode s;
     scriptProcessorNode := scriptProcessorNode s |}.
Definition set_sourceNode (v : option nat) (s : State) : State :=
  {| live := live s; isRecording := isRecording s;
     supabaseSession := supabaseSession s;
     currentSessionId := currentSessionId s; client := client s;
     session := session s; mediaStream := mediaStream s; sourceNode := v;
     scriptProcessorNode := scriptProcessorNode s |}.
Definition set_scriptProcessorNode (v : option nat) (s : State) : State :=
  {| live := live s; isRecording := isRecording s;
     supabaseSession := supabaseSession s;
     currentSessionId := currentSessionId s; client := client s;
     session := session s; mediaStream := mediaStream s;
     sourceNode := sourceNode s; scriptProcessorNode := v |}.

Definition transcripts (s : State) : list Live.TranscriptLine :=
  Live.transcripts (live s).
Definition set_transcripts (ts : list Live.TranscriptLine) (s : State) : State :=
  set_live (Live.with_transcripts ts (live s)) s.

Definition initial : State :=
  {| live := Live.initial; isRecording := false; supabaseSession := None;
     currentSessionId := None; client := false; session := None;
     mediaStream := None; sourceNode := None; scriptProcessorNode := None |}.

(** [initClient]: [initAudio], then the client is created. *)
Definition initClient (clock : Q) (s : State) : State :=
  set_client true (set_live (Live.initAudio clock (live s)) s).

(** A session of the identity provider appears ([updated]). *)
Definition onLogin (user : string) (clock : Q) (s : State) : State :=
  let s1 := set_supabaseSession (Some user) s in
  if client s1 then s1 else initClient clock s1.

Definition onmessage (clock : Q) (message : Live.LiveServerMessage)
  : Act State unit :=
  act (fun s =>
    let '(l, evs) := Live.onmessage clock message (live s) in
    (tt, set_live l s, map Audio evs)).

(** The insert is issued when the method is called; its reply is only
    logged. *)
Definition saveCurrentSessionHistory (env : Env) : Act State unit :=
  s ← get;
  match supabaseSession s, currentSessionId s, transcripts s with
  | Some user, Some sid, (_ :: _) as lines =>
      if Live.truthy sid then
        emit (InsertTranscripts
                (map (fun l => {| user_id := user; session_id := sid;
                                  ins_speaker := Live.speaker l;
                                  ins_text := Live.text l |}) lines));;
        match insertReply env with
        | Failed msg =>
            emit (ConsoleError ("Error saving session history: " +:+ msg))
        | _ => skip
        end
      else skip
  | _, _, _ => skip
  end.

Definition initSession (env : Env) : Act State unit :=
  s ← get;
  if negb (client s) then skip
  else
    emit (Connect "" [AUDIO]);;
    match connect env with
    | Some c =>
        modify (set_session
                  (Some {| connection := c; systemInstruction := "";
                           responseModalities := [AUDIO] |}))
    | None => emit (ConsoleError "live.connect failed")
    end.

Definition onaudioprocess (frame : list Q) (s : State) : Outcome * list Event :=
  if negb (isRecording s) || negb (isSome (session s)) then (Dropped, [])
  else sendRealtimeInput (session s) (Codec.createBlob frame).

(** The blocks of [stopRecording], in program order. *)
Definition closeSession : Act State unit :=
  s ← get;
  match session s with
  | Some ss => emit (SessionClose (connection ss));; modify (set_session None)
  | None => skip
  end.

Definition disconnectCapture : Act State unit :=
  s ← get;
  when (isSome (scriptProcessorNode s) && isSome (sourceNode s)
        && inputAudioContext)
    (emit DisconnectProcessor;; emit DisconnectSource);;
  modify (set_scriptProcessorNode None);;
  modify (set_sourceNode None).

Definition releaseMedia : Act State unit :=
  s ← get;
  match mediaStream s with
  | Some stream => emit (TrackStop stream);; modify (set_mediaStream None)
  | None => skip
  end.

Definition stopRecording (env : Env) : Act State unit :=
  s ← get;
  if negb (isRecording s) && negb (isSome (mediaStream s))
     && negb inputAudioContext
  then skip
  else
    saveCurrentSessionHistory env;;
    modify (set_isRecording false);;
    closeSession;;
    disconnectCapture;;
    releaseMedia.

Definition bufferSize : nat := 4096.

Definition startRecording (env : Env) : Act State unit :=
  s ← get;
  if isRecording s then skip
  else
    modify (set_transcripts []);;
    modify (set_currentSessionId (Some (uuid env)));;
    initSession env;;
    s1 ← get;
    if negb (isSome (session s1)) then
      emit (ConsoleError "Could not start new session.")
    else
      emit InputContextResume;;
      emit GetUserMedia;;
      match userMedia env with
      | Some stream =>
          modify (set_mediaStream (Some stream));;
          modify (set_sourceNode (Some stream));;
          modify (set_scriptProcessorNode (Some bufferSize));;
          emit (WireCapture stream bufferSize);;
          modify (set_isRecording true)
      | None =>
          emit (ConsoleError "Error starting recording:");;
          stopRecording env
      end.

Definition toggleRecording (env : Env) : Act State unit :=
  s ← get;
  if isRecording s then stopRecording env else startRecording env.

(** [cleanup], run when the identity session is gone. *)
Definition cleanup (env : Env) : Act State unit :=
  stopRecording env;;
  (s ← get;
   match session s with
   | Some ss => emit (SessionClose (connection ss))
   | None => skip
   end);;
  modify (set_client false);;
  modify (set_session None);;
  modify (set_transcripts []).

Inductive Action :=
| Login (user : string) (clock : Q)
| Logout
| Message (clock : Q) (message : Live.LiveServerMessage)
| ToggleRecording.

Definition perform (a : Action) (env : Env) : Act State unit :=
  match a with
  | Login user clock => modify (onLogin user clock)
  | Logout => modify (set_supabaseSession None);; cleanup env
  | Message clock message => onmessage clock message
  | ToggleRecording => toggleRecording env
  end.

(** States the component gets into from construction on, in the runs in
    which every action has run to its end before the next event is handled;
    states in which an action is suspended at an [await] are not listed.
    The relation shows that a state occurs, not which states do. *)
Inductive reachable : State -> Prop :=
| reach_initial : reachable initial
| reach_step s a env :
    reachable s -> reachable (fst (exec (perform a env) s)).

End Basic.

(* ================================================================== *)
(** * The earliest version of the component                            *)
(* ================================================================== *)

Module Legacy.
Import Host.

(** The fields of the earliest version of the component that recording
    touches. *)
Record State := {
  isRecording : bool;
  session : option Session;
  mediaStream : option nat;
  sourceNode : option nat;
  scriptProcessorNode : option nat
}.

(** Field assignments ([this.f = v]). *)
Definition set_isRecording (v : bool) (s : State) : State :=
  {| isRecording := v; session := session s; mediaStream := mediaStream s;
     sourceNode := sourceNode s;
     scriptProcessorNode := scriptProcessorNode s |}.
Definition set_session (v : option Session) (s : State) : State :=
  {| isRecording := isRecording s; session := v;
     mediaStream := mediaStream s; sourceNode := sourceNode s;
     scriptProcessorNode := scriptProcessorNode s |}.
Definition set_mediaStream (v : option nat) (s : State) : State :=
  {| isRecording := isRecording s; session := session s; mediaStream := v;
     sourceNode := sourceNode s;
     scriptProcessorNode := scriptProcessorNode s |}.
Definition set_sourceNode (v : option nat) (s : State) : State :=
  {| isRecording := isRecording s; session := session s;
     mediaStream := mediaStream s; sourceNode := v;
     scriptProcessorNode := scriptProcessorNode s |}.
Definition set_scriptProcessorNode (v : option nat) (s : State) : State :=
  {| isRecording := isRecording s; session := session s;
     mediaStream := mediaStream s; sourceNode := sourceNode s;
     scriptProcessorNode := v |}.

(** The constructor calls [initClient], which opens the session at once;
    a failed connection is logged and [this.session] stays unset. *)
Definition constructed (env : Env) : State * list Event :=
  let s0 := {| isRecording := false; session := None; mediaStream := None;
               sourceNode := None; scriptProcessorNode := None |} in
  match connect env with
  | Some c =>
      (set_session (Some {| connection := c; systemInstruction := "";
                            responseModalities := [AUDIO] |}) s0,
       [Connect "" [AUDIO]])
  | None => (s0, [Connect "" [AUDIO]; ConsoleError "live.connect failed"])
  end.

(** The capture callback: only the recording flag is looked at. *)
Definition onaudioprocess (frame : list Q) (s : State) : Outcome * list Event :=
  if negb (isRecording s) then (Dropped, [])
  else sendRealtimeInput (session s) (Codec.createBlob frame).

Definition disconnectCapture : Act State unit :=
  s ← get;
  when (isSome (scriptProcessorNode s) && isSome (sourceNode s)
        && inputAudioContext)
    (emit DisconnectProcessor;; emit DisconnectSource);;
  modify (set_scriptProcessorNode None);;
  modify (set_sourceNode None).

Definition releaseMedia : Act State unit :=
  s ← get;
  match mediaStream s with
  | Some stream => emit (TrackStop stream);; modify (set_mediaStream None)
  | None => skip
  end.

Definition stopRecording : Act State unit :=
  s ← get;
  if negb (isRecording s) && negb (isSome (mediaStream s))
     && negb inputAudioContext
  then skip
  else
    modify (set_isRecording false);;
    disconnectCapture;;
    releaseMedia.

Definition bufferSize : nat := 256.

Definition startRecording (env : Env) : Act State unit :=
  s ← get;
  if isRecording s then skip
  else
    emit InputContextResume;;
    emit GetUserMedia;;
    match userMedia env with
    | Some stream =>
        modify (set_mediaStream (Some stream));;
        modify (set_sourceNode (Some stream));;
        modify (set_scriptProcessorNode (Some bufferSize));;
        emit (WireCapture stream bufferSize);;
        modify (set_isRecording true)
    | None =>
        emit (ConsoleError "Error starting recording:");;
        stopRecording
    end.

End Legacy.

(* ================================================================== *)
(** * Scenarios                                                        *)
(* ================================================================== *)

Module Scenario.
Import Host.

(** A world in which every external call succeeds. *)
Definition online : Env :=
  {| uuid := "3f1c9a52-7d4e-4b8a-9c21-5e6f7a8b9c0d";
     connect := Some 1%nat;
     userMedia := Some 7%nat;
     timer := 3%nat;
     countdown := 4%nat;
     insertReply := Returned [];
     rpcReply := Returned 590;
     generated := Some {| topic := Some "A memorable trip";
                          gen_description := "Describe a memorable trip you have taken.";
                          gen_points := ["Where you went"; "Who you went with";
                                         "What you did"] |} |}.

(** The same world with the remote service unreachable. *)
Definition offline : Env :=
  {| uuid := uuid online; connect := None; userMedia := userMedia online;
     timer := timer online; countdown := countdown online;
     insertReply := insertReply online; rpcReply := rpcReply online;
     generated := generated online |}.

Definition hello : Live.LiveServerMessage :=
  Live.fragmentMessage Live.Candidate "Hello".

Definition frame : list Q := [0; 1 # 2; - (1 # 4)]%Q.

(** The IELTS component: a signed-in user records Part 1 and says a word. *)
Definition appRecording : App.State :=
  let s0 := App.onLogin "user-1" 0 App.initial in
  let s1 := fst (exec (App.handlePartSelect App.part1 online) s0) in
  let s2 := fst (exec (App.handleStartPart online) s1) in
  fst (exec (App.onmessage (1 # 2) hello) s2).

(** The IELTS component: a signed-in user has started Part 2 and is in the
    preparation minute. *)
Definition appPreparing : App.State :=
  let s0 := App.onLogin "user-1" 0 App.initial in
  let s1 := fst (exec (App.handlePartSelect App.part2 online) s0) in
  fst (exec (App.handleStartPart online) s1).

(** The preparation minute has run out and the candidate is speaking. *)
Definition appSpeaking : App.State :=
  Nat.iter 60 (fun s => fst (exec (App.preparationTick online) s)) appPreparing.

(** The candidate has stopped the Part 2 recording. *)
Definition appFinishedPart2 : App.State :=
  fst (exec (App.stopRecording online) appSpeaking).

(** First version of [index.tsx]: a signed-in user records and says a word. *)
Definition basicRecording : Basic.State :=
  let s0 := Basic.onLogin "user-1" 0 Basic.initial in
  let s1 := fst (exec (Basic.startRecording online) s0) in
  fst (exec (Basic.onmessage (1 # 2) hello) s1).

(** Earliest version: the connection failed at construction, then the user
    starts recording. *)
Definition legacyRecording : Legacy.State :=
  fst (exec (Legacy.startRecording offline) (fst (Legacy.constructed offline))).

End Scenario.

(* ================================================================== *)
(** * More of the message handler                                      *)
(* ================================================================== *)

Module Transcript.
Import Live.

(** No two neighbouring lines have the same speaker. *)
Fixpoint alternating (ts : list TranscriptLine) : Prop :=
  match ts with
  | a :: (b :: _) as rest => speaker a <> speaker b /\ alternating rest
  | _ => True
  end.

(** Everything a speaker has said, in order. *)
Fixpoint said (who : string) (ts : list TranscriptLine) : string :=
  match ts with
  | [] => ""
  | l :: rest =>
      if String.eqb (speaker l) who then text l +:+ said who rest
      else said who rest
  end.

(** Everything a speaker was sent, in order. *)
Fixpoint sent (who : Speaker) (frags : list (Speaker * string)) : string :=
  match frags with
  | [] => ""
  | (w, txt) :: rest =>
      if String.eqb (label w) (label who) then txt +:+ sent who rest
      else sent who rest
  end.

(** The text a transcription adds. *)
Definition heard (t : option Transcription) : string :=
  match fragmentText t with
  | Some txt => txt
  | None => ""
  end.

(** The lines that can still change: none but the last, and in the
    variants with finality not even that one once it is final. *)
Definition settled (fs : list FinalLine) (i : nat) (l : FinalLine) : Prop :=
  fs !! i = Some l /\ ((S i < List.length fs)%nat \/ isFinal l = true).

(** The identifiers of the live sources are those of sources already
    created, each at most once. *)
Definition wellFormed (st : State) : Prop :=
  Forall (fun x => (x < created st)%nat) (sources st) /\ NoDup (sources st).

(** What reaches the scheduler: a message of the session, or the 'ended'
    event of a source. *)
Inductive Arrival :=
| Arrived (clock : Q) (message : LiveServerMessage)
| Ended (source : nat).

Fixpoint play (arrivals : list Arrival) (st : State) : State :=
  match arrivals with
  | [] => st
  | Arrived clock message :: rest => play rest (fst (onmessage clock message st))
  | Ended source :: rest => play rest (onended source st)
  end.

End Transcript.

(* ================================================================== *)
(** * [index.tsx], second version: a line is saved when it is final    *)
(* ================================================================== *)

Module Saving.
Import Live Host.

(** [saveTranscript(speaker, text)]: the row inserted, if any. *)
Definition saveTranscript (supabaseSession currentSessionId : option string)
    (who txt : string) : option InsertRow :=
  match supabaseSession, currentSessionId with
  | Some user, Some sid =>
      if truthy sid
      then Some {| user_id := user; session_id := sid;
                   ins_speaker := who; ins_text := txt |}
      else None
  | _, _ => None
  end.

(** One transcript block of the handler: the new transcript and the rows
    written to the store. *)
Definition onTranscription (supabaseSession currentSessionId : option string)
    (who : string) (t : option Transcription) (fs : list FinalLine)
  : list FinalLine * list InsertRow :=
  let '(fs', calls) := reconcileSaving who t fs in
  (fs', omap (fun c => saveTranscript supabaseSession currentSessionId (fst c) (snd c))
          calls).

End Saving.

(* ================================================================== *)
(** * Sequences of ticks and actions of the IELTS component            *)
(* ================================================================== *)

Module Flow.
Import Host App.

(** [n] firings of a timer. *)
Fixpoint ticks (n : nat) (tick : Act State unit) : Act State unit :=
  match n with
  | O => skip
  | S k => tick;; ticks k tick
  end.

(** One credit-poll tick per answer of the store. *)
Fixpoint pollAll (envs : list Env) : Act State unit :=
  match envs with
  | [] => skip
  | env :: rest => deductCredits env;; pollAll rest
  end.

(** The seconds asked of the store. *)
Fixpoint deducted (evs : list Event) : Z :=
  match evs with
  | [] => 0
  | RpcDeductCredits n :: rest => n + deducted rest
  | _ :: rest => deducted rest
  end.

(** Events that open a live connection or ask for the microphone. *)
Definition acquires (e : Event) : bool :=
  match e with
  | Connect _ _ | GetUserMedia | WireCapture _ _ => true
  | _ => false
  end.

(** A step that never acquires anything. *)
Definition quiet {A} (m : Act State A) : Prop :=
  forall s, Forall (fun e => acquires e = false) (snd (exec m s)).

(** A step that acquires nothing when the credits are used up. *)
Definition blocked {A} (m : Act State A) : Prop :=
  forall s, creditsExhausted s = true ->
            Forall (fun e => acquires e = false) (snd (exec m s)).

(** What is held while recording is held exactly then. *)
Definition consistent (s : State) : Prop :=
  if isRecording s
  then isSome (session s) = true /\ isSome (mediaStream s) = true
       /\ isSome (sourceNode s) = true /\ isSome (scriptProcessorNode s) = true
       /\ isSome (creditUsageInterval s) = true
  else session s = None /\ mediaStream s = None /\ sourceNode s = None
       /\ scriptProcessorNode s = None /\ creditUsageInterval s = None.

(** Nothing is held at all. *)
Definition atRest (s : State) : Prop :=
  isRecording s = false /\ session s = None /\ mediaStream s = None
  /\ sourceNode s = None /\ scriptProcessorNode s = None
  /\ creditUsageInterval s = None.

(** The state [startRecording] leaves when the connection [c] opens and
    the microphone gives [stream]: its assignments, in program order. *)
Definition recordingFrom (instruction : string) (modalities : list Modality)
    (env : Env) (c stream : nat) (s : State) : State :=
  set_creditUsageInterval (Some (timer env))
    (set_isRecording true
       (set_scriptProcessorNode (Some bufferSize)
          (set_sourceNode (Some stream)
             (set_mediaStream (Some stream)
                (set_session
                   (Some {| connection := c; systemInstruction := instruction;
                            responseModalities := modalities |})
                   (set_currentSessionId (Some (uuid env))
                      (set_transcripts [] s))))))).

(** What a successful [startRecording] does to the outside world. *)
Definition acquired (instruction : string) (modalities : list Modality)
    (env : Env) (stream : nat) : list Event :=
  [Connect instruction modalities; InputContextResume; GetUserMedia;
   WireCapture stream bufferSize;
   SetInterval CreditPoll (timer env) creditUpdateIntervalMs].

(** [clearInterval] of a timer field that is set. *)
Definition cleared (t : option nat) : list Event :=
  match t with
  | Some id => [ClearInterval id]
  | None => []
  end.

(** The rows [saveCurrentSessionHistory] sends. *)
Definition rowsFor (user sid : string) (lines : list Live.TranscriptLine)
  : list InsertRow :=
  map (fun l => {| user_id := user; session_id := sid;
                   ins_speaker := Live.speaker l;
                   ins_text := Live.text l |}) lines.

(** What [stopRecording] does to the store. *)
Definition persisted (env : Env) (s : State) : list Event :=
  match transcripts s with
  | [] => []
  | lines =>
      match supabaseSession s, currentSessionId s with
      | Some user, Some sid =>
          if Live.truthy sid
          then InsertTranscripts (rowsFor user sid lines)
               :: match insertReply env with
                  | Failed msg =>
                      [ConsoleError ("Error saving session history: " +:+ msg)]
                  | _ => []
                  end
          else []
      | _, _ => []
      end ++ [ProcessMissingFeedback]
  end.

(** What [stopRecording] does to the outside world, read off the state in
    which it is called. *)
Definition released (env : Env) (s : State) : list Event :=
  cleared (part2TimerInterval s)
  ++ cleared (creditUsageInterval s)
  ++ persisted env s
  ++ match session s with
     | Some ss => [SessionClose (connection ss)]
     | None => []
     end
  ++ (if isSome (scriptProcessorNode s) && isSome (sourceNode s)
      then [DisconnectProcessor; DisconnectSource] else [])
  ++ match mediaStream s with
     | Some stream => [TrackStop stream]
     | None => []
     end.

(** The assignments of [stopRecording] before it saves: Part 2 marked
    finished when its topic is there, and both timers off. *)
Definition marked (s : State) : State :=
  if isPart2 (currentPart s) && truthy_str (part2Topic s)
  then set_part2State finished (set_part2TopicForPart3 (part2Topic s) s)
  else s.

Definition halted (s : State) : State :=
  set_creditUsageInterval None (set_part2TimerInterval None (marked s)).

(** The assignments of [stopRecording] from [this.isRecording = false] on. *)
Definition wound (s : State) : State :=
  set_mediaStream None
    (set_sourceNode None
       (set_scriptProcessorNode None
          (set_session None (set_isRecording false s)))).

(** The assignments of [cleanup] after its first line. *)
Definition forgotten (s : State) : State :=
  set_creditUsageInterval None
    (set_userCredits None
       (set_chatHistory ∅
          (set_transcripts [] (set_session None (set_client false s))))).

(** The user and the session id under which [saveCurrentSessionHistory]
    issues its insert, when its guards let it. *)
Definition saving (s : State) : option (string * string) :=
  match supabaseSession s, currentSessionId s, transcripts s with
  | Some user, Some sid, _ :: _ =>
      if Live.truthy sid then Some (user, sid) else None
  | _, _, _ => None
  end.

(** [session.close()] of a session that is held. *)
Definition closed (s : State) : list Event :=
  match session s with
  | Some ss => [SessionClose (connection ss)]
  | None => []
  end.

(** The capture nodes disconnected and the microphone tracks stopped. *)
Definition unwired (s : State) : list Event :=
  (if isSome (scriptProcessorNode s) && isSome (sourceNode s)
   then [DisconnectProcessor; DisconnectSource] else [])
  ++ match mediaStream s with
     | Some stream => [TrackStop stream]
     | None => []
     end.

(** The insert [saveCurrentSessionHistory] issues, and what it logs when
    the store has answered. *)
Definition requested (s : State) : list Event :=
  match saving s with
  | Some (user, sid) => [InsertTranscripts (rowsFor user sid (transcripts s))]
  | None => []
  end.

Definition answered (env : Env) (s : State) : list Event :=
  match saving s, insertReply env with
  | Some _, Failed msg =>
      [ConsoleError ("Error saving session history: " +:+ msg)]
  | _, _ => []
  end.

(** What [cleanup] does to the outside world, read off the state in which
    it is called.  With lines in the transcript the session is closed by
    [cleanup] itself, between the insert and its answer. *)
Definition cleanedUp (env : Env) (s : State) : list Event :=
  cleared (part2TimerInterval s)
  ++ cleared (creditUsageInterval s)
  ++ match transcripts s with
     | [] => closed s ++ unwired s
     | _ :: _ =>
         requested s ++ closed s ++ answered env s
         ++ [ProcessMissingFeedback] ++ unwired s
     end.

(** The history [cleanup] leaves: empty, but for the rows of an insert
    that was answered after [cleanup] had emptied it. *)
Definition keptHistory (env : Env) (s : State) : gmap string (list HistoryRow) :=
  match saving s, insertReply env with
  | Some (_, sid), Returned rows => {[ sid := rows ]}
  | _, _ => ∅
  end.

(** The state [cleanup] leaves. *)
Definition cleaned (env : Env) (s : State) : State :=
  match transcripts s with
  | [] => forgotten (wound (halted s))
  | _ :: _ => wound (set_chatHistory (keptHistory env s) (forgotten (halted s)))
  end.

(** The balance on the page after a run of credit polls: the last one the
    store returned, if any. *)
Fixpoint balanceAfter (envs : list Env) (c : option Z) : option Z :=
  match envs with
  | [] => c
  | env :: rest =>
      balanceAfter rest (match rpcReply env with
                         | Returned b => Some b
                         | _ => c
                         end)
  end.

(** What a run of credit polls does to the outside world when none of them
    ends the recording. *)
Fixpoint polled (envs : list Env) : list Event :=
  match envs with
  | [] => []
  | env :: rest =>
      RpcDeductCredits (creditUpdateIntervalMs / 1000)
      :: match rpcReply env with
         | Failed _ => [ConsoleError "Error deducting credits:"]
         | _ => []
         end ++ polled rest
  end.

(** A poll that leaves the recording running: the store fails, or returns a
    balance above zero. *)
Definition carriesOn (env : Env) : bool :=
  match rpcReply env with
  | Failed _ => true
  | Returned b => 0 <? b
  | Nothing => false
  end.

End Flow.

(* ================================================================== *)
(** * JavaScript objects used as maps                                  *)
(* ================================================================== *)

Module Obj.

(** An object with string keys, in the order the keys were first written
    (keys that look like array indices, which JavaScript orders first, do
    not occur: the keys are session identifiers). *)
Definition t (V : Type) : Type := list (string * V).

(** [o[k]]. *)
Fixpoint get {V} (k : string) (o : t V) : option V :=
  match o with
  | [] => None
  | (k', v) :: rest => if String.eqb k' k then Some v else get k rest
  end.

(** [o[k] = v]: in place when the key exists, at the end otherwise. *)
Fixpoint put {V} (k : string) (v : V) (o : t V) : t V :=
  match o with
  | [] => [(k, v)]
  | (k', v') :: rest =>
      if String.eqb k' k then (k', v) :: rest else (k', v') :: put k v rest
  end.

(** [Object.keys(o)]. *)
Definition keys {V} (o : t V) : list string := map fst o.

End Obj.

(* ================================================================== *)
(** * History and feedback ([fetchHistory], [processMissingFeedback])  *)
(* ================================================================== *)

Module History.
Import Host.

Record FeedbackRow := { fb_session : string; feedback : string }.

(** The two records of the history panel, as objects in key order: the
    feedback run goes through [Object.keys] of both. *)
Record Panel := {
  chatHistory : Obj.t (list HistoryRow);
  sessionFeedback : Obj.t string
}.

(** The reducer of [fetchHistory]:
    [if (!acc[session_id]) acc[session_id] = []; acc[session_id].push(item)]. *)
Definition file (acc : Obj.t (list HistoryRow)) (item : HistoryRow)
  : Obj.t (list HistoryRow) :=
  let sid := row_session item in
  let acc1 := if isSome (Obj.get sid acc) then acc else Obj.put sid [] acc in
  match Obj.get sid acc1 with
  | Some rows => Obj.put sid (rows ++ [item]) acc1
  | None => acc1
  end.

Definition groupedHistory (data : list HistoryRow) : Obj.t (list HistoryRow) :=
  fold_left file data [].

(** [acc[item.session_id] = item.feedback]. *)
Definition feedbackMap (data : list FeedbackRow) : Obj.t string :=
  fold_left (fun acc item => Obj.put (fb_session item) (feedback item) acc) data [].

(** [fetchHistory], given the two answers of the store: an error on the
    first query returns before the second is made. *)
Definition fetchHistory (signedIn : bool) (history : Reply (list HistoryRow))
    (feedbacks : Reply (list FeedbackRow)) (p : Panel) : Panel :=
  if negb signedIn then p
  else
    match history with
    | Failed _ => p
    | _ =>
        let p1 := match history with
                  | Returned data =>
                      {| chatHistory := groupedHistory data;
                         sessionFeedback := sessionFeedback p |}
                  | _ => p
                  end in
        match feedbacks with
        | Returned data =>
            {| chatHistory := chatHistory p1; sessionFeedback := feedbackMap data |}
        | _ => p1
        end
    end.

(** The rows of one session, in the order received. *)
Definition rowsOf (sid : string) (data : list HistoryRow) : list HistoryRow :=
  List.filter (fun r => String.eqb (row_session r) sid) data.

End History.

Module Feedback.
Import Host History.

Definition maxRetries : nat := 3.

(** What [processMissingFeedback] does to the outside world after it has
    fetched the history: its calls to the model and to the store, its
    waits, and its log lines (by kind; the session id they print is
    dropped). *)
Inductive Effect :=
| Generate (session : string) (prompt : string)
| Sleep (ms : Z)
| Insert (session : string) (text : string)
| Log (message : string).

Inductive InsertOutcome := InsertOk | InsertError | InsertThrows.

(** What the outside world answers: the text of each generation attempt
    ([None]: the call throws) and the fate of each insert. *)
Record Oracle := {
  generate : string -> nat -> option string;
  insert : string -> InsertOutcome
}.

(** White space for [String.prototype.trim], among the code units below
    256. *)
Definition isWhiteSpace (c : ascii) : bool :=
  match nat_of_ascii c with
  | 9%nat | 10%nat | 11%nat | 12%nat | 13%nat | 32%nat | 160%nat => true
  | _ => false
  end.

(** [!s.trim()]. *)
Definition blank (s : string) : bool :=
  forallb isWhiteSpace (list_ascii_of_string s).

(** [Array.prototype.join(' ')]. *)
Fixpoint join (parts : list string) : string :=
  match parts with
  | [] => ""
  | [p] => p
  | p :: rest => p +:+ " " +:+ join rest
  end.

(** The candidate's side of a session, joined by spaces. *)
Definition candidateTranscripts (rows : list HistoryRow) : string :=
  join (map row_text
          (List.filter (fun r => String.eqb (row_speaker r) "Candidate") rows)).

Definition promptFor (speech : string) : string :=
  "Analyze the following IELTS candidate's speech. Provide one sentence of feedback that includes two relevant, advanced vocabulary words the candidate could use to improve their answer. Enclose the vocabulary words in double asterisks for emphasis (e.g., **word**). The feedback must be a single, concise sentence directly related to their speech. Here is the transcript: " +:+ String (ascii_of_nat 34) speech +:+ String (ascii_of_nat 34) EmptyString.

(** [Math.pow(2, attempt - 1) * 1000]. *)
Definition backoff (attempt : nat) : Z := 2 ^ Z.of_nat (attempt - 1) * 1000.

(** The retry loop, from [attempt] on with [remaining] rounds to go:
<<
    for (let attempt = 1; attempt <= maxRetries; attempt++) {
      try { feedbackText = (await generateContent(...)).text; break; }
      catch (e) {
        if (attempt === maxRetries) { console.error(...) }
        else { await sleep(Math.pow(2, attempt - 1) * 1000) }
      }
    }
>> *)
Fixpoint attempts (gen : nat -> option string) (session prompt : string)
    (attempt remaining : nat) : string * list Effect :=
  match remaining with
  | O => ("", [])
  | S r =>
      match gen attempt with
      | Some txt => (txt, [Generate session prompt])
      | None =>
          if (attempt =? maxRetries)%nat
          then
            let '(txt, es) := attempts gen session prompt (S attempt) r in
            (txt, Generate session prompt :: Log "attempt failed"
                  :: Log "All attempts failed" :: es)
          else
            let '(txt, es) := attempts gen session prompt (S attempt) r in
            (txt, Generate session prompt :: Log "attempt failed"
                  :: Sleep (backoff attempt) :: es)
      end
  end.

Definition generateFeedback (o : Oracle) (session speech : string)
  : string * list Effect :=
  attempts (generate o session) session (promptFor speech) 1 maxRetries.

(** The body of the loop over the sessions to process. *)
Definition processSession (o : Oracle) (p : Panel) (session : string)
  : Panel * list Effect :=
  match Obj.get session (chatHistory p) with
  | None | Some [] => (p, [])
  | Some rows =>
      let speech := candidateTranscripts rows in
      if blank speech then (p, [Log "No candidate speech to analyze"])
      else
        let '(txt, es) := generateFeedback o session speech in
        if negb (Live.truthy txt) then (p, es)
        else
          match insert o session with
          | InsertOk =>
              ({| chatHistory := chatHistory p;
                  sessionFeedback := Obj.put session txt (sessionFeedback p) |},
               es ++ [Insert session txt; Log "saved"])
          | _ => (p, es ++ [Insert session txt; Log "Error saving feedback"])
          end
  end.

Fixpoint processSessions (o : Oracle) (p : Panel) (sessions : list string)
  : Panel * list Effect :=
  match sessions with
  | [] => (p, [])
  | session :: rest =>
      let '(p1, es1) := processSession o p session in
      let '(p2, es2) := processSessions o p1 rest in
      (p2, es1 ++ es2)
  end.

(** The sessions that have a history and no feedback. *)
Definition sessionsToProcess (p : Panel) : list string :=
  List.filter (fun id => negb (existsb (String.eqb id) (Obj.keys (sessionFeedback p))))
    (Obj.keys (chatHistory p)).

(** [processMissingFeedback], given what [fetchHistory] gets back. *)
Definition processMissingFeedback (client signedIn : bool)
    (history : Reply (list HistoryRow)) (feedbacks : Reply (list FeedbackRow))
    (o : Oracle) (p : Panel) : Panel * list Effect :=
  if negb client || negb signedIn then (p, [])
  else
    let p1 := fetchHistory signedIn history feedbacks p in
    match sessionsToProcess p1 with
    | [] => (p1, [Log "No sessions are missing feedback."])
    | sessions =>
        let '(p2, es) := processSessions o p1 sessions in
        (p2, Log "Found sessions to process for feedback." :: es)
    end.

(** Nothing is said by the candidate in the session [sid]. *)
Definition silent (sid : string) (p : Panel) : Prop :=
  forall rows, Obj.get sid (chatHistory p) = Some rows ->
               blank (candidateTranscripts rows) = true.

(** The effects that concern one session. *)
Definition about (session : string) (e : Effect) : bool :=
  match e with
  | Generate s _ | Insert s _ => String.eqb s session
  | _ => false
  end.

Definition isGenerate (e : Effect) : bool :=
  match e with Generate _ _ => true | _ => false end.

Fixpoint slept (es : list Effect) : Z :=
  match es with
  | [] => 0
  | Sleep ms :: rest => ms + slept rest
  | _ :: rest => slept rest
  end.

End Feedback.

(* ================================================================== *)
(** * The audio visualizer ([GdmAudioVisualizer.draw])                 *)
(* ================================================================== *)

Module Visualizer.






(** Modelled from the spec: the analyser ([./analyser]) is not among the
    sources; its snapshot is a sequence of unsigned bytes (0 to 255). *)
Definition bytes (data : list Z) : Prop := Forall (fun b => 0 <= b <= 255) data.

End Visualizer.

(* ================================================================== *)
(** * Properties                                                       *)
(* ================================================================== *)

Import Host.

(* ================================================================== *)
(** * The PCM codec                                                  *)
(* ================================================================== *)

Section CodecFacts.
Import Codec.

Lemma sextet_cases (P : Z -> Prop) :
  (forall k, (k < 64)%nat -> P (Z.of_nat k)) -> forall n, sextet n -> P n.
Proof.
  intros H n [Hlo Hhi]. rewrite <- (Z2Nat.id n) by lia. apply H. lia.
Qed.

Lemma alphabet_inverse_upto :
  forallb (fun k => match b64val (b64char (Z.of_nat k)) with
                    | Some m => (m =? Z.of_nat k) && negb (Ascii.eqb (b64char (Z.of_nat k)) pad)
                    | None => false
                    end) (seq 0 64) = true.
Proof. vm_compute. reflexivity. Qed.

Lemma b64_inverse n :
  sextet n -> b64val (b64char n) = Some n /\ Ascii.eqb (b64char n) pad = false.
Proof.
  revert n. apply sextet_cases. intros k Hk.
  pose proof alphabet_inverse_upto as H.
  rewrite forallb_forall in H. specialize (H k).
  assert (Hin : In k (seq 0 64)) by (apply in_seq; lia).
  specialize (H Hin).
  destruct (b64val (b64char (Z.of_nat k))) as [m|]; [|discriminate].
  apply andb_prop in H as [H1 H2].
  apply Z.eqb_eq in H1. subst m. split; [reflexivity|].
  now apply negb_true_iff in H2.
Qed.

Lemma b64val_b64char n : sextet n -> b64val (b64char n) = Some n.
Proof. intros H. apply (b64_inverse n H). Qed.

Lemma b64char_not_pad n : sextet n -> Ascii.eqb (b64char n) pad = false.
Proof. intros H. apply (b64_inverse n H). Qed.

(** The four six-bit groups of three octets. *)
Lemma sextet_1 a : octet a -> sextet (a / 4).
Proof. unfold octet, sextet. intros. Z.div_mod_to_equations. lia. Qed.
Lemma sextet_2 a b : octet a -> octet b -> sextet ((a mod 4) * 16 + b / 16).
Proof. unfold octet, sextet. intros. Z.div_mod_to_equations. lia. Qed.
Lemma sextet_2' a : octet a -> sextet ((a mod 4) * 16).
Proof. unfold octet, sextet. intros. Z.div_mod_to_equations. lia. Qed.
Lemma sextet_3 b c : octet b -> octet c -> sextet ((b mod 16) * 4 + c / 64).
Proof. unfold octet, sextet. intros. Z.div_mod_to_equations. lia. Qed.
Lemma sextet_3' b : octet b -> sextet ((b mod 16) * 4).
Proof. unfold octet, sextet. intros. Z.div_mod_to_equations. lia. Qed.
Lemma sextet_4 c : octet c -> sextet (c mod 64).
Proof. unfold octet, sextet. intros. Z.div_mod_to_equations. lia. Qed.

Lemma byte1_spec a b : octet a -> octet b ->
  byte1 (a / 4) ((a mod 4) * 16 + b / 16) = a.
Proof. unfold octet, byte1. intros. Z.div_mod_to_equations. lia. Qed.
Lemma byte1_spec' a : octet a -> byte1 (a / 4) ((a mod 4) * 16) = a.
Proof. unfold octet, byte1. intros. Z.div_mod_to_equations. lia. Qed.
Lemma byte2_spec a b c : octet a -> octet b -> octet c ->
  byte2 ((a mod 4) * 16 + b / 16) ((b mod 16) * 4 + c / 64) = b.
Proof. unfold octet, byte2. intros. Z.div_mod_to_equations. lia. Qed.
Lemma byte2_spec' a b : octet a -> octet b ->
  byte2 ((a mod 4) * 16 + b / 16) ((b mod 16) * 4) = b.
Proof. unfold octet, byte2. intros. Z.div_mod_to_equations. lia. Qed.
Lemma byte3_spec b c : octet b -> octet c ->
  byte3 ((b mod 16) * 4 + c / 64) (c mod 64) = c.
Proof. unfold octet, byte3. intros. Z.div_mod_to_equations. lia. Qed.

Lemma list_ind3 {A} (P : list A -> Prop) :
  P [] -> (forall a, P [a]) -> (forall a b, P [a; b]) ->
  (forall a b c rest, P rest -> P (a :: b :: c :: rest)) ->
  forall l, P l.
Proof.
  intros H0 H1 H2 H3.
  fix IH 1. intros [|a [|b [|c rest]]].
  - exact H0.
  - apply H1.
  - apply H2.
  - apply H3. apply IH.
Qed.

Lemma decode_encode bs : Forall octet bs -> decode (encode bs) = Some bs.
Proof.
  induction bs as [|a|a b|a b c rest IH] using list_ind3; intros Hb.
  - reflexivity.
  - inversion_clear Hb as [|? ? Ha _].
    cbn [encode decode]. unfold decode_last.
    rewrite (b64val_b64char _ (sextet_1 a Ha)), (b64val_b64char _ (sextet_2' a Ha)).
    cbn. rewrite (byte1_spec' a Ha). reflexivity.
  - inversion_clear Hb as [|? ? Ha Hb']. inversion_clear Hb' as [|? ? Hb _].
    cbn [encode decode]. unfold decode_last.
    rewrite (b64val_b64char _ (sextet_1 a Ha)), (b64val_b64char _ (sextet_2 a b Ha Hb)).
    cbn [mbind option_bind].
    rewrite (b64char_not_pad _ (sextet_3' b Hb)), (b64val_b64char _ (sextet_3' b Hb)).
    cbn. rewrite (byte1_spec a b Ha Hb), (byte2_spec' a b Ha Hb). reflexivity.
  - inversion_clear Hb as [|? ? Ha Hb']. inversion_clear Hb' as [|? ? Hb Hc'].
    inversion_clear Hc' as [|? ? Hc Hrest].
    specialize (IH Hrest).
    cbn [encode decode].
    destruct (encode rest) as [|r1 rs] eqn:Henc.
    + assert (rest = []) as ->.
      { destruct rest as [|x [|y [|z r]]]; [reflexivity|discriminate..]. }
      unfold decode_last.
      rewrite (b64val_b64char _ (sextet_1 a Ha)), (b64val_b64char _ (sextet_2 a b Ha Hb)).
      cbn [mbind option_bind].
      rewrite (b64char_not_pad _ (sextet_3 b c Hb Hc)), (b64val_b64char _ (sextet_3 b c Hb Hc)).
      cbn [mbind option_bind].
      rewrite (b64char_not_pad _ (sextet_4 c Hc)), (b64val_b64char _ (sextet_4 c Hc)).
      cbn. rewrite (byte1_spec a b Ha Hb), (byte2_spec a b c Ha Hb Hc), (byte3_spec b c Hb Hc).
      reflexivity.
    + rewrite (b64val_b64char _ (sextet_1 a Ha)), (b64val_b64char _ (sextet_2 a b Ha Hb)),
        (b64val_b64char _ (sextet_3 b c Hb Hc)), (b64val_b64char _ (sextet_4 c Hc)).
      cbn [mbind option_bind]. 
      change (match decode (String r1 rs) with Some tl => Some (byte1 (a / 4) (a mod 4 * 16 + b / 16) :: byte2 (a mod 4 * 16 + b / 16) (b mod 16 * 4 + c / 64) :: byte3 (b mod 16 * 4 + c / 64) (c mod 64) :: tl) | None => None end = Some (a :: b :: c :: rest)).
      rewrite IH.
      rewrite (byte1_spec a b Ha Hb), (byte2_spec a b c Ha Hb Hc), (byte3_spec b c Hb Hc).
      reflexivity.
Qed.

(** 16-bit PCM *)

Lemma clamp16_range n : int16 (clamp16 n).
Proof. unfold int16, clamp16. lia. Qed.

Lemma toInt16_range x : int16 (toInt16 x).
Proof. apply clamp16_range. Qed.

Lemma packLE_octets n : Forall octet (packLE n).
Proof.
  unfold packLE, octet. repeat constructor; Z.div_mod_to_equations; lia.
Qed.

Lemma readLE_packLE n : int16 n ->
  readLE ((n mod 65536) mod 256) ((n mod 65536) / 256) = n.
Proof.
  unfold int16, readLE. intros Hn.
  replace ((n mod 65536) mod 256 + 256 * ((n mod 65536) / 256)) with (n mod 65536)
    by (Z.div_mod_to_equations; lia).
  destruct (Z.leb_spec 32768 (n mod 65536)); Z.div_mod_to_equations; lia.
Qed.

Lemma pcmBytes_octets samples : Forall octet (pcmBytes samples).
Proof.
  induction samples as [|x xs IH]; [constructor|].
  cbn [pcmBytes flat_map]. apply Forall_app. split; [apply packLE_octets|exact IH].
Qed.

Lemma pcmBytes_length samples :
  List.length (pcmBytes samples) = (2 * List.length samples)%nat.
Proof.
  induction samples as [|x xs IH]; [reflexivity|].
  cbn [pcmBytes flat_map]. rewrite length_app. fold (pcmBytes xs). rewrite IH.
  cbn. lia.
Qed.

Lemma readSamples_pcmBytes samples :
  readSamples (pcmBytes samples) = map (fun x => (toInt16 x # 32768)%Q) samples.
Proof.
  induction samples as [|x xs IH]; [reflexivity|].
  cbn [pcmBytes flat_map packLE app readSamples map]. fold (pcmBytes xs).
  rewrite IH, (readLE_packLE _ (toInt16_range x)). reflexivity.
Qed.

Lemma stride_one {A} (l : list A) : stride 1 0 l = l.
Proof. induction l as [|x t IH]; [reflexivity|]. cbn. now rewrite IH. Qed.

Lemma deinterleave_mono {A} (l : list A) : deinterleave 1 l = [l].
Proof. unfold deinterleave. cbn. now rewrite stride_one. Qed.

(** The quantisation error of one sample. *)
Lemma toInt16_error x :
  (-1 <= x <= 1)%Q -> (Qabs ((toInt16 x # 32768) - x) <= 1 # 32768)%Q.
Proof.
  destruct x as [n d]. intros [Hlo Hhi].
  assert (Hn : - Z.pos d <= n <= Z.pos d).
  { unfold Qle in Hlo, Hhi. cbn [Qnum Qden inject_Z] in Hlo, Hhi. lia. }
  clear Hlo Hhi.
  apply Qabs_Qle_condition.
  unfold toInt16, truncate, clamp16. cbn [Qmult Qnum Qden inject_Z].
  rewrite Pos.mul_1_r.
  pose proof (Z.quot_rem' (n * 32768) (Z.pos d)) as Hqr.
  assert (Hr : - Z.pos d < Z.rem (n * 32768) (Z.pos d) < Z.pos d).
  { destruct (Z.le_gt_cases 0 n) as [Hsign|Hsign].
    - pose proof (Z.rem_bound_pos (n * 32768) (Z.pos d)). lia.
    - pose proof (Z.rem_bound_pos (- (n * 32768)) (Z.pos d)) as Hb.
      rewrite Z.rem_opp_l in Hb by lia. lia. }
  set (q := Z.quot (n * 32768) (Z.pos d)) in *.
  set (r := Z.rem (n * 32768) (Z.pos d)) in *.
  assert (Hd : 0 < Z.pos d) by lia.
  set (D := Z.pos d) in *.
  assert (Hq : -32768 <= q <= 32768).
  { split.
    - apply Z.lt_pred_le, (Z.mul_lt_mono_pos_l D); lia.
    - apply Z.lt_succ_r, (Z.mul_lt_mono_pos_l D); lia. }
  unfold Qle, Qminus, Qplus, Qopp. cbn [Qnum Qden].
  fold D.
  rewrite !Pos2Z.inj_mul. fold D.
  assert (Hclamp : Z.max (-32768) (Z.min 32767 q) = q /\ q <= 32767
                   \/ Z.max (-32768) (Z.min 32767 q) = 32767 /\ q = 32768) by lia.
  destruct Hclamp as [[-> Hle]|[-> ->]]; split; nia.
Qed.

End CodecFacts.

(** C4. PCM round trip.  For every finite sequence of samples in [-1, 1],
    encoding the frame ([createBlob]: times 32768, 16-bit signed
    little-endian, base64) and decoding the payload the way the message
    handler does ([decode], then [decodeAudioData] at 24 kHz, one channel)
    succeeds and gives one channel with as many samples, each within
    1/32768 of the original. *)
Theorem pcm_round_trip (samples : list Q) :
  Forall (fun x => (-1 <= x <= 1)%Q) samples ->
  exists out,
    Live.decodeInline (Codec.data (Codec.createBlob samples))
      = Some {| Codec.sampleRate := 24000; Codec.channels := [out] |}
    /\ Forall2 (fun x y => (Qabs (y - x) <= 1 # 32768)%Q) samples out.
Proof.
  intros Hrange.
  exists (map (fun x => (Codec.toInt16 x # 32768)%Q) samples). split.
  - unfold Live.decodeInline, Codec.createBlob. cbn [Codec.data].
    rewrite (decode_encode _ (pcmBytes_octets samples)). cbn [mbind option_bind].
    unfold Codec.decodeAudioData. cbn [Nat.eqb].
    rewrite pcmBytes_length.
    change (2 * 1)%nat with 2%nat.
    rewrite (Nat.mul_comm 2 (List.length samples)), Nat.Div0.mod_mul.
    cbn [Nat.eqb]. rewrite readSamples_pcmBytes, deinterleave_mono. reflexivity.
  - induction Hrange as [|x xs Hx _ IH]; cbn [map]; constructor.
    + apply toInt16_error, Hx.
    + exact IH.
Qed.

Lemma pcm_round_trip_example :
  exists out,
    Live.decodeInline (Codec.data (Codec.createBlob [1; -1; 1 # 3; - (2 # 7); 0]%Q))
      = Some {| Codec.sampleRate := 24000; Codec.channels := [out] |}
    /\ Forall2 (fun x y => (Qabs (y - x) <= 1 # 32768)%Q) [1; -1; 1 # 3; - (2 # 7); 0]%Q out.
Proof.
  apply pcm_round_trip.
  repeat constructor; unfold Qle; cbn; lia.
Defined.

(* ================================================================== *)
(** * Transcript reconciliation                                      *)
(* ================================================================== *)

Section Reconciler.
Import Live.

Lemma append_assoc (a b c : string) : (a +:+ b) +:+ c = a +:+ (b +:+ c).
Proof.
  induction a as [|x a IH]; [reflexivity|].
  change (String x ((a +:+ b) +:+ c) = String x (a +:+ b +:+ c)). now rewrite IH.
Qed.

Lemma snoc_cases {A} (l : list A) : l = [] \/ exists l0 x, l = l0 ++ [x].
Proof.
  destruct l as [|a l] using rev_ind; [now left|right; eauto].
Qed.

Lemma reconcile_fragment who txt ts :
  reconcile who (Some {| t_text := Some txt; status := None |}) ts
  = if truthy txt then appendText who txt ts else ts.
Proof.
  unfold reconcile, fragmentText. cbn. destruct (truthy txt); reflexivity.
Qed.

Lemma onmessage_fragment clock who txt st :
  onmessage clock (fragmentMessage who txt) st
  = (with_transcripts (absorb (who, txt) (transcripts st)) st, []).
Proof.
  unfold onmessage, fragmentMessage, absorb.
  destruct who; cbn [serverContent inlineData inputTranscription
                      outputTranscription interrupted fst snd];
    rewrite reconcile_fragment; reflexivity.
Qed.

Lemma handleAll_fragments frags st :
  transcripts
    (fst (handleAll (map (fun f => (0%Q, fragmentMessage (fst f) (snd f))) frags) st))
  = fold_left (fun ts f => absorb f ts) frags (transcripts st).
Proof.
  revert st. induction frags as [|[who txt] rest IH]; intros st; [reflexivity|].
  cbn [map handleAll fst snd fold_left].
  rewrite onmessage_fragment.
  specialize (IH (with_transcripts (absorb (who, txt) (transcripts st)) st)).
  destruct (handleAll _ _) as [st2 evs2]. cbn [fst] in *. exact IH.
Qed.

Lemma mergeRuns_cons f rest : mergeRuns (f :: rest) = lead f (mergeRuns rest).
Proof. destruct f as [who txt]. reflexivity. Qed.

Lemma join_nil_r ts : join ts [] = ts.
Proof. unfold join. destruct (last ts); apply app_nil_r. Qed.

Lemma join_snoc ts0 l m ms :
  join (ts0 ++ [l]) (m :: ms)
  = if String.eqb (speaker l) (speaker m)
    then ts0 ++ {| speaker := speaker l; text := text l +:+ text m |} :: ms
    else (ts0 ++ [l]) ++ m :: ms.
Proof. unfold join. now rewrite last_snoc, removelast_last. Qed.

Lemma join_nil_l ms : join [] ms = ms.
Proof. reflexivity. Qed.

Lemma appendText_nil who txt :
  appendText who txt [] = [{| speaker := who; text := txt |}].
Proof. reflexivity. Qed.

Lemma appendText_snoc who txt ts0 l :
  appendText who txt (ts0 ++ [l])
  = if String.eqb (speaker l) who
    then ts0 ++ [{| speaker := speaker l; text := text l +:+ txt |}]
    else (ts0 ++ [l]) ++ [{| speaker := who; text := txt |}].
Proof. unfold appendText. now rewrite last_snoc, removelast_last. Qed.

Lemma join_appendText who txt ts ms :
  join (appendText (label who) txt ts) ms = join ts (lead (who, txt) ms).
Proof.
  unfold lead. cbn [fst snd].
  destruct (snoc_cases ts) as [->|(ts0 & l & ->)].
  - rewrite appendText_nil, join_nil_l.
    destruct ms as [|m ms']; [reflexivity|].
    apply (join_snoc [] {| speaker := label who; text := txt |} m ms').
  - rewrite appendText_snoc.
    destruct (String.eqb_spec (speaker l) (label who)) as [Heq|Hne].
    + destruct ms as [|m ms'].
      * rewrite join_nil_r, join_snoc. cbn [speaker text].
        rewrite Heq, String.eqb_refl. reflexivity.
      * rewrite join_snoc. cbn [speaker text]. rewrite Heq.
        destruct (String.eqb_spec (label who) (speaker m)) as [Hm|Hm];
          rewrite join_snoc; cbn [speaker text]; rewrite Heq, String.eqb_refl.
        -- now rewrite append_assoc.
        -- now rewrite <- app_assoc.
    + destruct ms as [|m ms'].
      * rewrite join_nil_r, join_snoc. cbn [speaker text].
        destruct (String.eqb_spec (speaker l) (label who)); [contradiction|].
        reflexivity.
      * rewrite (join_snoc (ts0 ++ [l])). cbn [speaker text].
        destruct (String.eqb_spec (label who) (speaker m)) as [Hm|Hm];
          rewrite join_snoc; cbn [speaker text];
          destruct (String.eqb_spec (speaker l) (label who)); try contradiction;
          now rewrite <- app_assoc.
Qed.

Lemma absorb_all frags ts :
  fold_left (fun ts f => absorb f ts) frags ts
  = join ts (mergeRuns (List.filter spoken frags)).
Proof.
  revert ts. induction frags as [|[who txt] rest IH]; intros ts.
  - cbn. now rewrite join_nil_r.
  - cbn [fold_left List.filter]. rewrite IH. unfold absorb, spoken. cbn [fst snd].
    destruct (truthy txt); [|reflexivity].
    rewrite mergeRuns_cons. apply join_appendText.
Qed.

Lemma feed_mergeRuns frags : feed frags = mergeRuns (List.filter spoken frags).
Proof.
  unfold feed. rewrite handleAll_fragments, absorb_all. reflexivity.
Qed.

Lemma truthy_nonempty txt : txt <> "" -> truthy txt = true.
Proof.
  intros H. unfold truthy. destruct (String.eqb_spec txt ""); [contradiction|reflexivity].
Qed.

Lemma filter_spoken_all frags :
  Forall (fun f : Speaker * string => snd f <> "") frags ->
  List.filter spoken frags = frags.
Proof.
  induction 1 as [|f rest Hf _ IH]; [reflexivity|].
  cbn [List.filter]. unfold spoken at 1. now rewrite (truthy_nonempty _ Hf), IH.
Qed.

Lemma fragmentText_fragment txt st :
  txt <> "" -> fragmentText (fragment txt st) = Some txt.
Proof. intros H. unfold fragmentText, fragment. cbn. now rewrite truthy_nonempty. Qed.

(** One fragment, variants without finality. *)
Lemma reconcile_step who txt st ts :
  txt <> "" ->
  (forall l, last ts = Some l -> speaker l = who ->
     reconcile who (fragment txt st) ts
     = removelast ts ++ [{| speaker := speaker l; text := text l +:+ txt |}])
  /\ ((forall l, last ts = Some l -> speaker l <> who) ->
     reconcile who (fragment txt st) ts = ts ++ [{| speaker := who; text := txt |}])
  /\ (List.length (reconcile who (fragment txt st) ts) = S (List.length ts)
       <-> forall l, last ts = Some l -> speaker l <> who).
Proof.
  intros Htxt. unfold reconcile. rewrite (fragmentText_fragment _ _ Htxt).
  destruct (snoc_cases ts) as [->|(ts0 & l & ->)].
  - rewrite appendText_nil. cbn. repeat split; intros; try discriminate; reflexivity.
  - rewrite appendText_snoc, last_snoc, removelast_last.
    destruct (String.eqb_spec (speaker l) who) as [Heq|Hne].
    + split; [|split].
      * intros l' [= <-] _. reflexivity.
      * intros H. exfalso. apply (H l); [reflexivity|exact Heq].
      * rewrite !length_app. cbn [List.length]. split.
        -- intros Hlen. lia.
        -- intros H. exfalso. apply (H l); [reflexivity|exact Heq].
    + split; [|split].
      * intros l' [= <-] Heq. contradiction.
      * reflexivity.
      * rewrite !length_app. cbn [List.length]. split; [|lia].
        intros _ l' [= <-]. exact Hne.
Qed.

(** One fragment, variants with finality. *)
Lemma reconcileFinal_step who txt st fs :
  txt <> "" ->
  (forall l, last fs = Some l -> fspeaker l = who -> isFinal l = false ->
     reconcileFinal who (fragment txt st) fs
     = removelast fs ++ [{| fspeaker := fspeaker l; ftext := ftext l +:+ txt;
                            isFinal := isFinalStatus (fragment txt st) |}])
  /\ ((forall l, last fs = Some l -> fspeaker l <> who \/ isFinal l = true) ->
     reconcileFinal who (fragment txt st) fs
     = fs ++ [{| fspeaker := who; ftext := txt;
                 isFinal := isFinalStatus (fragment txt st) |}])
  /\ (List.length (reconcileFinal who (fragment txt st) fs) = S (List.length fs)
       <-> forall l, last fs = Some l -> fspeaker l <> who \/ isFinal l = true).
Proof.
  intros Htxt. unfold reconcileFinal. rewrite (fragmentText_fragment _ _ Htxt).
  destruct (snoc_cases fs) as [->|(fs0 & l & ->)].
  - cbn. repeat split; intros; try discriminate; reflexivity.
  - rewrite last_snoc, removelast_last.
    destruct (String.eqb_spec (fspeaker l) who) as [Heq|Hne];
      destruct (isFinal l) eqn:Hfin; cbn [andb negb].
    + split; [|split].
      * intros l' [= <-] _ H. congruence.
      * reflexivity.
      * rewrite !length_app. cbn [List.length]. split; [|lia].
        intros _ l' [= <-]. now right.
    + split; [|split].
      * intros l' [= <-] _ _. reflexivity.
      * intros H. exfalso. destruct (H l eq_refl); congruence.
      * rewrite !length_app. cbn [List.length]. split; [lia|].
        intros H. exfalso. destruct (H l eq_refl); congruence.
    + split; [|split].
      * intros l' [= <-] H. contradiction.
      * reflexivity.
      * rewrite !length_app. cbn [List.length]. split; [|lia].
        intros _ l' [= <-]. now left.
    + split; [|split].
      * intros l' [= <-] H. contradiction.
      * reflexivity.
      * rewrite !length_app. cbn [List.length]. split; [|lia].
        intros _ l' [= <-]. now left.
Qed.

(** The two finality variants build the same lines. *)
Lemma reconcileSaving_lines who t fs :
  fst (reconcileSaving who t fs) = reconcileFinal who t fs.
Proof.
  unfold reconcileSaving, reconcileFinal.
  destruct (fragmentText t) as [txt|]; [|reflexivity].
  destruct (last fs) as [l|]; [|reflexivity].
  destruct (String.eqb (fspeaker l) who); [|reflexivity].
  destruct (isFinal l); cbn [andb negb fst]; [reflexivity|].
  destruct (isFinalStatus t); reflexivity.
Qed.

End Reconciler.

Example feed_example :
  Live.feed [(Live.Candidate, "Hel"); (Live.Candidate, "lo"); (Live.Examiner, "Hi")]
  = [ {| Live.speaker := "Candidate"; Live.text := "Hello" |};
      {| Live.speaker := "Examiner"; Live.text := "Hi" |} ].
Proof. reflexivity. Qed.

(** C1 (as amended).  Fragments without text are ignored.  The transcript
    built by the message handler from a run of fragments is the list of
    runs of consecutive equal speakers of the fragments that carry text,
    each run concatenated into one line; when every fragment carries text
    this is the list of runs of the fragments themselves.  One fragment with
    text is appended to the last line when that line has the fragment's
    speaker, and starts a new line exactly when there is no last line or its
    speaker differs; in the variants that track finality, exactly when there
    is no last line, its speaker differs, or it is final (the two such
    variants build the same lines). *)
Theorem transcript_reconciliation
    (frags : list (Live.Speaker * string)) (who : Live.Speaker)
    (txt : string) (st : option string)
    (ts : list Live.TranscriptLine) (fs : list Live.FinalLine) :
  txt <> "" ->
  Live.feed frags = Live.mergeRuns (List.filter (fun f => Live.truthy (snd f)) frags)
  /\ (Forall (fun f => snd f <> "") frags -> Live.feed frags = Live.mergeRuns frags)
  /\ (let next := Live.reconcile (Live.label who)
                    (Some {| Live.t_text := Some txt; Live.status := st |}) ts in
      (forall l, last ts = Some l -> Live.speaker l = Live.label who ->
         next = removelast ts ++
                  [{| Live.speaker := Live.speaker l;
                      Live.text := Live.text l +:+ txt |}])
      /\ ((forall l, last ts = Some l -> Live.speaker l <> Live.label who) ->
          next = ts ++ [{| Live.speaker := Live.label who; Live.text := txt |}])
      /\ (List.length next = S (List.length ts)
          <-> forall l, last ts = Some l -> Live.speaker l <> Live.label who))
  /\ (let t := Some {| Live.t_text := Some txt; Live.status := st |} in
      let next := Live.reconcileFinal (Live.label who) t fs in
      fst (Live.reconcileSaving (Live.label who) t fs) = next
      /\ (forall l, last fs = Some l -> Live.fspeaker l = Live.label who ->
           Live.isFinal l = false ->
           next = removelast fs ++
                    [{| Live.fspeaker := Live.fspeaker l;
                        Live.ftext := Live.ftext l +:+ txt;
                        Live.isFinal := Live.isFinalStatus t |}])
      /\ (List.length next = S (List.length fs)
          <-> forall l, last fs = Some l ->
                Live.fspeaker l <> Live.label who \/ Live.isFinal l = true)).
Proof.
  intros Htxt. split; [apply feed_mergeRuns|]. split.
  { intros Hall. rewrite feed_mergeRuns. now rewrite (filter_spoken_all _ Hall). }
  split.
  - exact (reconcile_step (Live.label who) txt st ts Htxt).
  - cbv zeta. split; [apply reconcileSaving_lines|].
    destruct (reconcileFinal_step (Live.label who) txt st fs Htxt) as (H1 & _ & H3).
    split; assumption.
Qed.

Lemma transcript_reconciliation_witness :
  Live.feed [(Live.Candidate, "Hel"); (Live.Candidate, "lo"); (Live.Examiner, "Hi")]
  = Live.mergeRuns [(Live.Candidate, "Hel"); (Live.Candidate, "lo"); (Live.Examiner, "Hi")].
Proof.
  refine (proj1 (proj2 (transcript_reconciliation
            [(Live.Candidate, "Hel"); (Live.Candidate, "lo"); (Live.Examiner, "Hi")]
            Live.Examiner "Hi" None
            [{| Live.speaker := "Candidate"; Live.text := "Hello" |}] [] _)) _).
  - discriminate.
  - repeat constructor; discriminate.
Defined.

Lemma empty_fragment_starts_no_line :
  Live.feed [(Live.Candidate, "Hi"); (Live.Examiner, "")]
  = [{| Live.speaker := "Candidate"; Live.text := "Hi" |}]
  /\ Live.mergeRuns [(Live.Candidate, "Hi"); (Live.Examiner, "")]
     = [{| Live.speaker := "Candidate"; Live.text := "Hi" |};
        {| Live.speaker := "Examiner"; Live.text := "" |}]
  /\ Live.feed [(Live.Candidate, "Hi"); (Live.Examiner, "")]
     <> Live.mergeRuns [(Live.Candidate, "Hi"); (Live.Examiner, "")].
Proof. repeat split. discriminate. Qed.

(* ================================================================== *)
(** * Rounding to a double                                             *)
(* ================================================================== *)

Section DoubleFacts.
Import Double.
Local Open Scope Q_scope.

Lemma rne_cases x : rne x = Qfloor x \/ rne x = (Qfloor x + 1)%Z.
Proof.
  unfold rne. destruct (Qcompare _ _); [destruct (Z.even _)| |]; auto.
Qed.

Lemma rne_mono x y : x <= y -> (rne x <= rne y)%Z.
Proof.
  intros Hxy. pose proof (Qfloor_resp_le x y Hxy) as Hf.
  destruct (Z.eq_dec (Qfloor x) (Qfloor y)) as [Heq|Hne].
  - unfold rne. rewrite Heq.
    destruct (Qcompare_spec (x - inject_Z (Qfloor y)) (1 # 2)) as [Hx|Hx|Hx];
      destruct (Qcompare_spec (y - inject_Z (Qfloor y)) (1 # 2)) as [Hy|Hy|Hy];
      try destruct (Z.even (Qfloor y)); try lia; exfalso; lra.
  - destruct (rne_cases x) as [-> | ->], (rne_cases y) as [-> | ->]; lia.
Qed.

Lemma rne_Z k : rne (inject_Z k) = k.
Proof.
  unfold rne. rewrite Qfloor_Z.
  destruct (Qcompare_spec (inject_Z k - inject_Z k) (1 # 2)) as [H|H|H];
    [exfalso; lra|reflexivity|exfalso; lra].
Qed.

Lemma rne_ge k x : inject_Z k <= x -> (k <= rne x)%Z.
Proof. intros H. rewrite <- (rne_Z k). now apply rne_mono. Qed.

Lemma rne_le k x : x <= inject_Z k -> (rne x <= k)%Z.
Proof. intros H. rewrite <- (rne_Z k). now apply rne_mono. Qed.

Lemma pow2_pos e : 0 < pow2 e.
Proof. apply Qpower_0_lt. reflexivity. Qed.

Lemma pow2_plus a b : pow2 (a + b) == pow2 a * pow2 b.
Proof. apply Qpower_plus. discriminate. Qed.

Lemma pow2_le a b : (a <= b)%Z -> pow2 a <= pow2 b.
Proof. intros H. apply Qpower_le_compat_l; [exact H|discriminate]. Qed.

Lemma pow2_lt_inv a b : pow2 a < pow2 b -> (a < b)%Z.
Proof. intros H. eapply Qpower_lt_compat_l_inv; [exact H|reflexivity]. Qed.

Lemma pow2_Z a : (0 <= a)%Z -> pow2 a == inject_Z (2 ^ a).
Proof. intros H. unfold pow2. now rewrite Zpower_Qpower. Qed.

Lemma pow2_frac a b p :
  (0 <= a)%Z -> (0 <= b)%Z -> (2 ^ b)%Z = Z.pos p -> pow2 (a - b) == (2 ^ a)%Z # p.
Proof.
  intros Ha Hb Hp. unfold pow2. rewrite Qpower_minus by discriminate.
  fold (pow2 a) (pow2 b). rewrite !pow2_Z by lia. rewrite Hp.
  symmetry. apply Qmake_Qdiv.
Qed.

Lemma ilog2_spec x : 0 < x -> pow2 (ilog2 x) <= x /\ x < pow2 (ilog2 x + 1).
Proof.
  intros Hx. destruct x as [n d]. unfold ilog2. cbn [Qnum Qden].
  assert (Hn : (0 < n)%Z) by (unfold Qlt in Hx; cbn in Hx; lia).
  set (a := Z.log2 n). set (b := Z.log2 (Z.pos d)).
  destruct (Z.log2_spec n Hn) as [Ha1 Ha2]. fold a in Ha1, Ha2.
  destruct (Z.log2_spec (Z.pos d) eq_refl) as [Hb1 Hb2]. fold b in Hb1, Hb2.
  assert (Ha0 : (0 <= a)%Z) by apply Z.log2_nonneg.
  assert (Hb0 : (0 <= b)%Z) by apply Z.log2_nonneg.
  assert (Hup : n # d < pow2 (a - b + 1)).
  { replace (a - b + 1)%Z with ((a + 1) - b)%Z by lia.
    destruct (2 ^ b)%Z as [|p|p] eqn:Hp; try lia.
    rewrite (pow2_frac (a + 1) b p) by lia.
    unfold Qlt. cbn [Qnum Qden]. replace (a + 1)%Z with (Z.succ a) by lia. nia. }
  assert (Hlow : pow2 (a - b - 1) <= n # d).
  { replace (a - b - 1)%Z with (a - (b + 1))%Z by lia.
    replace (Z.succ b) with (b + 1)%Z in Hb2 by lia.
    destruct (2 ^ (b + 1))%Z as [|p|p] eqn:Hp; try lia.
    rewrite (pow2_frac a (b + 1) p) by lia.
    unfold Qle. cbn [Qnum Qden]. nia. }
  destruct (Qle_bool (pow2 (a - b)) (n # d)) eqn:Hle.
  - apply Qle_bool_iff in Hle. split; assumption.
  - split; [exact Hlow|].
    replace (a - b - 1 + 1)%Z with (a - b)%Z by lia.
    apply Qnot_le_lt. intros H. apply Qle_bool_iff in H. congruence.
Qed.

Lemma ilog2_mono x y : 0 < x -> x <= y -> (ilog2 x <= ilog2 y)%Z.
Proof.
  intros Hx Hxy. assert (Hy : 0 < y) by lra.
  destruct (ilog2_spec x Hx) as [Hx1 _]. destruct (ilog2_spec y Hy) as [_ Hy2].
  assert (H : pow2 (ilog2 x) < pow2 (ilog2 y + 1)) by lra.
  apply pow2_lt_inv in H. lia.
Qed.

Lemma expo_mono x y : 0 < x -> x <= y -> (expo x <= expo y)%Z.
Proof. intros Hx Hxy. unfold expo. pose proof (ilog2_mono x y Hx Hxy). lia. Qed.

Lemma scaled_le x y e : x <= y -> x / pow2 e <= y / pow2 e.
Proof.
  intros H. unfold Qdiv. apply Qmult_le_compat_r; [exact H|].
  apply Qlt_le_weak, Qinv_lt_0_compat, pow2_pos.
Qed.

Lemma roundPos_nonneg x : 0 < x -> 0 <= roundPos x.
Proof.
  intros Hx. unfold roundPos. apply Qmult_le_0_compat; [|apply Qlt_le_weak, pow2_pos].
  change 0 with (inject_Z 0). rewrite <- Zle_Qle. apply rne_ge.
  change (inject_Z 0) with 0. apply Qlt_le_weak, Qlt_shift_div_l; [apply pow2_pos|].
  now rewrite Qmult_0_l.
Qed.

(** A rounded value does not leave the binade of what is rounded. *)
Lemma roundPos_upper x : 0 < x -> roundPos x <= pow2 (expo x + 53).
Proof.
  intros Hx. unfold roundPos. rewrite (Z.add_comm (expo x)), pow2_plus.
  apply Qmult_le_compat_r; [|apply Qlt_le_weak, pow2_pos].
  rewrite (pow2_Z 53) by lia. rewrite <- Zle_Qle. apply rne_le.
  rewrite <- (pow2_Z 53) by lia.
  apply Qle_shift_div_r; [apply pow2_pos|]. rewrite <- pow2_plus.
  destruct (ilog2_spec x Hx) as [_ Hup].
  apply Qlt_le_weak, Qlt_le_trans with (pow2 (ilog2 x + 1)); [exact Hup|].
  apply pow2_le. unfold expo. lia.
Qed.

Lemma roundPos_lower x :
  0 < x -> (-1074 < expo x)%Z -> pow2 (expo x + 52) <= roundPos x.
Proof.
  intros Hx He. unfold roundPos. rewrite (Z.add_comm (expo x)), pow2_plus.
  apply Qmult_le_compat_r; [|apply Qlt_le_weak, pow2_pos].
  rewrite (pow2_Z 52) by lia. rewrite <- Zle_Qle. apply rne_ge.
  rewrite <- (pow2_Z 52) by lia.
  apply Qle_shift_div_l; [apply pow2_pos|]. rewrite <- pow2_plus.
  destruct (ilog2_spec x Hx) as [Hlow _].
  eapply Qle_trans; [|exact Hlow]. apply pow2_le. unfold expo in *. lia.
Qed.

Lemma roundPos_mono x y : 0 < x -> x <= y -> roundPos x <= roundPos y.
Proof.
  intros Hx Hxy. assert (Hy : 0 < y) by lra.
  pose proof (expo_mono x y Hx Hxy) as He.
  destruct (Z.eq_dec (expo x) (expo y)) as [Heq|Hne].
  - unfold roundPos. rewrite Heq.
    apply Qmult_le_compat_r; [|apply Qlt_le_weak, pow2_pos].
    rewrite <- Zle_Qle. apply rne_mono. now apply scaled_le.
  - assert (Hmin : (-1074 <= expo x)%Z) by (unfold expo; lia).
    eapply Qle_trans; [apply (roundPos_upper x Hx)|].
    eapply Qle_trans; [|apply (roundPos_lower y Hy); lia].
    apply pow2_le. lia.
Qed.

Lemma round_zero : round 0 = 0.
Proof. reflexivity. Qed.

Lemma round_nonneg x : 0 <= x -> 0 <= round x.
Proof.
  intros Hx. unfold round. destruct (Qcompare_spec x 0) as [H|H|H].
  - apply Qle_refl.
  - exfalso. lra.
  - now apply roundPos_nonneg.
Qed.

Lemma round_nonpos x : x <= 0 -> round x <= 0.
Proof.
  intros Hx. unfold round. destruct (Qcompare_spec x 0) as [H|H|H].
  - apply Qle_refl.
  - assert (H' : 0 < - x) by lra. pose proof (roundPos_nonneg _ H'). lra.
  - exfalso. lra.
Qed.

(** Rounding to the nearest double keeps the order. *)
Lemma round_mono x y : x <= y -> round x <= round y.
Proof.
  intros Hxy.
  destruct (Qlt_le_dec 0 x) as [Hx|Hx].
  - assert (Hy : 0 < y) by lra. unfold round.
    destruct (Qcompare_spec x 0) as [H|H|H]; try (exfalso; lra).
    destruct (Qcompare_spec y 0) as [H'|H'|H']; try (exfalso; lra).
    now apply roundPos_mono.
  - destruct (Qlt_le_dec y 0) as [Hy|Hy].
    + assert (Hx' : x < 0) by lra. unfold round.
      destruct (Qcompare_spec x 0) as [H|H|H]; try (exfalso; lra).
      destruct (Qcompare_spec y 0) as [H'|H'|H']; try (exfalso; lra).
      assert (Hm : roundPos (- y) <= roundPos (- x)) by (apply roundPos_mono; lra).
      lra.
    + pose proof (round_nonpos x Hx). pose proof (round_nonneg y Hy). lra.
Qed.

Lemma representable_spec x : representable x = true <-> round x == x.
Proof. apply Qeq_bool_iff. Qed.

(** A double sum is not below an operand when the other is not negative. *)
Lemma add_ge_l a b : 0 <= b -> a <= add a b.
Proof.
  intros Hb. unfold add.
  destruct (representable a) eqn:Ha; cbn [andb]; [|lra].
  destruct (representable b); [|lra].
  apply representable_spec in Ha. rewrite <- Ha at 1. apply round_mono. lra.
Qed.









End DoubleFacts.

(* ================================================================== *)
(** * Audio scheduling and interruption                              *)
(* ================================================================== *)

Section Scheduler.
Import Live.
Local Open Scope Q_scope.

Lemma max_time_ge_l a b : a <= max_time a b.
Proof.
  unfold max_time. destruct (Qle_bool a b) eqn:H.
  - now apply Qle_bool_iff.
  - apply Qle_refl.
Qed.



Lemma max_time_zero clock : 0 <= clock -> max_time 0 clock = clock.
Proof.
  intros H. unfold max_time. apply Qle_bool_iff in H. now rewrite H.
Qed.

Lemma scheduleBuffer_spec clock buf st :
  scheduleBuffer clock buf st
  = ({| nextStartTime := Double.add (max_time (nextStartTime st) clock)
                           (durationOf buf);
        sources := set_add (created st) (sources st);
        transcripts := transcripts st;
        created := S (created st) |},
     [Started (created st) (max_time (nextStartTime st) clock) (Codec.duration buf)]).
Proof. reflexivity. Qed.



Lemma durationOf_nonneg buf : 0 <= Codec.duration buf -> 0 <= durationOf buf.
Proof. apply round_nonneg. Qed.





(** An audio-only message whose payload decodes goes through the scheduler
    and leaves the transcript alone. *)
Lemma onmessage_audio clock payload buf st :
  decodeInline payload = Some buf ->
  onmessage clock (audioMessage payload) st = scheduleBuffer clock buf st.
Proof.
  intros Hdec. unfold onmessage, audioMessage.
  cbn [serverContent inlineData inputTranscription outputTranscription interrupted].
  rewrite Hdec. rewrite scheduleBuffer_spec. reflexivity.
Qed.

(** A buffer that comes out of the decoder has a playing time that is not
    negative. *)
Lemma decodeInline_duration payload buf :
  decodeInline payload = Some buf -> 0 <= Codec.duration buf.
Proof.
  unfold decodeInline. destruct (Codec.decode payload) as [bytes|]; [|discriminate].
  cbn [mbind option_bind]. unfold Codec.decodeAudioData. cbn [Nat.eqb].
  destruct (_ =? 0)%nat; [|discriminate]. intros [= <-].
  unfold Codec.duration. cbn [Codec.sampleRate].
  apply Qle_shift_div_l; [reflexivity|].
  rewrite Qmult_0_l. unfold Qle. cbn. lia.
Qed.

(** A payload that does not decode only moves the anchor. *)
Lemma onmessage_corrupt clock payload st :
  decodeInline payload = None ->
  onmessage clock (audioMessage payload) st = (anchor clock st, []).
Proof.
  intros Hdec. unfold onmessage, audioMessage.
  cbn [serverContent inlineData]. now rewrite Hdec.
Qed.

End Scheduler.




Section Interruption.
Import Live.

Lemma stopAll_spec pending live :
  stopAll pending live
  = (List.filter (fun y => negb (existsb (fun x => Nat.eqb x y) pending)) live,
     map Stopped pending).
Proof.
  revert live. induction pending as [|source rest IH]; intros live.
  - cbn [stopAll existsb negb map]. f_equal.
    induction live as [|y live IHl]; [reflexivity|]. cbn. now f_equal.
  - cbn [stopAll]. rewrite IH. cbn [map]. f_equal. unfold set_delete.
    induction live as [|y live IHl]; [reflexivity|].
    cbn [List.filter existsb].
    destruct (Nat.eqb source y) eqn:Hsy; cbn [negb orb]; [exact IHl|].
    cbn [List.filter]. destruct (negb _); now rewrite IHl.
Qed.

Lemma filter_none {A} (p : A -> bool) (l : list A) :
  (forall y, In y l -> p y = false) -> List.filter p l = [].
Proof.
  induction l as [|y l IH]; intros H; [reflexivity|].
  cbn [List.filter]. rewrite (H y (or_introl eq_refl)).
  apply IH. intros z Hz. apply H. now right.
Qed.

Lemma stopAll_self live :
  stopAll live live = ([], map Stopped live).
Proof.
  rewrite stopAll_spec. f_equal. apply filter_none.
  intros y Hy. apply negb_false_iff, existsb_exists.
  exists y. split; [exact Hy|apply Nat.eqb_refl].
Qed.

Lemma onInterrupted_spec st :
  onInterrupted st
  = ({| nextStartTime := 0%Q; sources := []; transcripts := transcripts st;
        created := created st |}, map Stopped (sources st)).
Proof. unfold onInterrupted. now rewrite stopAll_self. Qed.

Lemma with_transcripts_same st : with_transcripts (transcripts st) st = st.
Proof. now destruct st. Qed.

(** The interruption branch is taken whatever else the message carries,
    as long as the handler gets there. *)
Lemma onmessage_interrupted clock sc st :
  interrupted sc = true -> inlineData sc = None ->
  let st' := fst (onmessage clock {| serverContent := Some sc |} st) in
  snd (onmessage clock {| serverContent := Some sc |} st) = map Stopped (sources st)
  /\ sources st' = []
  /\ nextStartTime st' = 0%Q.
Proof.
  intros Hint Haudio. cbv zeta. unfold onmessage. cbn [serverContent].
  rewrite Haudio, Hint, onInterrupted_spec. cbn. auto.
Qed.

Lemma onmessage_interrupted_audio clock sc payload buf st :
  interrupted sc = true -> inlineData sc = Some payload ->
  decodeInline payload = Some buf ->
  let st' := fst (onmessage clock {| serverContent := Some sc |} st) in
  snd (onmessage clock {| serverContent := Some sc |} st)
  = Started (created st) (max_time (nextStartTime st) clock) (Codec.duration buf)
    :: map Stopped (set_add (created st) (sources st))
  /\ sources st' = []
  /\ nextStartTime st' = 0%Q.
Proof.
  intros Hint Haudio Hdec. cbv zeta. unfold onmessage. cbn [serverContent].
  rewrite Haudio, Hdec, Hint, scheduleBuffer_spec, onInterrupted_spec. cbn. auto.
Qed.

End Interruption.

(** C3. Interruption.  Whatever the active sources and [nextStartTime],
    a message with the interruption flag (and no audio payload) stops every
    source of the active set, in insertion order, leaves the set empty and
    puts [nextStartTime] to 0; the next buffer, arriving at a clock that is
    not negative, is started at [max (0, clock)], that is at that clock. *)
Theorem interruption_resets (st : Live.State) (now clock : Q)
    (buf : Codec.AudioBuffer) (sc : Live.ServerContent) :
  (0 <= clock)%Q ->
  Live.interrupted sc = true ->
  Live.inlineData sc = None ->
  let handled := Live.onmessage now {| Live.serverContent := Some sc |} st in
  let st' := fst handled in
  snd handled = map Live.Stopped (Live.sources st)
  /\ Live.sources st' = []
  /\ Live.nextStartTime st' = 0%Q
  /\ Live.created st' = Live.created st
  /\ Live.onmessage now Live.interruptionMessage st = Live.onInterrupted st
  /\ Live.max_time (Live.nextStartTime st') clock = clock
  /\ snd (Live.scheduleBuffer clock buf st')
     = [Live.Started (Live.created st) clock (Codec.duration buf)].
Proof.
  intros Hclock Hint Haudio. cbv zeta.
  destruct (onmessage_interrupted now sc st Hint Haudio) as (Hev & Hsrc & Hnext).
  assert (Hcreated :
    Live.created (fst (Live.onmessage now {| Live.serverContent := Some sc |} st))
    = Live.created st).
  { unfold Live.onmessage. cbn [Live.serverContent].
    rewrite Haudio, Hint, onInterrupted_spec. reflexivity. }
  repeat split; try assumption.
  - unfold Live.onmessage, Live.interruptionMessage.
    cbn [Live.serverContent Live.inlineData Live.inputTranscription
         Live.outputTranscription Live.interrupted].
    unfold Live.reconcile. cbn [Live.fragmentText mbind option_bind].
    rewrite with_transcripts_same. now destruct (Live.onInterrupted st).
  - rewrite Hnext. apply (max_time_zero _ Hclock).
  - rewrite scheduleBuffer_spec. cbn [snd]. rewrite Hnext, Hcreated.
    now rewrite (max_time_zero _ Hclock).
Qed.

Lemma interruption_resets_witness :
  let st := {| Live.nextStartTime := 30%Q; Live.sources := [4; 5; 7]%nat;
               Live.transcripts := []; Live.created := 8%nat |} in
  let sc := {| Live.inlineData := None; Live.inputTranscription := None;
               Live.outputTranscription := None; Live.interrupted := true |} in
  let handled := Live.onmessage (12 # 1)%Q {| Live.serverContent := Some sc |} st in
  let st' := fst handled in
  snd handled = map Live.Stopped (Live.sources st)
  /\ Live.sources st' = []
  /\ Live.nextStartTime st' = 0%Q
  /\ Live.created st' = Live.created st
  /\ Live.onmessage (12 # 1)%Q Live.interruptionMessage st = Live.onInterrupted st
  /\ Live.max_time (Live.nextStartTime st') (25 # 2)%Q = (25 # 2)%Q
  /\ snd (Live.scheduleBuffer (25 # 2)%Q (Live.silence 2400) st')
     = [Live.Started (Live.created st) (25 # 2)%Q
          (Codec.duration (Live.silence 2400))].
Proof.
  apply (interruption_resets
           {| Live.nextStartTime := 30%Q; Live.sources := [4; 5; 7]%nat;
              Live.transcripts := []; Live.created := 8%nat |}
           (12 # 1)%Q (25 # 2)%Q (Live.silence 2400)
           {| Live.inlineData := None; Live.inputTranscription := None;
              Live.outputTranscription := None; Live.interrupted := true |}).
  - unfold Qle. cbn. lia.
  - reflexivity.
  - reflexivity.
Defined.

(* ================================================================== *)
(** * Reasoning about steps                                           *)
(* ================================================================== *)

Section StepLogic.
Context {S : Type}.

Lemma exec_bind {A B} (m : Act S A) (k : A -> Act S B) s :
  exec (m ≫= k) s
  = (fst (exec (k (result m s)) (fst (exec m s))),
     snd (exec m s) ++ snd (exec (k (result m s)) (fst (exec m s)))).
Proof.
  unfold exec, result, mbind, act_bind. cbn [run].
  destruct (run m s) as [[x s1] e1]. cbn [fst snd].
  destruct (run (k x) s1) as [[y s2] e2]. reflexivity.
Qed.

Lemma exec_get s : exec (get (S:=S)) s = (s, []).
Proof. reflexivity. Qed.
Lemma result_get s : result (get (S:=S)) s = s.
Proof. reflexivity. Qed.
Lemma exec_modify f s : exec (modify (S:=S) f) s = (f s, []).
Proof. reflexivity. Qed.
Lemma exec_emit e s : exec (emit (S:=S) e) s = (s, [e]).
Proof. reflexivity. Qed.
Lemma exec_skip s : exec (skip (S:=S)) s = (s, []).
Proof. reflexivity. Qed.

Lemma keeps_bind {A B C} (f : S -> C) (m : Act S A) (k : A -> Act S B) :
  keeps f m -> (forall x, keeps f (k x)) -> keeps f (m ≫= k).
Proof. intros Hm Hk s. rewrite exec_bind. cbn [fst]. now rewrite Hk, Hm. Qed.

Lemma keeps_get {C} (f : S -> C) : keeps f get.
Proof. intros s. reflexivity. Qed.
Lemma keeps_emit {C} (f : S -> C) e : keeps f (emit e).
Proof. intros s. reflexivity. Qed.
Lemma keeps_skip {C} (f : S -> C) : keeps f skip.
Proof. intros s. reflexivity. Qed.
Lemma keeps_modify {C} (f : S -> C) g :
  (forall s, f (g s) = f s) -> keeps f (modify g).
Proof. intros H s. apply H. Qed.
Lemma keeps_when {C} (f : S -> C) b m : keeps f m -> keeps f (when b m).
Proof. intros H. destruct b; [exact H|apply keeps_skip]. Qed.

Lemma stable_keeps {A C} (f : S -> C) v (m : Act S A) :
  keeps f m -> stable (fun s => f s = v) m.
Proof. intros H s Hs. now rewrite H. Qed.

Lemma ensures_bind_r {A B} P (m : Act S A) (k : A -> Act S B) :
  (forall x, ensures P (k x)) -> ensures P (m ≫= k).
Proof. intros Hk s. rewrite exec_bind. apply Hk. Qed.

Lemma ensures_bind_l {A B} P (m : Act S A) (k : A -> Act S B) :
  ensures P m -> (forall x, stable P (k x)) -> ensures P (m ≫= k).
Proof. intros Hm Hk s. rewrite exec_bind. apply Hk, Hm. Qed.

Lemma stable_bind {A B} P (m : Act S A) (k : A -> Act S B) :
  stable P m -> (forall x, stable P (k x)) -> stable P (m ≫= k).
Proof. intros Hm Hk s Hs. rewrite exec_bind. apply Hk, Hm, Hs. Qed.

Lemma events_bind {A B} (m : Act S A) (k : A -> Act S B) s :
  snd (exec (m ≫= k) s)
  = snd (exec m s) ++ snd (exec (k (result m s)) (fst (exec m s))).
Proof. now rewrite exec_bind. Qed.

Lemma state_bind {A B} (m : Act S A) (k : A -> Act S B) s :
  fst (exec (m ≫= k) s) = fst (exec (k (result m s)) (fst (exec m s))).
Proof. now rewrite exec_bind. Qed.
Lemma events_then {A B} (m : Act S A) (k : Act S B) s :
  snd (exec (m ≫= λ _, k) s) = snd (exec m s) ++ snd (exec k (fst (exec m s))).
Proof. apply events_bind. Qed.

Lemma state_then {A B} (m : Act S A) (k : Act S B) s :
  fst (exec (m ≫= λ _, k) s) = fst (exec k (fst (exec m s))).
Proof. apply state_bind. Qed.

Lemma exec_then {A B} (m : Act S A) (k : Act S B) s s1 e1 :
  exec m s = (s1, e1) ->
  exec (m ≫= λ _, k) s = (fst (exec k s1), e1 ++ snd (exec k s1)).
Proof. intros H. rewrite exec_bind, H. reflexivity. Qed.

Lemma exec_pair {A} (m : Act S A) s : exec m s = (fst (exec m s), snd (exec m s)).
Proof. now destruct (exec m s). Qed.

End StepLogic.

Ltac keeps_step :=
  first
    [ apply keeps_get | apply keeps_emit | apply keeps_skip
    | apply keeps_modify; intros ?; reflexivity
    | apply keeps_when
    | apply keeps_bind; [|intros ?]
    | match goal with
      | |- keeps _ (match ?x with _ => _ end) => destruct x
      | |- keeps _ (if ?b then _ else _) => destruct b
      | |- keeps _ (let _ := _ in _) => cbv zeta
      end ].

Ltac keeps_auto := repeat keeps_step.

Section Events.
Context {S : Type}.

Lemma In_bind_l {A B} (m : Act S A) (k : A -> Act S B) e s :
  In e (snd (exec m s)) -> In e (snd (exec (m ≫= k) s)).
Proof. intros H. rewrite events_bind. apply in_or_app. now left. Qed.

Lemma In_bind_r {A B} (m : Act S A) (k : A -> Act S B) e s :
  In e (snd (exec (k (result m s)) (fst (exec m s)))) ->
  In e (snd (exec (m ≫= k) s)).
Proof. intros H. rewrite events_bind. apply in_or_app. now right. Qed.
End Events.

Section Chains.
Context {S : Type}.

Lemma exec_get_bind {B} (k : S -> Act S B) s :
  exec (get ≫= k) s = exec (k s) s.
Proof. rewrite exec_bind, exec_get, result_get. cbn. now destruct (exec (k s) s). Qed.

Lemma exec_modify_bind {B} f (k : unit -> Act S B) s :
  exec (modify f ≫= k) s = exec (k tt) (f s).
Proof.
  rewrite exec_bind, exec_modify. cbn [fst snd app].
  unfold result. cbn. now destruct (exec (k tt) (f s)).
Qed.

Lemma exec_emit_bind {B} e (k : unit -> Act S B) s :
  exec (emit e ≫= k) s = (fst (exec (k tt) s), e :: snd (exec (k tt) s)).
Proof. rewrite exec_bind, exec_emit. reflexivity. Qed.
End Chains.

(* ================================================================== *)
(** * Stopping and credit polling                                    *)
(* ================================================================== *)

Section Stopping.
Import App.

Lemma guard_never_returns (rec : bool) (ms : option nat) :
  negb rec && negb (isSome ms) && negb inputAudioContext = false.
Proof. unfold inputAudioContext. cbn. now rewrite andb_false_r. Qed.

Lemma stopRecording_release env s :
  exec (stopRecording env) s = exec (release env) s.
Proof.
  unfold stopRecording. rewrite exec_bind, exec_get, result_get.
  cbn [fst snd app]. rewrite guard_never_returns.
  now destruct (exec _ s).
Qed.

Lemma stopRecording_keeps {C} (f : State -> C) env :
  keeps f (release env) -> keeps f (stopRecording env).
Proof. intros H s. rewrite stopRecording_release. apply H. Qed.


Lemma stopRecording_keeps_modal env :
  keeps isOutOfCreditsModalOpen (stopRecording env).
Proof. apply stopRecording_keeps. unfold release. keeps_auto. Qed.

Lemma ensures_get_bind {S B} (P : S -> Prop) (k : S -> Act S B) :
  (forall s, P (fst (exec (k s) s))) -> ensures P (get ≫= k).
Proof. intros H s. rewrite exec_bind, exec_get, result_get. apply H. Qed.

Lemma ensures_field {C} (f : State -> C) v (m k : Act State unit) :
  ensures (fun s => f s = v) m -> keeps f k ->
  ensures (fun s => f s = v) (m;; k).
Proof.
  intros Hm Hk. apply ensures_bind_l; [exact Hm|].
  intros ?. now apply stable_keeps.
Qed.

Lemma cancelPartTimer_ensures :
  ensures (fun s => part2TimerInterval s = None) cancelPartTimer.
Proof.
  apply ensures_get_bind. intros s.
  destruct (part2TimerInterval s) eqn:H; [reflexivity|exact H].
Qed.

Lemma cancelCreditPoll_ensures :
  ensures (fun s => creditUsageInterval s = None) cancelCreditPoll.
Proof.
  apply ensures_get_bind. intros s.
  destruct (creditUsageInterval s) eqn:H; [reflexivity|exact H].
Qed.

Lemma closeSession_ensures : ensures (fun s => session s = None) closeSession.
Proof.
  apply ensures_get_bind. intros s.
  destruct (session s) eqn:H; [reflexivity|exact H].
Qed.

Lemma releaseMedia_ensures : ensures (fun s => mediaStream s = None) releaseMedia.
Proof.
  apply ensures_get_bind. intros s.
  destruct (mediaStream s) eqn:H; [reflexivity|exact H].
Qed.

Lemma stopRecording_stopped env s : stopped (fst (exec (stopRecording env) s)).
Proof.
  rewrite stopRecording_release. revert s. unfold release.
  assert (H1 : ensures (fun s => isRecording s = false) (release env)).
  { unfold release. do 4 (apply ensures_bind_r; intros ?).
    apply ensures_field; [intros s; reflexivity|keeps_auto]. }
  assert (H2 : ensures (fun s => session s = None) (release env)).
  { unfold release. do 5 (apply ensures_bind_r; intros ?).
    apply ensures_field; [apply closeSession_ensures|keeps_auto]. }
  assert (H3 : ensures (fun s => mediaStream s = None) (release env)).
  { unfold release. do 7 (apply ensures_bind_r; intros ?).
    apply releaseMedia_ensures. }
  assert (H4 : ensures (fun s => sourceNode s = None) (release env)).
  { unfold release. do 6 (apply ensures_bind_r; intros ?).
    apply ensures_field; [|keeps_auto].
    unfold disconnectCapture. do 3 (apply ensures_bind_r; intros ?).
    intros s. reflexivity. }
  assert (H5 : ensures (fun s => scriptProcessorNode s = None) (release env)).
  { unfold release. do 6 (apply ensures_bind_r; intros ?).
    apply ensures_field; [|keeps_auto].
    unfold disconnectCapture. do 2 (apply ensures_bind_r; intros ?).
    apply ensures_field; [intros s; reflexivity|keeps_auto]. }
  assert (H6 : ensures (fun s => creditUsageInterval s = None) (release env)).
  { unfold release. do 2 (apply ensures_bind_r; intros ?).
    apply ensures_field; [apply cancelCreditPoll_ensures|keeps_auto]. }
  assert (H7 : ensures (fun s => part2TimerInterval s = None) (release env)).
  { unfold release. do 1 (apply ensures_bind_r; intros ?).
    apply ensures_field; [apply cancelPartTimer_ensures|keeps_auto]. }
  intros s. repeat split; [apply H1|apply H2|apply H3|apply H4|apply H5|apply H6|apply H7].
Qed.

End Stopping.

Section Polling.
Import App.


Lemma release_cancels_poll env s id :
  creditUsageInterval s = Some id ->
  In (ClearInterval id) (snd (exec (release env) s)).
Proof.
  intros Hs. unfold release.
  assert (K1 : keeps creditUsageInterval markPart2Finished) by keeps_auto.
  assert (K2 : keeps creditUsageInterval cancelPartTimer) by keeps_auto.
  do 2 apply In_bind_r. apply In_bind_l.
  unfold cancelCreditPoll at 1. rewrite exec_bind, exec_get, result_get. cbn [fst snd app].
  rewrite K2, K1, Hs.
  rewrite exec_bind, exec_emit. cbn. now left.
Qed.

Lemma deductCredits_guard env s :
  isRecording s = false \/ userCredits s = None ->
  exec (deductCredits env) s = (s, []).
Proof.
  intros H. unfold deductCredits. rewrite exec_bind, exec_get, result_get.
  cbn [fst snd app].
  destruct H as [-> | ->]; cbn [negb orb isSome]; [reflexivity|].
  now rewrite orb_true_r.
Qed.



End Polling.



(** C10. No decrement after a stop.  [deductCredits] does nothing at all
    (no event, same state) when the recording flag is false or the cached
    balance is null; [stopRecording] clears the recording flag and cancels
    the credit-poll timer, so that a tick that still fires after it does
    nothing. *)
Theorem credit_poll_after_stop (env env' : Env) (s t : App.State) :
  App.isRecording t = false \/ App.userCredits t = None ->
  exec (App.deductCredits env) t = (t, [])
  /\ (let halted := fst (exec (App.stopRecording env) s) in
      App.isRecording halted = false
      /\ App.creditUsageInterval halted = None
      /\ (forall id, App.creditUsageInterval s = Some id ->
            In (ClearInterval id) (snd (exec (App.stopRecording env) s)))
      /\ exec (App.deductCredits env') halted = (halted, [])).
Proof.
  intros Ht. split; [apply deductCredits_guard, Ht|]. cbv zeta.
  destruct (stopRecording_stopped env s) as (Hrec & _ & _ & _ & _ & Hpoll & _).
  repeat split; try assumption.
  - intros id Hid. rewrite stopRecording_release. now apply release_cancels_poll.
  - apply deductCredits_guard. now left.
Qed.

Lemma credit_poll_after_stop_witness :
  exec (App.deductCredits Scenario.online) App.initial = (App.initial, [])
  /\ (let halted := fst (exec (App.stopRecording Scenario.online) Scenario.appRecording) in
      App.isRecording halted = false
      /\ App.creditUsageInterval halted = None
      /\ (forall id, App.creditUsageInterval Scenario.appRecording = Some id ->
            In (ClearInterval id)
               (snd (exec (App.stopRecording Scenario.online) Scenario.appRecording)))
      /\ exec (App.deductCredits Scenario.offline) halted = (halted, [])).
Proof.
  apply (credit_poll_after_stop Scenario.online Scenario.offline
           Scenario.appRecording App.initial).
  left. reflexivity.
Defined.

(* ================================================================== *)
(** * Starting                                                       *)
(* ================================================================== *)

Section Starting.

Lemma app_initSession_fails instruction modalities env s :
  App.client s = false \/ connect env = None ->
  fst (exec (App.initSession instruction modalities env) s) = s
  /\ snd (exec (App.initSession instruction modalities env) s)
     = (if App.client s
        then [Connect instruction modalities; ConsoleError "live.connect failed"]
        else []).
Proof.
  intros H. unfold App.initSession. rewrite exec_bind, exec_get, result_get.
  cbn [fst snd app].
  destruct (App.client s) eqn:Hc; cbn [negb]; [|now rewrite exec_skip].
  destruct H as [H|H]; [discriminate|]. rewrite H.
  rewrite exec_bind, !exec_emit. cbn. auto.
Qed.

Lemma basic_initSession_fails env s :
  Basic.client s = false \/ connect env = None ->
  fst (exec (Basic.initSession env) s) = s
  /\ snd (exec (Basic.initSession env) s)
     = (if Basic.client s
        then [Connect "" [AUDIO]; ConsoleError "live.connect failed"]
        else []).
Proof.
  intros H. unfold Basic.initSession. rewrite exec_bind, exec_get, result_get.
  cbn [fst snd app].
  destruct (Basic.client s) eqn:Hc; cbn [negb]; [|now rewrite exec_skip].
  destruct H as [H|H]; [discriminate|]. rewrite H.
  rewrite exec_bind, !exec_emit. cbn. auto.
Qed.

Lemma app_start_no_session instruction modalities env s :
  App.creditsExhausted s = false -> App.isRecording s = false ->
  App.session s = None ->
  App.client s = false \/ connect env = None ->
  exec (App.startRecording instruction modalities env) s
  = (App.set_currentSessionId (Some (uuid env)) (App.set_transcripts [] s),
     (if App.client s
      then [Connect instruction modalities; ConsoleError "live.connect failed"]
      else []) ++ [ConsoleError "Could not start new session."]).
Proof.
  intros Hcred Hrec Hsess Hfail. unfold App.startRecording.
  rewrite exec_bind, exec_get, result_get. cbn [fst snd app].
  rewrite Hcred, Hrec.
  rewrite exec_bind, exec_modify. cbn [fst snd app].
  rewrite exec_bind, exec_modify. cbn [fst snd app].
  set (s1 := App.set_currentSessionId _ _).
  assert (Hfail1 : App.client s1 = false \/ connect env = None) by exact Hfail.
  destruct (app_initSession_fails instruction modalities env s1 Hfail1) as [Hst Hev].
  rewrite exec_bind, Hst, Hev. cbn [fst snd].
  rewrite exec_bind, exec_get, result_get. cbn [fst snd app].
  change (App.session s1) with (App.session s). rewrite Hsess. cbn [isSome negb].
  rewrite exec_emit. cbn [fst snd]. reflexivity.
Qed.

Lemma basic_start_no_session env s :
  Basic.isRecording s = false -> Basic.session s = None ->
  Basic.client s = false \/ connect env = None ->
  exec (Basic.startRecording env) s
  = (Basic.set_currentSessionId (Some (uuid env)) (Basic.set_transcripts [] s),
     (if Basic.client s
      then [Connect "" [AUDIO]; ConsoleError "live.connect failed"]
      else []) ++ [ConsoleError "Could not start new session."]).
Proof.
  intros Hrec Hsess Hfail. unfold Basic.startRecording.
  rewrite exec_bind, exec_get, result_get. cbn [fst snd app].
  rewrite Hrec.
  rewrite exec_bind, exec_modify. cbn [fst snd app].
  rewrite exec_bind, exec_modify. cbn [fst snd app].
  set (s1 := Basic.set_currentSessionId _ _).
  assert (Hfail1 : Basic.client s1 = false \/ connect env = None) by exact Hfail.
  destruct (basic_initSession_fails env s1 Hfail1) as [Hst Hev].
  rewrite exec_bind, Hst, Hev. cbn [fst snd].
  rewrite exec_bind, exec_get, result_get. cbn [fst snd app].
  change (Basic.session s1) with (Basic.session s). rewrite Hsess. cbn [isSome negb].
  rewrite exec_emit. cbn [fst snd]. reflexivity.
Qed.

End Starting.

(** C9. Starting without a session.  When [startRecording] gets as far as
    opening the session and no session object results (no client, or the
    connection fails), it returns before the microphone is requested: no
    [getUserMedia], no capture wiring, the recording flag stays false and
    the media fields are untouched; the transcript has been emptied and a
    fresh session id assigned, and both stay so.  Holds for the IELTS
    version and for the first version of [index.tsx]. *)
Theorem start_without_session (instruction : string) (modalities : list Modality)
    (env : Env) (s : App.State) (b : Basic.State) :
  App.client s = false \/ connect env = None ->
  Basic.client b = false \/ connect env = None ->
  App.creditsExhausted s = false -> App.isRecording s = false ->
  App.session s = None ->
  Basic.isRecording b = false -> Basic.session b = None ->
  (let s' := fst (exec (App.startRecording instruction modalities env) s) in
   let events := snd (exec (App.startRecording instruction modalities env) s) in
   s' = App.set_currentSessionId (Some (uuid env)) (App.set_transcripts [] s)
   /\ ~ In GetUserMedia events
   /\ (forall stream size, ~ In (WireCapture stream size) events)
   /\ App.isRecording s' = false
   /\ App.mediaStream s' = App.mediaStream s
   /\ App.sourceNode s' = App.sourceNode s
   /\ App.scriptProcessorNode s' = App.scriptProcessorNode s
   /\ App.transcripts s' = []
   /\ App.currentSessionId s' = Some (uuid env))
  /\ (let b' := fst (exec (Basic.startRecording env) b) in
      let events := snd (exec (Basic.startRecording env) b) in
      b' = Basic.set_currentSessionId (Some (uuid env)) (Basic.set_transcripts [] b)
      /\ ~ In GetUserMedia events
      /\ (forall stream size, ~ In (WireCapture stream size) events)
      /\ Basic.isRecording b' = false
      /\ Basic.mediaStream b' = Basic.mediaStream b
      /\ Basic.sourceNode b' = Basic.sourceNode b
      /\ Basic.scriptProcessorNode b' = Basic.scriptProcessorNode b
      /\ Basic.transcripts b' = []
      /\ Basic.currentSessionId b' = Some (uuid env)).
Proof.
  intros Hconn Hbconn Hcred Hrec Hsess Hbrec Hbsess. cbv zeta. split.
  - rewrite (app_start_no_session instruction modalities env s Hcred Hrec Hsess
               Hconn).
    cbn [fst snd]. repeat split; try assumption.
    + destruct (App.client s); cbn; intuition discriminate.
    + intros stream size. destruct (App.client s); cbn; intuition discriminate.
  - rewrite (basic_start_no_session env b Hbrec Hbsess Hbconn).
    cbn [fst snd]. repeat split; try assumption.
    + destruct (Basic.client b); cbn; intuition discriminate.
    + intros stream size. destruct (Basic.client b); cbn; intuition discriminate.
Qed.

Lemma start_without_session_witness :
  let env := Scenario.offline in
  let s := App.onLogin "user-1" 0 App.initial in
  let b := Basic.onLogin "user-1" 0 Basic.initial in
  (let s' := fst (exec (App.startRecording App.PART1_INSTRUCTION [AUDIO] env) s) in
   let events := snd (exec (App.startRecording App.PART1_INSTRUCTION [AUDIO] env) s) in
   s' = App.set_currentSessionId (Some (uuid env)) (App.set_transcripts [] s)
   /\ ~ In GetUserMedia events
   /\ (forall stream size, ~ In (WireCapture stream size) events)
   /\ App.isRecording s' = false
   /\ App.mediaStream s' = App.mediaStream s
   /\ App.sourceNode s' = App.sourceNode s
   /\ App.scriptProcessorNode s' = App.scriptProcessorNode s
   /\ App.transcripts s' = []
   /\ App.currentSessionId s' = Some (uuid env))
  /\ (let b' := fst (exec (Basic.startRecording env) b) in
      let events := snd (exec (Basic.startRecording env) b) in
      b' = Basic.set_currentSessionId (Some (uuid env)) (Basic.set_transcripts [] b)
      /\ ~ In GetUserMedia events
      /\ (forall stream size, ~ In (WireCapture stream size) events)
      /\ Basic.isRecording b' = false
      /\ Basic.mediaStream b' = Basic.mediaStream b
      /\ Basic.sourceNode b' = Basic.sourceNode b
      /\ Basic.scriptProcessorNode b' = Basic.scriptProcessorNode b
      /\ Basic.transcripts b' = []
      /\ Basic.currentSessionId b' = Some (uuid env)).
Proof.
  apply (start_without_session App.PART1_INSTRUCTION [AUDIO] Scenario.offline
           (App.onLogin "user-1" 0 App.initial)
           (Basic.onLogin "user-1" 0 Basic.initial));
    try reflexivity; right; reflexivity.
Defined.

(* ================================================================== *)
(** * Parts                                                          *)
(* ================================================================== *)

Section Parts.
Import App.

Lemma stopCurrentSession_idle env s :
  isRecording s = false -> exec (stopCurrentSession env) s = (s, []).
Proof.
  intros H. unfold stopCurrentSession. rewrite exec_bind, exec_get, result_get.
  cbn [fst snd app]. rewrite H. reflexivity.
Qed.

Lemma stopCurrentSession_cases env s :
  exec (stopCurrentSession env) s
  = if isRecording s then exec (stopRecording env) s else (s, []).
Proof.
  unfold stopCurrentSession. rewrite exec_get_bind.
  destruct (isRecording s); reflexivity.
Qed.

Lemma stopCurrentSession_keeps {C} (f : State -> C) env :
  keeps f (release env) -> keeps f (stopCurrentSession env).
Proof.
  intros H s. rewrite stopCurrentSession_cases.
  destruct (isRecording s); [now apply stopRecording_keeps|reflexivity].
Qed.

Lemma stopCurrentSession_stops env s :
  isRecording (fst (exec (stopCurrentSession env) s)) = false.
Proof.
  rewrite stopCurrentSession_cases. destruct (isRecording s) eqn:H; [|exact H].
  apply (stopRecording_stopped env s).
Qed.

Lemma handlePartSelect_part3 env s :
  exec (handlePartSelect part3 env) s
  = (let s0 := fst (exec (stopCurrentSession env) s) in
     if creditsExhausted s then set_isOutOfCreditsModalOpen true s0
     else if truthy_str (part2TopicForPart3 s0)
     then set_isIntroModalOpen true
            (set_isIntroConfirmed false
               (set_introModalContent (Some intro3) (selected part3 s0)))
     else set_transcripts [completePart2First] (selected part3 s0),
     snd (exec (stopCurrentSession env) s)).
Proof.
  cbv zeta. unfold handlePartSelect.
  erewrite exec_then; [|apply exec_pair].
  set (s0 := fst (exec (stopCurrentSession env) s)).
  assert (Hcred : creditsExhausted s0 = creditsExhausted s).
  { unfold creditsExhausted, s0.
    rewrite (stopCurrentSession_keeps userCredits env); [reflexivity|].
    unfold release. keeps_auto. }
  rewrite exec_get_bind, Hcred.
  destruct (creditsExhausted s).
  - rewrite exec_modify. cbn [fst snd]. now rewrite app_nil_r.
  - rewrite !exec_modify_bind. fold (selected part3 s0).
    rewrite exec_get_bind.
    change (part2TopicForPart3 (selected part3 s0)) with (part2TopicForPart3 s0).
    destruct (truthy_str (part2TopicForPart3 s0)); cbn [negb].
    + rewrite !exec_modify_bind, exec_modify. cbn [fst snd].
      now rewrite app_nil_r.
    + rewrite exec_modify. cbn [fst snd]. now rewrite app_nil_r.
Qed.

Lemma part3_template_contains topic :
  exists pre post, PART3_INSTRUCTION_TEMPLATE topic = pre +:+ topic +:+ post.
Proof.
  exists ("You are an IELTS examiner conducting Part 3 of the speaking test."
          +:+ nl +:+ "The topic is a follow-up to Part 2, which was about '").
  eexists. unfold PART3_INSTRUCTION_TEMPLATE.
  etransitivity; [|symmetry; apply append_assoc].
  apply f_equal.
  etransitivity; [|symmetry; apply append_assoc].
  reflexivity.
Qed.

Lemma markPart2Finished_part2 s topic :
  currentPart s = Some part2 -> part2Topic s = Some topic -> topic <> "" ->
  exec markPart2Finished s
  = (set_part2State finished (set_part2TopicForPart3 (Some topic) s), []).
Proof.
  intros Hp Ht Hne. unfold markPart2Finished.
  rewrite exec_get_bind, Hp, Ht. cbn [isPart2 truthy_str andb].
  rewrite (truthy_nonempty _ Hne). cbn [when].
  rewrite exec_modify_bind, exec_modify. reflexivity.
Qed.

Lemma stopRecording_finishes_part2 env s topic :
  currentPart s = Some part2 -> part2Topic s = Some topic -> topic <> "" ->
  part2TopicForPart3 (fst (exec (stopRecording env) s)) = Some topic
  /\ part2State (fst (exec (stopRecording env) s)) = finished.
Proof.
  intros Hp Ht Hne. rewrite stopRecording_release. unfold release.
  rewrite state_bind, (markPart2Finished_part2 s topic Hp Ht Hne). cbn [fst].
  set (rest := cancelPartTimer;; _).
  assert (K1 : keeps part2TopicForPart3 rest) by (unfold rest; keeps_auto).
  assert (K2 : keeps part2State rest) by (unfold rest; keeps_auto).
  rewrite K1, K2. split; reflexivity.
Qed.

Lemma initSession_connects instruction modalities env s :
  client s = true ->
  exec (initSession instruction modalities env) s
  = match connect env with
    | Some c =>
        (set_session (Some {| connection := c; systemInstruction := instruction;
                              responseModalities := modalities |}) s,
         [Connect instruction modalities])
    | None => (s, [Connect instruction modalities; ConsoleError "live.connect failed"])
    end.
Proof.
  intros Hc. unfold initSession. rewrite exec_get_bind, Hc. cbn [negb].
  rewrite exec_emit_bind.
  destruct (connect env); [rewrite exec_modify|rewrite exec_emit]; reflexivity.
Qed.

Lemma startRecording_connects instruction modalities env s :
  creditsExhausted s = false -> isRecording s = false -> client s = true ->
  In (Connect instruction modalities)
     (snd (exec (startRecording instruction modalities env) s)).
Proof.
  intros Hcred Hrec Hc. unfold startRecording.
  rewrite exec_get_bind, Hcred, Hrec. rewrite !exec_modify_bind.
  apply In_bind_l. rewrite initSession_connects by exact Hc.
  destruct (connect env); now left.
Qed.

Lemma startRecording_records instruction modalities env s c stream :
  creditsExhausted s = false -> isRecording s = false -> client s = true ->
  connect env = Some c -> userMedia env = Some stream ->
  let s' := fst (exec (startRecording instruction modalities env) s) in
  session s' = Some {| connection := c; systemInstruction := instruction;
                       responseModalities := modalities |}
  /\ isRecording s' = true.
Proof.
  intros Hcred Hrec Hc Hconn Hmedia. cbv zeta. unfold startRecording.
  rewrite exec_get_bind, Hcred, Hrec. rewrite !exec_modify_bind.
  rewrite state_bind, initSession_connects by exact Hc. rewrite Hconn. cbn [fst].
  rewrite exec_get_bind. cbn [session set_session isSome negb].
  rewrite !exec_emit_bind, Hmedia. cbn [fst].
  rewrite !exec_modify_bind, exec_emit_bind. cbn [fst].
  rewrite !exec_modify_bind, exec_emit. split; reflexivity.
Qed.

End Parts.

(** C5 (as amended).  Selecting a part first stops the recording that is
    running, if any, and that stop carries the topic of a Part 2 talk
    forward and marks Part 2 finished.  With credits left, selecting
    Part 3 when no topic is carried forward once that stop is done is
    rejected with the examiner line "Please complete Part 2 before starting
    Part 3.": the intro dialog is not opened, no session is started and the
    carried topic stays absent, but the selection itself is made (current
    part Part 3, part-2 phase idle, cue card and topic cleared, countdowns
    reset).  With a topic carried forward by then (Part 2 finished before,
    or its talk stopped by this very selection), selecting Part 3 opens its
    intro dialog with no examiner line, and starting the part connects a
    session whose system instruction is the Part 3 template with the topic
    inside.  With the credits used up, selecting Part 3 opens the
    out-of-credits dialog and does neither. *)
Theorem part3_selection (env : Env) (s a r : App.State) (topic : string) :
  let stopped := fun x => fst (exec (App.stopCurrentSession env) x) in
  let select := fun x => exec (App.handlePartSelect App.part3 env) x in
  truthy_str (App.part2TopicForPart3 (stopped s)) = false ->
  App.part2TopicForPart3 (stopped a) = Some topic ->
  topic <> "" ->
  App.currentPart r = Some App.part2 ->
  App.part2Topic r = Some topic ->
  (forall x, exec (App.stopCurrentSession env) x
             = if App.isRecording x then exec (App.stopRecording env) x
               else (x, []))
  /\ select s
     = (if App.creditsExhausted s
        then App.set_isOutOfCreditsModalOpen true (stopped s)
        else App.set_transcripts [App.completePart2First]
               (App.selected App.part3 (stopped s)),
        snd (exec (App.stopCurrentSession env) s))
  /\ (App.creditsExhausted s = false ->
      let chosen := fst (select s) in
      App.transcripts chosen = [App.completePart2First]
      /\ App.isIntroModalOpen chosen = App.isIntroModalOpen s
      /\ App.session chosen = App.session (stopped s)
      /\ App.isRecording chosen = false
      /\ App.part2TopicForPart3 chosen = App.part2TopicForPart3 (stopped s)
      /\ App.currentPart chosen = Some App.part3
      /\ App.part2State chosen = App.idle
      /\ App.part2CueCard chosen = None
      /\ App.part2Topic chosen = None)
  /\ (App.creditsExhausted s = true ->
      let chosen := fst (select s) in
      App.isOutOfCreditsModalOpen chosen = true
      /\ App.transcripts chosen = App.transcripts s
      /\ App.currentPart chosen = App.currentPart s
      /\ App.isIntroModalOpen chosen = App.isIntroModalOpen s)
  /\ select a
     = (if App.creditsExhausted a
        then App.set_isOutOfCreditsModalOpen true (stopped a)
        else App.set_isIntroModalOpen true
               (App.set_isIntroConfirmed false
                  (App.set_introModalContent (Some App.intro3)
                     (App.selected App.part3 (stopped a)))),
        snd (exec (App.stopCurrentSession env) a))
  /\ (App.creditsExhausted a = false ->
      let chosen := fst (select a) in
      let started := fst (exec (App.handleStartPart env) chosen) in
      App.isIntroModalOpen chosen = true
      /\ App.introModalContent chosen = Some App.intro3
      /\ App.currentPart chosen = Some App.part3
      /\ App.transcripts chosen = []
      /\ (App.client a = true ->
          In (Connect (App.PART3_INSTRUCTION_TEMPLATE topic) [AUDIO])
             (snd (exec (App.handleStartPart env) chosen))
          /\ (forall c stream,
                connect env = Some c -> userMedia env = Some stream ->
                App.isRecording started = true
                /\ App.session started
                   = Some {| connection := c;
                             systemInstruction := App.PART3_INSTRUCTION_TEMPLATE topic;
                             responseModalities := [AUDIO] |})))
  /\ (exists pre post,
        App.PART3_INSTRUCTION_TEMPLATE topic = pre +:+ topic +:+ post)
  /\ App.part2TopicForPart3 (fst (exec (App.stopRecording env) r)) = Some topic
  /\ App.part2State (fst (exec (App.stopRecording env) r)) = App.finished.
Proof.
  cbv zeta. intros Hs Ha Hne Hp Ht.
  split; [intros x; apply stopCurrentSession_cases|].
  rewrite !handlePartSelect_part3. cbv zeta. rewrite Hs, Ha.
  cbn [truthy_str]. rewrite (truthy_nonempty _ Hne).
  split; [reflexivity|]. split; [|split; [|split; [reflexivity|split; [|split]]]].
  - intros ->. cbn [fst].
    repeat split; try reflexivity.
    + cbn [App.isIntroModalOpen App.set_transcripts App.selected].
      apply (stopCurrentSession_keeps App.isIntroModalOpen env).
      unfold App.release. keeps_auto.
    + apply stopCurrentSession_stops.
  - intros ->. cbn [fst].
    repeat split.
    + apply (stopCurrentSession_keeps App.transcripts env).
      unfold App.release. keeps_auto.
    + apply (stopCurrentSession_keeps App.currentPart env).
      unfold App.release. keeps_auto.
    + apply (stopCurrentSession_keeps App.isIntroModalOpen env).
      unfold App.release. keeps_auto.
  - intros Hcred. rewrite Hcred. cbn [fst].
    set (a0 := fst (exec (App.stopCurrentSession env) a)) in *.
    set (chosen := App.set_isIntroModalOpen true _).
    assert (Hrec : App.isRecording a0 = false) by apply stopCurrentSession_stops.
    assert (Hcred0 : App.creditsExhausted a0 = false).
    { unfold App.creditsExhausted, a0.
      rewrite (stopCurrentSession_keeps App.userCredits env);
        [exact Hcred|unfold App.release; keeps_auto]. }
    assert (Hstart : exec (App.handleStartPart env) chosen
                     = exec (App.startRecording (App.PART3_INSTRUCTION_TEMPLATE topic)
                               [AUDIO] env)
                         (App.set_isIntroModalOpen false chosen)).
    { unfold App.handleStartPart. rewrite exec_modify_bind, exec_get_bind.
      change (App.currentPart (App.set_isIntroModalOpen false chosen))
        with (Some App.part3).
      change (App.part2TopicForPart3 (App.set_isIntroModalOpen false chosen))
        with (App.part2TopicForPart3 a0).
      cbv iota. rewrite Ha, (truthy_nonempty _ Hne). reflexivity. }
    rewrite Hstart.
    split; [reflexivity|]. split; [reflexivity|]. split; [reflexivity|].
    split; [reflexivity|].
    intros Hc.
    assert (Hc0 : App.client a0 = true).
    { unfold a0. rewrite (stopCurrentSession_keeps App.client env);
        [exact Hc|unfold App.release; keeps_auto]. }
    split.
    + apply startRecording_connects; [exact Hcred0|exact Hrec|exact Hc0].
    + intros c stream Hconn Hmedia.
      destruct (startRecording_records (App.PART3_INSTRUCTION_TEMPLATE topic)
                  [AUDIO] env (App.set_isIntroModalOpen false chosen) c stream
                  Hcred0 Hrec Hc0 Hconn Hmedia) as [H1 H2].
      split; [exact H2|exact H1].
  - apply part3_template_contains.
  - now apply stopRecording_finishes_part2.
Qed.

Lemma part3_selection_witness :
  let env := Scenario.online in
  let s := Scenario.appPreparing in
  let a := Scenario.appSpeaking in
  let topic := "A memorable trip" in
  let rejected := fst (exec (App.handlePartSelect App.part3 env) s) in
  let accepted := fst (exec (App.handlePartSelect App.part3 env) a) in
  let started := fst (exec (App.handleStartPart env) accepted) in
  (App.isRecording s = false
   /\ App.part2TopicForPart3 s = None
   /\ App.transcripts rejected = [App.completePart2First]
   /\ App.isIntroModalOpen rejected = false
   /\ App.session rejected = None
   /\ App.currentPart rejected = Some App.part3)
  /\ (App.isRecording a = true
      /\ App.part2TopicForPart3 a = None
      /\ App.isIntroModalOpen accepted = true
      /\ App.introModalContent accepted = Some App.intro3
      /\ App.transcripts accepted = []
      /\ In (Connect (App.PART3_INSTRUCTION_TEMPLATE topic) [AUDIO])
            (snd (exec (App.handleStartPart env) accepted))
      /\ App.isRecording started = true
      /\ App.session started
         = Some {| connection := 1%nat;
                   systemInstruction := App.PART3_INSTRUCTION_TEMPLATE topic;
                   responseModalities := [AUDIO] |})
  /\ App.part2TopicForPart3 (fst (exec (App.stopRecording env) a)) = Some topic
  /\ App.part2State (fst (exec (App.stopRecording env) a)) = App.finished.
Proof.
  cbv zeta.
  destruct (part3_selection Scenario.online Scenario.appPreparing
              Scenario.appSpeaking Scenario.appSpeaking "A memorable trip")
    as (_ & _ & Hrej & _ & _ & Hacc & _ & Hcarried & Hfinished).
  - vm_compute. reflexivity.
  - vm_compute. reflexivity.
  - discriminate.
  - vm_compute. reflexivity.
  - vm_compute. reflexivity.
  - destruct Hrej as (R1 & R2 & R3 & _ & _ & R6 & _);
      [vm_compute; reflexivity|].
    destruct Hacc as (A1 & A2 & _ & A4 & A5); [vm_compute; reflexivity|].
    destruct A5 as (A5 & A6); [vm_compute; reflexivity|].
    destruct (A6 1%nat 7%nat eq_refl eq_refl) as (A7 & A8).
    split; [|split; [|split; [exact Hcarried|exact Hfinished]]].
    + split; [vm_compute; reflexivity|]. split; [vm_compute; reflexivity|].
      split; [exact R1|]. split; [rewrite R2; vm_compute; reflexivity|].
      split; [rewrite R3; vm_compute; reflexivity|exact R6].
    + split; [vm_compute; reflexivity|]. split; [vm_compute; reflexivity|].
      split; [exact A1|]. split; [exact A2|]. split; [exact A4|].
      split; [exact A5|]. split; [exact A7|exact A8].
Defined.

Lemma part3_rejection_resets_state :
  let s := Scenario.appPreparing in
  let s' := fst (exec (App.handlePartSelect App.part3 Scenario.online) s) in
  let t := Scenario.appSpeaking in
  let t' := fst (exec (App.handlePartSelect App.part3 Scenario.online) t) in
  let u := App.set_userCredits (Some 0) Scenario.appPreparing in
  let u' := fst (exec (App.handlePartSelect App.part3 Scenario.online) u) in
  (App.part2TopicForPart3 s = None
   /\ App.transcripts s' = [App.completePart2First]
   /\ (App.currentPart s, App.part2State s, App.part2Topic s)
      = (Some App.part2, App.preparing, Some "A memorable trip")
   /\ (App.currentPart s', App.part2State s', App.part2Topic s')
      = (Some App.part3, App.idle, None)
   /\ App.part2CueCard s <> None
   /\ App.part2CueCard s' = None
   /\ App.selected App.part3 s <> s
   /\ s' <> s)
  /\ (App.part2TopicForPart3 t = None
      /\ (App.currentPart t, App.part2State t, App.isRecording t)
         = (Some App.part2, App.speaking, true)
      /\ App.transcripts t' = []
      /\ App.isIntroModalOpen t' = true
      /\ App.introModalContent t' = Some App.intro3
      /\ App.part2TopicForPart3 t' = Some "A memorable trip")
  /\ (App.part2TopicForPart3 u = None
      /\ App.transcripts u' = []
      /\ App.isOutOfCreditsModalOpen u' = true
      /\ App.currentPart u' = Some App.part2).
Proof.
  vm_compute. repeat split; discriminate.
Qed.

(* ================================================================== *)
(** * States that occur                                               *)
(* ================================================================== *)

(** The scenarios are states the components do get into. *)
Lemma appRecording_reachable : App.reachable Scenario.appRecording.
Proof.
  apply (App.reach_step _ (App.Message (1 # 2) Scenario.hello) Scenario.online).
  apply (App.reach_step _ App.StartPart Scenario.online).
  apply (App.reach_step _ (App.SelectPart App.part1) Scenario.online).
  apply (App.reach_step _ (App.Login "user-1" 0) Scenario.online).
  apply App.reach_initial.
Qed.

Lemma appPreparing_reachable : App.reachable Scenario.appPreparing.
Proof.
  apply (App.reach_step _ App.StartPart Scenario.online).
  apply (App.reach_step _ (App.SelectPart App.part2) Scenario.online).
  apply (App.reach_step _ (App.Login "user-1" 0) Scenario.online).
  apply App.reach_initial.
Qed.

Lemma appFinishedPart2_reachable : App.reachable Scenario.appFinishedPart2.
Proof.
  assert (Hspeaking : App.reachable Scenario.appSpeaking).
  { unfold Scenario.appSpeaking. generalize 60%nat. intros n.
    induction n as [|n IH]; [apply appPreparing_reachable|].
    cbn [Nat.iter].
    apply (App.reach_step _ App.PreparationTick Scenario.online), IH. }
  pose proof (App.reach_step _ App.VisualizerClick Scenario.online Hspeaking) as H.
  replace (fst (exec (App.perform App.VisualizerClick Scenario.online)
                  Scenario.appSpeaking))
    with Scenario.appFinishedPart2 in H; [exact H|].
  vm_compute. reflexivity.
Qed.

Lemma basicRecording_reachable : Basic.reachable Scenario.basicRecording.
Proof.
  apply (Basic.reach_step _ (Basic.Message (1 # 2) Scenario.hello) Scenario.online).
  pose proof (Basic.reach_step _ Basic.ToggleRecording Scenario.online
                (Basic.reach_step _ (Basic.Login "user-1" 0) Scenario.online
                   Basic.reach_initial)) as H.
  replace (fst (exec (Basic.perform Basic.ToggleRecording Scenario.online)
                  (fst (exec (Basic.perform (Basic.Login "user-1" 0) Scenario.online)
                          Basic.initial))))
    with (fst (exec (Basic.startRecording Scenario.online)
                 (Basic.onLogin "user-1" 0 Basic.initial))) in H; [exact H|].
  vm_compute. reflexivity.
Qed.

(* ================================================================== *)
(** * Stopping twice, capturing without a session                    *)
(* ================================================================== *)

(** C6. [stopRecording] called twice in succession in a reachable state, a
    recording with one transcript line, in the IELTS version and in the
    first version of [index.tsx]: closing the session, disconnecting the capture nodes and
    stopping the tracks happen once and the end state is that of one call,
    but the transcript is written to the store twice. *)
Theorem stop_twice_persists_twice :
  let env := Scenario.online in
  App.reachable Scenario.appRecording
  /\ Basic.reachable Scenario.basicRecording
  /\ (let once := exec (App.stopRecording env) Scenario.appRecording in
   let twice := exec (App.stopRecording env;; App.stopRecording env)
                  Scenario.appRecording in
   inserts (snd once) = 1%nat
   /\ inserts (snd twice) = 2%nat
   /\ count isSessionClose (snd twice) = 1%nat
   /\ count isDisconnect (snd twice) = 2%nat
   /\ count isTrackStop (snd twice) = 1%nat
   /\ fst twice = fst once)
  /\ (let once := exec (Basic.stopRecording env) Scenario.basicRecording in
      let twice := exec (Basic.stopRecording env;; Basic.stopRecording env)
                     Scenario.basicRecording in
      inserts (snd once) = 1%nat
      /\ inserts (snd twice) = 2%nat
      /\ count isSessionClose (snd twice) = 1%nat
      /\ count isDisconnect (snd twice) = 2%nat
      /\ count isTrackStop (snd twice) = 1%nat
      /\ fst twice = fst once).
Proof.
  split; [apply appRecording_reachable|].
  split; [apply basicRecording_reachable|].
  vm_compute. repeat split.
Qed.

(** The capture callback of the three later versions. *)
Lemma capture_guard (frame : list Q) (s : App.State) (b : Basic.State) :
  (App.isRecording s = false \/ App.session s = None ->
   App.onaudioprocess frame s = (Dropped, []))
  /\ (Basic.isRecording b = false \/ Basic.session b = None ->
      Basic.onaudioprocess frame b = (Dropped, [])).
Proof.
  split; intros [H|H].
  - unfold App.onaudioprocess. now rewrite H.
  - unfold App.onaudioprocess. rewrite H. cbn. now rewrite orb_true_r.
  - unfold Basic.onaudioprocess. now rewrite H.
  - unfold Basic.onaudioprocess. rewrite H. cbn. now rewrite orb_true_r.
Qed.

Lemma capture_sends (frame : list Q) (s : App.State) (ss : Session) :
  App.isRecording s = true -> App.session s = Some ss ->
  App.onaudioprocess frame s
  = (Sent, [SendRealtimeInput (connection ss) (Codec.createBlob frame)]).
Proof. intros H1 H2. unfold App.onaudioprocess. now rewrite H1, H2. Qed.

Lemma legacy_capture_unguarded (frame : list Q) (s : Legacy.State) :
  Legacy.isRecording s = true -> Legacy.session s = None ->
  Legacy.onaudioprocess frame s = (TypeError, []).
Proof. intros H1 H2. unfold Legacy.onaudioprocess. now rewrite H1, H2. Qed.

(** C7. The capture callback of the earliest version, with the recording
    flag set and no session object: the send is attempted on the absent
    session and raises a TypeError; the frame is not silently dropped. *)
Theorem legacy_capture_raises :
  Legacy.isRecording Scenario.legacyRecording = true
  /\ Legacy.session Scenario.legacyRecording = None
  /\ Legacy.onaudioprocess Scenario.frame Scenario.legacyRecording = (TypeError, [])
  /\ Legacy.onaudioprocess Scenario.frame Scenario.legacyRecording <> (Dropped, []).
Proof. vm_compute. repeat split. discriminate. Qed.

(* ================================================================== *)
(** * More on the transcript                                           *)
(* ================================================================== *)

Section TranscriptFacts.
Import Live Transcript.

Lemma append_nil_r (a : string) : a +:+ "" = a.
Proof.
  induction a as [|x a IH]; [reflexivity|].
  change (String x (a +:+ "") = String x a). now rewrite IH.
Qed.

Lemma alternating_snoc ts x :
  alternating (ts ++ [x])
  <-> alternating ts /\ (forall l, last ts = Some l -> speaker l <> speaker x).
Proof.
  induction ts as [|a ts IH].
  - cbn. split; [intros _; split; [exact I|intros l H; discriminate H]|auto].
  - destruct ts as [|b ts].
    + cbn. split.
      * intros [H _]. split; [exact I|]. intros l [= <-]. exact H.
      * intros [_ H]. split; [|exact I]. now apply H.
    + change ((a :: b :: ts) ++ [x]) with (a :: ((b :: ts) ++ [x])).
      change (alternating (a :: (b :: ts) ++ [x]))
        with (speaker a <> speaker b /\ alternating ((b :: ts) ++ [x])).
      change (alternating (a :: b :: ts))
        with (speaker a <> speaker b /\ alternating (b :: ts)).
      rewrite IH, last_cons_cons. tauto.
Qed.

Lemma reconcile_alternating who t ts :
  alternating ts -> alternating (reconcile who t ts).
Proof.
  intros Halt. unfold reconcile. destruct (fragmentText t) as [txt|]; [|exact Halt].
  destruct (snoc_cases ts) as [->|(ts0 & l & ->)]; [exact I|].
  rewrite appendText_snoc.
  apply alternating_snoc in Halt as [Halt0 Hlast].
  destruct (String.eqb_spec (speaker l) who) as [Heq|Hne].
  - apply alternating_snoc. split; [exact Halt0|exact Hlast].
  - apply alternating_snoc. split.
    + apply alternating_snoc. split; assumption.
    + intros l' Hl'. rewrite last_snoc in Hl'. injection Hl' as <-. exact Hne.
Qed.

(** The transcript after a message: that of the two blocks, unless the
    handler stopped at an audio payload it could not decode. *)
Lemma onmessage_transcripts clock message st :
  transcripts (fst (onmessage clock message st)) = transcripts st
  \/ exists sc, serverContent message = Some sc
       /\ transcripts (fst (onmessage clock message st))
          = reconcile (label Examiner) (outputTranscription sc)
              (reconcile (label Candidate) (inputTranscription sc) (transcripts st)).
Proof.
  unfold onmessage. destruct (serverContent message) as [sc|]; [|now left].
  destruct (inlineData sc) as [payload|].
  - destruct (decodeInline payload) as [buf|]; [|now left].
    right. exists sc. split; [reflexivity|].
    rewrite scheduleBuffer_spec. cbn [transcripts].
    destruct (interrupted sc); [|reflexivity].
    rewrite onInterrupted_spec. reflexivity.
  - right. exists sc. split; [reflexivity|].
    destruct (interrupted sc); [|reflexivity].
    rewrite onInterrupted_spec. reflexivity.
Qed.

Lemma onmessage_alternating clock message st :
  alternating (transcripts st) ->
  alternating (transcripts (fst (onmessage clock message st))).
Proof.
  intros H. destruct (onmessage_transcripts clock message st) as [->|(sc & _ & ->)];
    [exact H|].
  now do 2 apply reconcile_alternating.
Qed.

Lemma said_snoc who ts l :
  said who (ts ++ [l])
  = said who ts +:+ (if String.eqb (speaker l) who then text l else "").
Proof.
  induction ts as [|a ts IH].
  - cbn [app said]. destruct (String.eqb (speaker l) who); [|reflexivity].
    now rewrite append_nil_r.
  - cbn [app said]. rewrite IH.
    destruct (String.eqb (speaker a) who); [|reflexivity].
    now rewrite append_assoc.
Qed.

Lemma reconcile_said who who' t ts :
  said who' (reconcile who t ts)
  = said who' ts +:+ (if String.eqb who who' then heard t else "").
Proof.
  unfold reconcile, heard. destruct (fragmentText t) as [txt|].
  - destruct (snoc_cases ts) as [->|(ts0 & l & ->)].
    + rewrite appendText_nil. cbn [said speaker text].
      destruct (String.eqb who who'); [|reflexivity]. now rewrite append_nil_r.
    + rewrite appendText_snoc.
      destruct (String.eqb_spec (speaker l) who) as [Heq|Hne].
      * rewrite !said_snoc. cbn [speaker text]. rewrite Heq.
        destruct (String.eqb who who'); [|now rewrite !append_nil_r].
        now rewrite append_assoc.
      * rewrite (said_snoc who' (ts0 ++ [l])). cbn [speaker text]. reflexivity.
  - destruct (String.eqb who who'); now rewrite append_nil_r.
Qed.

Lemma absorb_said who f ts :
  said (label who) (absorb f ts)
  = said (label who) ts
    +:+ (if String.eqb (label (fst f)) (label who) then snd f else "").
Proof.
  unfold absorb. destruct (truthy (snd f)) eqn:Htr.
  - pose proof (reconcile_said (label (fst f)) (label who)
                  (fragment (snd f) None) ts) as H.
    unfold reconcile, heard, fragment, fragmentText in H. cbn in H.
    rewrite Htr in H. exact H.
  - assert (snd f = "") as ->.
    { unfold truthy in Htr. apply negb_false_iff in Htr.
      now apply String.eqb_eq in Htr. }
    destruct (String.eqb _ _); now rewrite append_nil_r.
Qed.

Lemma feed_said who frags : said (label who) (feed frags) = sent who frags.
Proof.
  unfold feed. rewrite handleAll_fragments. cbn [transcripts initial].
  assert (H : forall ts,
    said (label who) (fold_left (fun ts f => absorb f ts) frags ts)
    = said (label who) ts +:+ sent who frags).
  { induction frags as [|[w txt] rest IH]; intros ts.
    - cbn. now rewrite append_nil_r.
    - cbn [fold_left sent]. rewrite IH, absorb_said. cbn [fst snd].
      destruct (String.eqb (label w) (label who)).
      + now rewrite append_assoc.
      + now rewrite append_nil_r. }
  rewrite H. reflexivity.
Qed.

Lemma reconcile_keeps_earlier who t ts i l :
  ts !! i = Some l -> (S i < List.length ts)%nat ->
  reconcile who t ts !! i = Some l.
Proof.
  intros Hi Hlt. unfold reconcile. destruct (fragmentText t) as [txt|]; [|exact Hi].
  destruct (snoc_cases ts) as [->|(ts0 & x & ->)]; [discriminate Hi|].
  rewrite length_app in Hlt. cbn [List.length] in Hlt.
  assert (Hi0 : ts0 !! i = Some l).
  { rewrite lookup_app_l in Hi by lia. exact Hi. }
  rewrite appendText_snoc.
  destruct (String.eqb (speaker x) who).
  - rewrite lookup_app_l by lia. exact Hi0.
  - rewrite <- (app_assoc ts0), lookup_app_l by lia. exact Hi0.
Qed.

Lemma reconcile_grows who t ts :
  (List.length ts <= List.length (reconcile who t ts))%nat.
Proof.
  unfold reconcile. destruct (fragmentText t) as [txt|]; [|lia].
  destruct (snoc_cases ts) as [->|(ts0 & x & ->)]; [cbn; lia|].
  rewrite appendText_snoc. destruct (String.eqb (speaker x) who);
    rewrite !length_app; cbn [List.length]; lia.
Qed.

Lemma reconcileFinal_keeps_settled who t fs i l :
  settled fs i l -> reconcileFinal who t fs !! i = Some l.
Proof.
  intros [Hi Hset]. unfold reconcileFinal.
  destruct (fragmentText t) as [txt|]; [|exact Hi].
  destruct (snoc_cases fs) as [->|(fs0 & x & ->)]; [discriminate Hi|].
  rewrite last_snoc, removelast_last.
  rewrite length_app in Hset. cbn [List.length] in Hset.
  destruct (decide (i < List.length fs0)%nat) as [Hlt|Hge].
  - assert (Hi0 : fs0 !! i = Some l) by (rewrite lookup_app_l in Hi by lia; exact Hi).
    destruct (String.eqb (fspeaker x) who && negb (isFinal x)).
    + rewrite lookup_app_l by lia. exact Hi0.
    + rewrite <- (app_assoc fs0), lookup_app_l by lia. exact Hi0.
  - destruct Hset as [Hset|Hfin]; [lia|].
    assert (i = List.length fs0) as ->.
    { apply lookup_lt_Some in Hi. rewrite length_app in Hi. cbn in Hi. lia. }
    rewrite list_lookup_middle in Hi by reflexivity. injection Hi as ->.
    rewrite Hfin, andb_false_r.
    rewrite <- (app_assoc fs0). now apply list_lookup_middle.
Qed.

End TranscriptFacts.

(** X1. The handler never leaves two neighbouring lines with the same
    speaker: if the transcript alternates between speakers before a run of
    messages, whatever they carry, it does so after it. *)
Theorem transcript_alternates (arrivals : list (Q * Live.LiveServerMessage))
    (st : Live.State) :
  Transcript.alternating (Live.transcripts st) ->
  Transcript.alternating (Live.transcripts (fst (Live.handleAll arrivals st))).
Proof.
  revert st. induction arrivals as [|[clock m] rest IH]; intros st Hst; [exact Hst|].
  cbn [Live.handleAll].
  pose proof (onmessage_alternating clock m st Hst) as H1.
  destruct (Live.onmessage clock m st) as [st1 evs1]. cbn [fst] in H1.
  specialize (IH st1 H1). destruct (Live.handleAll rest st1) as [st2 evs2].
  exact IH.
Qed.

Lemma transcript_alternates_witness :
  Transcript.alternating
    (Live.transcripts
       (fst (Live.handleAll
               [(0%Q, Live.fragmentMessage Live.Examiner "Good ");
                (0%Q, Live.fragmentMessage Live.Examiner "morning.");
                (1%Q, Live.fragmentMessage Live.Candidate "Hello")]
               (Live.with_transcripts
                  [{| Live.speaker := "Candidate"; Live.text := "Hi" |};
                   {| Live.speaker := "Examiner"; Live.text := "Welcome. " |}]
                  Live.initial)))).
Proof.
  apply transcript_alternates. cbn. split; [discriminate|exact I].
Defined.

(** X2. No text is lost, duplicated or reordered: what a speaker has said
    according to the transcript after a transcript block is what it was
    before followed by the text of the fragment (for the speaker of the
    block; unchanged for anyone else), and after a run of fragments from an
    empty transcript it is the concatenation of that speaker's fragments. *)
Theorem transcript_keeps_text (who who' : string) (t : option Live.Transcription)
    (ts : list Live.TranscriptLine) (speaker : Live.Speaker)
    (frags : list (Live.Speaker * string)) :
  Transcript.said who' (Live.reconcile who t ts)
  = Transcript.said who' ts
    +:+ (if String.eqb who who' then Transcript.heard t else "")
  /\ Transcript.said (Live.label speaker) (Live.feed frags)
     = Transcript.sent speaker frags.
Proof. split; [apply reconcile_said|apply feed_said]. Qed.

(** X3. The transcript is append-only but for its last line: a transcript
    block never shortens the transcript and never touches a line before the
    last; in the variants with finality it does not touch the last line
    either once that line is final. *)
Theorem transcript_append_only (who : string) (t : option Live.Transcription)
    (ts : list Live.TranscriptLine) (fs : list Live.FinalLine)
    (i j : nat) (l : Live.TranscriptLine) (f : Live.FinalLine) :
  ts !! i = Some l -> (S i < List.length ts)%nat ->
  Transcript.settled fs j f ->
  Live.reconcile who t ts !! i = Some l
  /\ (List.length ts <= List.length (Live.reconcile who t ts))%nat
  /\ Live.reconcileFinal who t fs !! j = Some f
  /\ fst (Live.reconcileSaving who t fs) !! j = Some f.
Proof.
  intros Hi Hlt Hset. split; [now apply reconcile_keeps_earlier|].
  split; [apply reconcile_grows|].
  rewrite reconcileSaving_lines. split; now apply reconcileFinal_keeps_settled.
Qed.

Lemma transcript_append_only_witness :
  let ts := [{| Live.speaker := "Candidate"; Live.text := "Hi" |};
             {| Live.speaker := "Examiner"; Live.text := "Welcome" |}] in
  let fs := [{| Live.fspeaker := "Candidate"; Live.ftext := "Hi";
                Live.isFinal := true |}] in
  let t := Live.fragment " there" (Some "FINAL") in
  Live.reconcile "Examiner" t ts !! 0%nat
  = Some {| Live.speaker := "Candidate"; Live.text := "Hi" |}
  /\ (List.length ts <= List.length (Live.reconcile "Examiner" t ts))%nat
  /\ Live.reconcileFinal "Examiner" t fs !! 0%nat
     = Some {| Live.fspeaker := "Candidate"; Live.ftext := "Hi";
               Live.isFinal := true |}
  /\ fst (Live.reconcileSaving "Examiner" t fs) !! 0%nat
     = Some {| Live.fspeaker := "Candidate"; Live.ftext := "Hi";
               Live.isFinal := true |}.
Proof.
  apply (transcript_append_only "Examiner" (Live.fragment " there" (Some "FINAL"))
           [{| Live.speaker := "Candidate"; Live.text := "Hi" |};
            {| Live.speaker := "Examiner"; Live.text := "Welcome" |}]).
  - reflexivity.
  - cbn. lia.
  - split; [reflexivity|right; reflexivity].
Defined.

Section SavingFacts.
Import Live Saving.

Lemma reconcileSaving_calls who t fs :
  (fragmentText t = None -> reconcileSaving who t fs = (fs, []))
  /\ (isFinalStatus t = false -> snd (reconcileSaving who t fs) = [])
  /\ (forall txt, fragmentText t = Some txt -> isFinalStatus t = true ->
        exists l, last (fst (reconcileSaving who t fs)) = Some l
                  /\ isFinal l = true
                  /\ snd (reconcileSaving who t fs) = [(who, ftext l)]).
Proof.
  unfold reconcileSaving. split; [intros ->; reflexivity|]. split.
  - intros Hf. destruct (fragmentText t) as [txt|]; [|reflexivity]. rewrite Hf.
    destruct (last fs) as [l|]; [|reflexivity].
    destruct (_ && _); reflexivity.
  - intros txt -> Hf. rewrite Hf.
    destruct (last fs) as [l|].
    + destruct (_ && _); cbn [fst snd]; rewrite last_snoc; eexists; eauto.
    + cbn [fst snd]. rewrite last_snoc. eexists; eauto.
Qed.

End SavingFacts.

(** X4. In the version that saves line by line, a transcript block writes
    to the store exactly when its fragment carries text and is marked
    FINAL; what it writes is one row with the whole text of the line that
    has just become final, which is the last line of the transcript; with
    nobody signed in nothing is written. *)
Theorem line_saved_when_final (user sid who : string)
    (t : option Live.Transcription) (fs : list Live.FinalLine) :
  sid <> "" ->
  let after := Saving.onTranscription (Some user) (Some sid) who t fs in
  (Live.fragmentText t = None \/ Live.isFinalStatus t = false -> snd after = [])
  /\ (forall txt, Live.fragmentText t = Some txt -> Live.isFinalStatus t = true ->
        exists l, last (fst after) = Some l
                  /\ Live.isFinal l = true
                  /\ snd after = [{| user_id := user; session_id := sid;
                                     ins_speaker := who;
                                     ins_text := Live.ftext l |}])
  /\ snd (Saving.onTranscription None (Some sid) who t fs) = []
  /\ fst after = Live.reconcileFinal who t fs.
Proof.
  intros Hsid. cbv zeta. unfold Saving.onTranscription.
  destruct (reconcileSaving_calls who t fs) as (Hnone & Hnot & Hfin).
  pose proof (reconcileSaving_lines who t fs) as Hlines.
  destruct (Live.reconcileSaving who t fs) as [fs' calls]. cbn [fst snd] in *.
  split; [|split; [|split]].
  - intros [H|H]; [now injection (Hnone H) as _ ->|now rewrite (Hnot H)].
  - intros txt Htxt Hf. destruct (Hfin txt Htxt Hf) as (l & Hl & Hfl & ->).
    exists l. repeat split; try assumption.
    cbn. now rewrite (truthy_nonempty _ Hsid).
  - clear. induction calls as [|c calls IH]; [reflexivity|exact IH].
  - exact Hlines.
Qed.

Lemma line_saved_when_final_witness :
  let t := Live.fragment " today." (Some "FINAL") in
  let fs := [{| Live.fspeaker := "Candidate"; Live.ftext := "I am fine";
                Live.isFinal := false |}] in
  let after := Saving.onTranscription (Some "user-1") (Some "s-1") "Candidate" t fs in
  (Live.fragmentText t = None \/ Live.isFinalStatus t = false -> snd after = [])
  /\ (forall txt, Live.fragmentText t = Some txt -> Live.isFinalStatus t = true ->
        exists l, last (fst after) = Some l
                  /\ Live.isFinal l = true
                  /\ snd after = [{| user_id := "user-1"; session_id := "s-1";
                                     ins_speaker := "Candidate";
                                     ins_text := Live.ftext l |}])
  /\ snd (Saving.onTranscription None (Some "s-1") "Candidate" t fs) = []
  /\ fst after = Live.reconcileFinal "Candidate" t fs.
Proof.
  apply (line_saved_when_final "user-1" "s-1" "Candidate").
  discriminate.
Defined.

Section SourceSet.
Import Live Transcript.

Lemma set_add_fresh x s : ~ In x s -> set_add x s = s ++ [x].
Proof.
  intros Hx. unfold set_add.
  destruct (existsb (Nat.eqb x) s) eqn:E; [|reflexivity].
  apply existsb_exists in E as (y & Hy & Hxy).
  apply Nat.eqb_eq in Hxy. subst y. contradiction.
Qed.

Lemma set_delete_fresh x s : ~ In x s -> set_delete x s = s.
Proof.
  intros Hx. unfold set_delete. induction s as [|y s IH]; [reflexivity|].
  cbn [List.filter]. destruct (Nat.eqb x y) eqn:E.
  - apply Nat.eqb_eq in E. subst y. exfalso. apply Hx. now left.
  - cbn [negb]. f_equal. apply IH. intros H. apply Hx. now right.
Qed.

Lemma set_delete_snoc x s : ~ In x s -> set_delete x (s ++ [x]) = s.
Proof.
  intros Hx. unfold set_delete. rewrite List.filter_app. cbn [List.filter].
  rewrite Nat.eqb_refl. cbn [negb]. rewrite app_nil_r.
  now apply set_delete_fresh.
Qed.

Lemma wellFormed_fresh st : wellFormed st -> ~ In (created st) (sources st).
Proof.
  intros [Hlt _] Hin. rewrite List.Forall_forall in Hlt.
  specialize (Hlt _ Hin). lia.
Qed.

Lemma wellFormed_scheduleBuffer clock buf st :
  wellFormed st -> wellFormed (fst (scheduleBuffer clock buf st)).
Proof.
  intros Hwf. pose proof (wellFormed_fresh st Hwf) as Hfresh.
  destruct Hwf as [Hlt Hnd]. rewrite scheduleBuffer_spec. cbn [fst].
  unfold wellFormed. cbn [sources created]. rewrite (set_add_fresh _ _ Hfresh).
  split.
  - apply Forall_app. split.
    + eapply List.Forall_impl; [|exact Hlt]. cbn. intros; lia.
    + constructor; [lia|constructor].
  - apply NoDup_app. split; [exact Hnd|]. split.
    + intros x Hx Hx'. apply list_elem_of_In in Hx, Hx'.
      destruct Hx' as [<-|[]]. contradiction.
    + apply NoDup_singleton.
Qed.

Lemma wellFormed_with_transcripts ts st :
  wellFormed st -> wellFormed (with_transcripts ts st).
Proof. intros H; exact H. Qed.

Lemma wellFormed_onInterrupted st :
  wellFormed st -> wellFormed (fst (onInterrupted st)).
Proof.
  intros _. rewrite onInterrupted_spec. split; cbn; constructor.
Qed.

Lemma wellFormed_onended x st : wellFormed st -> wellFormed (onended x st).
Proof.
  intros [Hlt Hnd]. unfold wellFormed, onended. cbn [sources created].
  unfold set_delete. split.
  - rewrite List.Forall_forall in *. intros y Hy.
    apply List.filter_In in Hy as [Hy _]. auto.
  - clear Hlt. induction Hnd as [|y l Hy Hnd IH]; [constructor|].
    cbn [List.filter]. destruct (negb _); [|exact IH].
    constructor; [|exact IH]. intros Hin. apply Hy.
    apply list_elem_of_In in Hin. apply List.filter_In in Hin as [Hin _].
    now apply list_elem_of_In.
Qed.

Lemma wellFormed_onmessage clock m st :
  wellFormed st -> wellFormed (fst (onmessage clock m st)).
Proof.
  intros Hwf. unfold onmessage. destruct (serverContent m) as [sc|]; [|exact Hwf].
  assert (Hrest : forall st1 evs1, wellFormed st1 ->
    wellFormed (fst (
      let ts := reconcile (label Examiner) (outputTranscription sc)
                  (reconcile (label Candidate) (inputTranscription sc)
                     (transcripts st1)) in
      let st2 := with_transcripts ts st1 in
      if interrupted sc then
        let '(st3, evs3) := onInterrupted st2 in (st3, evs1 ++ evs3)
      else (st2, evs1)))).
  { intros st1 evs1 H1. cbv zeta. destruct (interrupted sc); [|exact H1].
    match goal with |- context [onInterrupted ?s] =>
      pose proof (wellFormed_onInterrupted s H1) as H3;
      destruct (onInterrupted s) as [st3 evs3] end.
    exact H3. }
  destruct (inlineData sc) as [payload|]; [|now apply Hrest].
  destruct (decodeInline payload) as [buf|]; [|exact Hwf].
  pose proof (wellFormed_scheduleBuffer clock buf st Hwf) as H1.
  destruct (scheduleBuffer clock buf st) as [st1 evs1]. now apply Hrest.
Qed.

Lemma wellFormed_handleAll arrivals st :
  wellFormed st -> wellFormed (fst (handleAll arrivals st)).
Proof.
  revert st. induction arrivals as [|[clock m] rest IH]; intros st Hst; [exact Hst|].
  cbn [handleAll].
  pose proof (wellFormed_onmessage clock m st Hst) as H1.
  destruct (onmessage clock m st) as [st1 evs1]. cbn [fst] in H1.
  specialize (IH st1 H1). destruct (handleAll rest st1) as [st2 evs2].
  exact IH.
Qed.

Lemma wellFormed_initial : wellFormed initial.
Proof. split; constructor. Qed.

Lemma wellFormed_play arrivals st :
  wellFormed st -> wellFormed (play arrivals st).
Proof.
  revert st. induction arrivals as [|[clock m|x] rest IH]; intros st Hst;
    [exact Hst| |]; cbn [play]; apply IH.
  - now apply wellFormed_onmessage.
  - now apply wellFormed_onended.
Qed.

End SourceSet.

(** X5. The set of live sources holds only sources that were created, each
    once, from the initial state through any run of messages and 'ended'
    events; in such a state a buffer that is scheduled enters the set as a
    new member, and its 'ended' event puts the set back as it was. *)
Theorem source_set_round_trip (arrivals : list Transcript.Arrival)
    (clock : Q) (buf : Codec.AudioBuffer) :
  let st := Transcript.play arrivals Live.initial in
  let playing := fst (Live.scheduleBuffer clock buf st) in
  Transcript.wellFormed st
  /\ Live.sources playing = Live.sources st ++ [Live.created st]
  /\ ~ In (Live.created st) (Live.sources st)
  /\ Live.sources (Live.onended (Live.created st) playing) = Live.sources st.
Proof.
  cbv zeta.
  pose proof (wellFormed_play arrivals _ wellFormed_initial) as Hwf.
  split; [exact Hwf|].
  pose proof (wellFormed_fresh _ Hwf) as Hfresh.
  rewrite scheduleBuffer_spec. cbn [fst Live.sources Live.onended].
  rewrite (set_add_fresh _ _ Hfresh). split; [reflexivity|].
  split; [exact Hfresh|]. now apply set_delete_snoc.
Qed.

Section Anchor.
Import Live.
Local Open Scope Q_scope.

Lemma onmessage_anchor clock m st :
  (forall sc, serverContent m = Some sc -> interrupted sc = false) ->
  nextStartTime st <= nextStartTime (fst (onmessage clock m st)).
Proof.
  intros Hquiet. unfold onmessage.
  destruct (serverContent m) as [sc|]; [|apply Qle_refl].
  rewrite (Hquiet sc eq_refl).
  destruct (inlineData sc) as [payload|]; [|apply Qle_refl].
  destruct (decodeInline payload) as [buf|] eqn:Hdec.
  - rewrite scheduleBuffer_spec. cbn [fst nextStartTime with_transcripts].
    apply decodeInline_duration in Hdec.
    pose proof (max_time_ge_l (nextStartTime st) clock) as Hmax.
    apply Qle_trans with (max_time (nextStartTime st) clock); [exact Hmax|].
    apply add_ge_l, durationOf_nonneg, Hdec.
  - cbn [fst anchor nextStartTime]. apply max_time_ge_l.
Qed.

End Anchor.

(** X6. The playback cursor only ever moves back on an interruption: a
    run of messages none of which carries the interruption flag leaves
    [nextStartTime] at or after where it was, whatever the clock readings
    and payloads are. *)
Theorem cursor_never_moves_back (arrivals : list (Q * Live.LiveServerMessage))
    (st : Live.State) :
  Forall (fun a => forall sc, Live.serverContent (snd a) = Some sc ->
                              Live.interrupted sc = false) arrivals ->
  (Live.nextStartTime st
   <= Live.nextStartTime (fst (Live.handleAll arrivals st)))%Q.
Proof.
  revert st. induction arrivals as [|[clock m] rest IH]; intros st Hall.
  - apply Qle_refl.
  - apply Forall_cons in Hall as [Hm Hrest]. cbn [snd] in Hm.
    cbn [Live.handleAll].
    pose proof (onmessage_anchor clock m st Hm) as H1.
    destruct (Live.onmessage clock m st) as [st1 evs1]. cbn [fst] in H1.
    specialize (IH st1 Hrest). destruct (Live.handleAll rest st1) as [st2 evs2].
    cbn [fst] in *. eapply Qle_trans; eassumption.
Qed.

Lemma cursor_never_moves_back_witness :
  (Live.nextStartTime (Live.initAudio 5 Live.initial)
   <= Live.nextStartTime
        (fst (Live.handleAll
                [(2%Q, Live.audioMessage "AAAA");
                 (3%Q, Live.fragmentMessage Live.Examiner "Hello")]
                (Live.initAudio 5 Live.initial))))%Q.
Proof.
  apply cursor_never_moves_back.
  repeat constructor; cbn; intros sc [= <-]; reflexivity.
Defined.

(** X7. A message whose audio payload does not decode is lost as a whole:
    the handler has moved the cursor up to the clock and does nothing
    else, so the transcript fragments of the message are not recorded and
    its interruption flag stops no source. *)
Theorem corrupt_audio_drops_message (clock : Q) (sc : Live.ServerContent)
    (payload : string) (st : Live.State) :
  Live.inlineData sc = Some payload ->
  Live.decodeInline payload = None ->
  let after := Live.onmessage clock {| Live.serverContent := Some sc |} st in
  snd after = []
  /\ Live.transcripts (fst after) = Live.transcripts st
  /\ Live.sources (fst after) = Live.sources st
  /\ Live.created (fst after) = Live.created st
  /\ Live.nextStartTime (fst after) = Live.max_time (Live.nextStartTime st) clock.
Proof.
  intros Hdata Hdec. cbv zeta. unfold Live.onmessage.
  cbn [Live.serverContent]. rewrite Hdata, Hdec. cbn. auto.
Qed.

Lemma corrupt_audio_drops_message_witness :
  let sc := {| Live.inlineData := Some "!";
               Live.inputTranscription := Live.fragment "Hello" None;
               Live.outputTranscription := None;
               Live.interrupted := true |} in
  let st := fst (Live.scheduleBuffer 0 (Live.silence 3) Live.initial) in
  let after := Live.onmessage 0 {| Live.serverContent := Some sc |} st in
  snd after = []
  /\ Live.transcripts (fst after) = Live.transcripts st
  /\ Live.sources (fst after) = Live.sources st
  /\ Live.created (fst after) = Live.created st
  /\ Live.nextStartTime (fst after) = Live.max_time (Live.nextStartTime st) 0.
Proof.
  apply (corrupt_audio_drops_message 0 _ "!"); reflexivity.
Defined.

(* ================================================================== *)
(** * Starting and stopping, step by step                              *)
(* ================================================================== *)

Section Releasing.
Import App Flow.

Lemma markPart2Finished_events s : snd (exec markPart2Finished s) = [].
Proof.
  unfold markPart2Finished. rewrite exec_get_bind.
  destruct (isPart2 (currentPart s) && truthy_str (part2Topic s)); reflexivity.
Qed.

Lemma cancelPartTimer_events s :
  snd (exec cancelPartTimer s) = cleared (part2TimerInterval s).
Proof.
  unfold cancelPartTimer. rewrite exec_get_bind.
  destruct (part2TimerInterval s); reflexivity.
Qed.

Lemma cancelCreditPoll_events s :
  snd (exec cancelCreditPoll s) = cleared (creditUsageInterval s).
Proof.
  unfold cancelCreditPoll. rewrite exec_get_bind.
  destruct (creditUsageInterval s); reflexivity.
Qed.

Lemma persistTranscript_events env s :
  snd (exec (persistTranscript env) s) = persisted env s.
Proof.
  unfold persistTranscript, persisted. rewrite exec_get_bind.
  destruct (transcripts s) as [|l ls] eqn:Hts; [reflexivity|].
  rewrite events_then. f_equal.
  unfold saveCurrentSessionHistory. rewrite exec_get_bind.
  destruct (supabaseSession s) as [user|]; [|reflexivity].
  destruct (currentSessionId s) as [sid|]; [|reflexivity].
  cbn [truthy_str]. destruct (Live.truthy sid); [|reflexivity].
  cbn [negb]. rewrite Hts. rewrite exec_emit_bind. cbn [snd]. f_equal.
  destruct (insertReply env); reflexivity.
Qed.

Lemma closeSession_events s :
  snd (exec closeSession s)
  = match session s with
    | Some ss => [SessionClose (connection ss)]
    | None => []
    end.
Proof.
  unfold closeSession. rewrite exec_get_bind. destruct (session s); reflexivity.
Qed.

Lemma disconnectCapture_events s :
  snd (exec disconnectCapture s)
  = if isSome (scriptProcessorNode s) && isSome (sourceNode s)
    then [DisconnectProcessor; DisconnectSource] else [].
Proof.
  unfold disconnectCapture. rewrite exec_get_bind.
  unfold inputAudioContext. rewrite andb_true_r.
  destruct (isSome (scriptProcessorNode s) && isSome (sourceNode s)); reflexivity.
Qed.

Lemma releaseMedia_events s :
  snd (exec releaseMedia s)
  = match mediaStream s with
    | Some stream => [TrackStop stream]
    | None => []
    end.
Proof.
  unfold releaseMedia. rewrite exec_get_bind. destruct (mediaStream s); reflexivity.
Qed.

Lemma persisted_ext env s s' :
  transcripts s' = transcripts s -> supabaseSession s' = supabaseSession s ->
  currentSessionId s' = currentSessionId s ->
  persisted env s' = persisted env s.
Proof. intros H1 H2 H3. unfold persisted. now rewrite H1, H2, H3. Qed.

Lemma saveCurrentSessionHistory_keeps {C} (f : State -> C) env :
  (forall v s, f (set_chatHistory v s) = f s) ->
  keeps f (saveCurrentSessionHistory env).
Proof.
  intros Hf. unfold saveCurrentSessionHistory.
  apply keeps_bind; [apply keeps_get|]. intros s.
  destruct (supabaseSession s); [|apply keeps_skip].
  destruct (negb _); [apply keeps_skip|].
  destruct (currentSessionId s); [|apply keeps_skip].
  destruct (transcripts s); [apply keeps_skip|].
  apply keeps_bind; [apply keeps_emit|]. intros ?.
  destruct (insertReply env); [apply keeps_emit| |apply keeps_skip].
  apply keeps_modify. intros ?. apply Hf.
Qed.

Lemma persistTranscript_keeps {C} (f : State -> C) env :
  (forall v s, f (set_chatHistory v s) = f s) ->
  keeps f (persistTranscript env).
Proof.
  intros Hf. unfold persistTranscript.
  apply keeps_bind; [apply keeps_get|]. intros s.
  destruct (transcripts s); [apply keeps_skip|].
  apply keeps_bind; [now apply saveCurrentSessionHistory_keeps|].
  intros ?. apply keeps_emit.
Qed.

Lemma release_events env s : snd (exec (release env) s) = released env s.
Proof.
  unfold release, released.
  rewrite events_then, markPart2Finished_events. cbn [app].
  set (s1 := fst (exec markPart2Finished s)).
  rewrite events_then, cancelPartTimer_events.
  set (s2 := fst (exec cancelPartTimer s1)).
  rewrite events_then, cancelCreditPoll_events.
  set (s3 := fst (exec cancelCreditPoll s2)).
  rewrite events_then, persistTranscript_events.
  set (s4 := fst (exec (persistTranscript env) s3)).
  rewrite events_then, exec_modify. cbn [fst snd app].
  rewrite events_then, closeSession_events.
  set (s6 := fst (exec closeSession _)).
  rewrite events_then, disconnectCapture_events, releaseMedia_events.
  set (s7 := fst (exec disconnectCapture s6)).
  assert (K1 : forall {C} (f : State -> C),
             keeps f markPart2Finished -> f s1 = f s) by (intros C f K; apply K).
  assert (K2 : forall {C} (f : State -> C),
             keeps f cancelPartTimer -> f s2 = f s1) by (intros C f K; apply K).
  assert (K3 : forall {C} (f : State -> C),
             keeps f cancelCreditPoll -> f s3 = f s2) by (intros C f K; apply K).
  assert (K4 : forall {C} (f : State -> C),
             keeps f (persistTranscript env) -> f s4 = f s3)
    by (intros C f K; apply K).
  assert (K6 : forall {C} (f : State -> C),
             keeps f closeSession -> f s6 = f (set_isRecording false s4))
    by (intros C f K; apply K).
  assert (K7 : forall {C} (f : State -> C),
             keeps f disconnectCapture -> f s7 = f s6) by (intros C f K; apply K).
  rewrite (K1 _ part2TimerInterval) by keeps_auto.
  rewrite (K2 _ creditUsageInterval), (K1 _ creditUsageInterval) by keeps_auto.
  rewrite (persisted_ext env s s3).
  2:{ rewrite (K3 _ transcripts), (K2 _ transcripts), (K1 _ transcripts)
        by keeps_auto. reflexivity. }
  2:{ rewrite (K3 _ supabaseSession), (K2 _ supabaseSession),
        (K1 _ supabaseSession) by keeps_auto. reflexivity. }
  2:{ rewrite (K3 _ currentSessionId), (K2 _ currentSessionId),
        (K1 _ currentSessionId) by keeps_auto. reflexivity. }
  change (session (set_isRecording false s4)) with (session s4).
  rewrite (K4 _ session) by (apply persistTranscript_keeps; reflexivity).
  rewrite (K3 _ session), (K2 _ session), (K1 _ session) by keeps_auto.
  rewrite (K6 _ scriptProcessorNode), (K6 _ sourceNode) by keeps_auto.
  change (scriptProcessorNode (set_isRecording false s4))
    with (scriptProcessorNode s4).
  change (sourceNode (set_isRecording false s4)) with (sourceNode s4).
  rewrite (K4 _ scriptProcessorNode), (K4 _ sourceNode)
    by (apply persistTranscript_keeps; reflexivity).
  rewrite (K3 _ scriptProcessorNode), (K2 _ scriptProcessorNode),
    (K1 _ scriptProcessorNode) by keeps_auto.
  rewrite (K3 _ sourceNode), (K2 _ sourceNode), (K1 _ sourceNode) by keeps_auto.
  rewrite (K7 _ mediaStream), (K6 _ mediaStream) by keeps_auto.
  change (mediaStream (set_isRecording false s4)) with (mediaStream s4).
  rewrite (K4 _ mediaStream) by (apply persistTranscript_keeps; reflexivity).
  rewrite (K3 _ mediaStream), (K2 _ mediaStream), (K1 _ mediaStream) by keeps_auto.
  reflexivity.
Qed.

Lemma stopRecording_events env s :
  snd (exec (stopRecording env) s) = released env s.
Proof. rewrite stopRecording_release. apply release_events. Qed.

Lemma stopped_atRest s : stopped s -> atRest s.
Proof. intros (H1 & H2 & H3 & H4 & H5 & H6 & _). repeat split; assumption. Qed.

End Releasing.

(** X8. Stopping releases exactly what is held, in a fixed order, whatever
    the state it is called in: the part-2 countdown and the credit poll are
    cleared if set, a transcript that is not empty is written to the store
    and the feedback run is asked for, the session is closed if there is
    one, the capture nodes are disconnected if both exist and the
    microphone track is stopped if there is a stream; afterwards nothing is
    held. *)
Theorem stop_releases_in_order (env : Env) (s : App.State) :
  snd (exec (App.stopRecording env) s) = Flow.released env s
  /\ Flow.atRest (fst (exec (App.stopRecording env) s))
  /\ App.part2TimerInterval (fst (exec (App.stopRecording env) s)) = None.
Proof.
  split; [apply stopRecording_events|].
  pose proof (stopRecording_stopped env s) as H.
  split; [now apply stopped_atRest|apply H].
Qed.

Section Acquiring.
Import App Flow.

Lemma startRecording_exec instruction modalities env s c stream :
  creditsExhausted s = false -> isRecording s = false -> client s = true ->
  connect env = Some c -> userMedia env = Some stream ->
  exec (startRecording instruction modalities env) s
  = (recordingFrom instruction modalities env c stream s,
     acquired instruction modalities env stream).
Proof.
  intros Hcred Hrec Hc Hconn Hmedia. unfold startRecording.
  rewrite exec_get_bind, Hcred, Hrec. rewrite !exec_modify_bind.
  erewrite exec_then; [|rewrite initSession_connects by exact Hc; rewrite Hconn;
                        reflexivity].
  rewrite exec_get_bind. cbn [session set_session isSome negb].
  rewrite !exec_emit_bind, Hmedia.
  rewrite !exec_modify_bind, exec_emit_bind.
  rewrite !exec_modify_bind, exec_emit. reflexivity.
Qed.

Lemma startRecording_refused instruction modalities env s c :
  creditsExhausted s = false -> isRecording s = false -> client s = true ->
  connect env = Some c -> userMedia env = None ->
  let opened :=
    set_session (Some {| connection := c; systemInstruction := instruction;
                         responseModalities := modalities |})
      (set_currentSessionId (Some (uuid env)) (set_transcripts [] s)) in
  exec (startRecording instruction modalities env) s
  = (fst (exec (stopRecording env) opened),
     [Connect instruction modalities; InputContextResume; GetUserMedia;
      ConsoleError "Error starting recording:"]
     ++ released env opened).
Proof.
  intros Hcred Hrec Hc Hconn Hmedia. cbv zeta. unfold startRecording.
  rewrite exec_get_bind, Hcred, Hrec. rewrite !exec_modify_bind.
  erewrite exec_then; [|rewrite initSession_connects by exact Hc; rewrite Hconn;
                        reflexivity].
  rewrite exec_get_bind. cbn [session set_session isSome negb].
  rewrite !exec_emit_bind, Hmedia. rewrite exec_emit_bind.
  cbn [fst snd app]. rewrite stopRecording_events. reflexivity.
Qed.

End Acquiring.

(** X9. Round trip of a recording.  A start that gets its connection and
    the microphone issues exactly: connect, resume of the input context,
    the microphone request, the wiring of the capture nodes and the
    credit-poll timer; stopping right after releases exactly those (the
    timer, the connection, the two nodes, the stream), writes nothing to
    the store, and leaves nothing held. *)
Theorem start_stop_round_trip (instruction : string) (modalities : list Modality)
    (env env' : Env) (s : App.State) (c stream : nat) :
  App.creditsExhausted s = false -> App.isRecording s = false ->
  App.client s = true -> App.part2TimerInterval s = None ->
  connect env = Some c -> userMedia env = Some stream ->
  let started := exec (App.startRecording instruction modalities env) s in
  let stopped := exec (App.stopRecording env') (fst started) in
  started = (Flow.recordingFrom instruction modalities env c stream s,
             [Connect instruction modalities; InputContextResume; GetUserMedia;
              WireCapture stream 4096;
              SetInterval CreditPoll (timer env) 10000])
  /\ snd stopped = [ClearInterval (timer env); SessionClose c;
                    DisconnectProcessor; DisconnectSource; TrackStop stream]
  /\ Flow.atRest (fst stopped)
  /\ App.transcripts (fst stopped) = []
  /\ App.currentSessionId (fst stopped) = Some (uuid env).
Proof.
  intros Hcred Hrec Hc Htimer Hconn Hmedia. cbv zeta.
  rewrite (startRecording_exec instruction modalities env s c stream
             Hcred Hrec Hc Hconn Hmedia).
  split; [reflexivity|]. cbn [fst].
  split; [|split; [|split]].
  - rewrite stopRecording_events. unfold Flow.released, Flow.recordingFrom.
    cbn [App.part2TimerInterval App.creditUsageInterval App.session
         App.scriptProcessorNode App.sourceNode App.mediaStream
         App.set_creditUsageInterval App.set_isRecording
         App.set_scriptProcessorNode App.set_sourceNode App.set_mediaStream
         App.set_session App.set_currentSessionId App.set_transcripts
         App.set_live].
    rewrite Htimer. reflexivity.
  - apply stopped_atRest, stopRecording_stopped.
  - rewrite stopRecording_release.
    assert (K : keeps App.transcripts (App.release env')).
    { unfold App.release. keeps_step; [keeps_auto|]. keeps_step; [keeps_auto|].
      keeps_step; [keeps_auto|].
      keeps_step; [apply persistTranscript_keeps; reflexivity|]. keeps_auto. }
    rewrite K. reflexivity.
  - rewrite stopRecording_release.
    assert (K : keeps App.currentSessionId (App.release env')).
    { unfold App.release. keeps_step; [keeps_auto|]. keeps_step; [keeps_auto|].
      keeps_step; [keeps_auto|].
      keeps_step; [apply persistTranscript_keeps; reflexivity|]. keeps_auto. }
    rewrite K. reflexivity.
Qed.

Lemma start_stop_round_trip_witness :
  let s := App.onLogin "user-1" 0 App.initial in
  let started := exec (App.startRecording App.PART1_INSTRUCTION [AUDIO]
                         Scenario.online) s in
  let stopped := exec (App.stopRecording Scenario.offline) (fst started) in
  started = (Flow.recordingFrom App.PART1_INSTRUCTION [AUDIO] Scenario.online
               1%nat 7%nat s,
             [Connect App.PART1_INSTRUCTION [AUDIO]; InputContextResume;
              GetUserMedia; WireCapture 7%nat 4096;
              SetInterval CreditPoll (timer Scenario.online) 10000])
  /\ snd stopped = [ClearInterval (timer Scenario.online); SessionClose 1%nat;
                    DisconnectProcessor; DisconnectSource; TrackStop 7%nat]
  /\ Flow.atRest (fst stopped)
  /\ App.transcripts (fst stopped) = []
  /\ App.currentSessionId (fst stopped) = Some (uuid Scenario.online).
Proof.
  apply (start_stop_round_trip App.PART1_INSTRUCTION [AUDIO] Scenario.online
           Scenario.offline (App.onLogin "user-1" 0 App.initial) 1%nat 7%nat);
    reflexivity.
Defined.

(** X10. A refused microphone undoes the start: the connection that was
    just opened is closed again and nothing is held afterwards; but the
    stop that does this also runs the Part 2 bookkeeping, so a refusal at
    the start of the Part 2 talk marks Part 2 as finished and carries the
    topic to Part 3 although nothing was recorded. *)
Theorem microphone_refused (instruction : string) (modalities : list Modality)
    (env : Env) (s : App.State) (c : nat) :
  App.creditsExhausted s = false -> Flow.atRest s -> App.client s = true ->
  connect env = Some c -> userMedia env = None ->
  let after := exec (App.startRecording instruction modalities env) s in
  snd after
  = [Connect instruction modalities; InputContextResume; GetUserMedia;
     ConsoleError "Error starting recording:"]
    ++ Flow.cleared (App.part2TimerInterval s) ++ [SessionClose c]
  /\ Flow.atRest (fst after)
  /\ (forall topic, App.currentPart s = Some App.part2 ->
        App.part2Topic s = Some topic -> topic <> "" ->
        App.part2State (fst after) = App.finished
        /\ App.part2TopicForPart3 (fst after) = Some topic).
Proof.
  intros Hcred (Hrec & Hsess & Hms & Hsrc & Hsp & Hcu) Hc Hconn Hmedia. cbv zeta.
  rewrite (startRecording_refused instruction modalities env s c
             Hcred Hrec Hc Hconn Hmedia).
  cbn [fst snd]. split; [|split].
  - f_equal. unfold Flow.released, Flow.persisted.
    cbn [App.part2TimerInterval App.creditUsageInterval App.session
         App.scriptProcessorNode App.sourceNode App.mediaStream App.transcripts
         App.live Live.transcripts Live.with_transcripts
         App.set_session App.set_currentSessionId App.set_transcripts
         App.set_live connection].
    rewrite Hcu, Hsp, Hsrc, Hms. cbn. rewrite ?app_nil_r. reflexivity.
  - apply stopped_atRest, stopRecording_stopped.
  - intros topic Hp Ht Hne.
    match goal with |- context [exec (App.stopRecording env) ?o] =>
      destruct (stopRecording_finishes_part2 env o topic Hp Ht Hne) as [H1 H2] end.
    split; assumption.
Qed.

Lemma microphone_refused_witness :
  let env := {| uuid := "u-2"; connect := Some 5%nat; userMedia := None;
                timer := 3%nat; countdown := 4%nat; insertReply := Nothing;
                rpcReply := Nothing; generated := None |} in
  let s := App.onLogin "user-1" 0 App.initial in
  let after := exec (App.startRecording App.PART2_INSTRUCTION [AUDIO] env) s in
  snd after
  = [Connect App.PART2_INSTRUCTION [AUDIO]; InputContextResume; GetUserMedia;
     ConsoleError "Error starting recording:"]
    ++ Flow.cleared (App.part2TimerInterval s) ++ [SessionClose 5%nat]
  /\ Flow.atRest (fst after)
  /\ (forall topic, App.currentPart s = Some App.part2 ->
        App.part2Topic s = Some topic -> topic <> "" ->
        App.part2State (fst after) = App.finished
        /\ App.part2TopicForPart3 (fst after) = Some topic).
Proof.
  apply (microphone_refused App.PART2_INSTRUCTION [AUDIO]
           {| uuid := "u-2"; connect := Some 5%nat; userMedia := None;
              timer := 3%nat; countdown := 4%nat; insertReply := Nothing;
              rpcReply := Nothing; generated := None |}
           (App.onLogin "user-1" 0 App.initial) 5%nat);
    try reflexivity.
  repeat split.
Defined.

(* ================================================================== *)
(** * What is held while recording                                     *)
(* ================================================================== *)

Section Held.
Import App Flow.

Lemma consistent_ext s s' :
  isRecording s' = isRecording s -> session s' = session s ->
  mediaStream s' = mediaStream s -> sourceNode s' = sourceNode s ->
  scriptProcessorNode s' = scriptProcessorNode s ->
  creditUsageInterval s' = creditUsageInterval s ->
  consistent s -> consistent s'.
Proof.
  intros H1 H2 H3 H4 H5 H6. unfold consistent.
  now rewrite H1, H2, H3, H4, H5, H6.
Qed.

Lemma stable_consistent {A} (m : Act State A) :
  keeps isRecording m -> keeps session m -> keeps mediaStream m ->
  keeps sourceNode m -> keeps scriptProcessorNode m ->
  keeps creditUsageInterval m -> stable consistent m.
Proof.
  intros K1 K2 K3 K4 K5 K6 s. apply consistent_ext; [apply K1|apply K2|apply K3|
    apply K4|apply K5|apply K6].
Qed.

Lemma atRest_consistent s : atRest s -> consistent s.
Proof.
  intros (H1 & H2 & H3 & H4 & H5 & H6). unfold consistent. rewrite H1.
  repeat split; assumption.
Qed.

Lemma consistent_atRest s : consistent s -> isRecording s = false -> atRest s.
Proof.
  unfold consistent. intros H Hrec. rewrite Hrec in H.
  destruct H as (H2 & H3 & H4 & H5 & H6). repeat split; assumption.
Qed.

Lemma stopRecording_consistent env s :
  consistent (fst (exec (stopRecording env) s)).
Proof. apply atRest_consistent, stopped_atRest, stopRecording_stopped. Qed.

Ltac held := apply stable_consistent; keeps_auto.

Lemma stopCurrentSession_held env : stable consistent (stopCurrentSession env).
Proof.
  intros s Hs. unfold stopCurrentSession. rewrite exec_get_bind.
  destruct (isRecording s); [apply stopRecording_consistent|exact Hs].
Qed.

Lemma startRecording_held instruction modalities env :
  stable consistent (startRecording instruction modalities env).
Proof.
  intros s Hs.
  destruct (creditsExhausted s) eqn:Hcred.
  { unfold startRecording. rewrite exec_get_bind, Hcred. exact Hs. }
  destruct (isRecording s) eqn:Hrec.
  { unfold startRecording. rewrite exec_get_bind, Hcred, Hrec. exact Hs. }
  pose proof (consistent_atRest s Hs Hrec) as Hidle.
  destruct (client s) eqn:Hc.
  - destruct (connect env) as [c|] eqn:Hconn.
    + destruct (userMedia env) as [stream|] eqn:Hmedia.
      * rewrite (startRecording_exec instruction modalities env s c stream)
          by assumption.
        unfold consistent. cbn. repeat split.
      * rewrite (startRecording_refused instruction modalities env s c)
          by assumption.
        apply stopRecording_consistent.
    + rewrite (app_start_no_session instruction modalities env s Hcred Hrec)
        by (try apply Hidle; now right).
      cbn [fst]. revert Hs. now apply consistent_ext.
  - rewrite (app_start_no_session instruction modalities env s Hcred Hrec)
      by (try apply Hidle; now left).
    cbn [fst]. revert Hs. now apply consistent_ext.
Qed.

Lemma handlePartSelect_held part env :
  stable consistent (handlePartSelect part env).
Proof.
  unfold handlePartSelect. apply stable_bind; [apply stopCurrentSession_held|].
  intros ?. held.
Qed.

Lemma generateCueCard_held env : stable consistent (generateCueCard env).
Proof. unfold generateCueCard, startPart2Preparation. held. Qed.

Lemma handleStartPart_held env : stable consistent (handleStartPart env).
Proof.
  unfold handleStartPart.
  apply stable_bind; [held|]. intros ?.
  apply stable_bind; [held|]. intros s.
  destruct (currentPart s) as [[| |]|].
  - apply startRecording_held.
  - apply stable_bind; [held|]. intros ?.
    apply stable_bind; [held|]. intros ?.
    apply generateCueCard_held.
  - destruct (part2TopicForPart3 s) as [topic|]; [|held].
    destruct (Live.truthy topic); [apply startRecording_held|held].
  - held.
Qed.

Lemma clearPart2Timer_held : stable consistent clearPart2Timer.
Proof. unfold clearPart2Timer. held. Qed.

Lemma startPart2SpeakingSession_held env :
  stable consistent (startPart2SpeakingSession env).
Proof.
  unfold startPart2SpeakingSession.
  apply stable_bind; [held|]. intros ?.
  apply stable_bind; [held|]. intros ?.
  apply stable_bind; [apply startRecording_held|]. intros ?.
  held.
Qed.

Lemma preparationTick_held env : stable consistent (preparationTick env).
Proof.
  unfold preparationTick.
  apply stable_bind; [held|]. intros ?.
  apply stable_bind; [held|]. intros s.
  destruct (part2PreparationTimeLeft s <=? 0); [|held].
  cbn [when]. apply stable_bind; [apply clearPart2Timer_held|]. intros ?.
  apply startPart2SpeakingSession_held.
Qed.

Lemma speakingTick_held env : stable consistent (speakingTick env).
Proof.
  unfold speakingTick.
  apply stable_bind; [held|]. intros ?.
  apply stable_bind; [held|]. intros s.
  destruct (part2SpeakingTimeLeft s <=? 0); [|held].
  cbn [when]. apply stable_bind; [apply clearPart2Timer_held|]. intros ?.
  apply stopCurrentSession_held.
Qed.

Lemma deductCredits_held env : stable consistent (deductCredits env).
Proof.
  unfold deductCredits.
  apply stable_bind; [held|]. intros s.
  destruct (negb (isRecording s) || negb (isSome (userCredits s))); [held|].
  apply stable_bind; [held|]. intros ?.
  destruct (rpcReply env) as [msg|balance|].
  - held.
  - apply stable_bind; [held|]. intros ?.
    destruct (balance <=? 0); [|held].
    cbn [when]. apply stable_bind; [apply stopCurrentSession_held|]. intros ?.
    held.
  - apply stable_bind; [held|]. intros ?.
    apply stable_bind; [apply stopCurrentSession_held|]. intros ?.
    held.
Qed.

Lemma handleVisualizerClick_held env :
  stable consistent (handleVisualizerClick env).
Proof.
  unfold handleVisualizerClick.
  apply stable_bind; [held|]. intros s.
  destruct (isRecording s).
  - intros s' _. apply stopRecording_consistent.
  - destruct (currentPart s); [apply handlePartSelect_held|held].
Qed.

Lemma onmessage_held clock message : stable consistent (onmessage clock message).
Proof.
  intros s Hs. unfold onmessage, exec. cbn [run].
  destruct (Live.onmessage clock message (live s)) as [l evs]. exact Hs.
Qed.

Lemma result_bind {S A B} (m : Act S A) (k : A -> Act S B) s :
  result (m ≫= k) s = result (k (result m s)) (fst (exec m s)).
Proof.
  unfold exec, result, mbind, act_bind. cbn [run].
  destruct (run m s) as [[x s1] e1]. cbn [fst snd].
  destruct (run (k x) s1) as [[y s2] e2]. reflexivity.
Qed.

Lemma set_session_same s : session s = None -> set_session None s = s.
Proof. destruct s. cbn. now intros ->. Qed.

Lemma set_mediaStream_same s : mediaStream s = None -> set_mediaStream None s = s.
Proof. destruct s. cbn. now intros ->. Qed.

Lemma set_part2TimerInterval_same s :
  part2TimerInterval s = None -> set_part2TimerInterval None s = s.
Proof. destruct s. cbn. now intros ->. Qed.

Lemma set_creditUsageInterval_same s :
  creditUsageInterval s = None -> set_creditUsageInterval None s = s.
Proof. destruct s. cbn. now intros ->. Qed.

Lemma markPart2Finished_exec s : exec markPart2Finished s = (marked s, []).
Proof.
  unfold markPart2Finished, marked. rewrite exec_get_bind.
  destruct (isPart2 (currentPart s) && truthy_str (part2Topic s)); cbn [when];
    [rewrite exec_modify_bind, exec_modify|]; reflexivity.
Qed.

Lemma cancelPartTimer_exec s :
  exec cancelPartTimer s
  = (set_part2TimerInterval None s, cleared (part2TimerInterval s)).
Proof.
  unfold cancelPartTimer. rewrite exec_get_bind.
  destruct (part2TimerInterval s) eqn:H.
  - rewrite exec_emit_bind, exec_modify. reflexivity.
  - now rewrite set_part2TimerInterval_same.
Qed.

Lemma cancelCreditPoll_exec s :
  exec cancelCreditPoll s
  = (set_creditUsageInterval None s, cleared (creditUsageInterval s)).
Proof.
  unfold cancelCreditPoll. rewrite exec_get_bind.
  destruct (creditUsageInterval s) eqn:H.
  - rewrite exec_emit_bind, exec_modify. reflexivity.
  - now rewrite set_creditUsageInterval_same.
Qed.

Lemma closeSession_exec s : exec closeSession s = (set_session None s, closed s).
Proof.
  unfold closeSession, closed. rewrite exec_get_bind.
  destruct (session s) eqn:H.
  - rewrite exec_emit_bind, exec_modify. reflexivity.
  - now rewrite set_session_same.
Qed.

Lemma releaseMedia_exec s :
  exec releaseMedia s
  = (set_mediaStream None s,
     match mediaStream s with Some stream => [TrackStop stream] | None => [] end).
Proof.
  unfold releaseMedia. rewrite exec_get_bind.
  destruct (mediaStream s) eqn:H.
  - rewrite exec_emit_bind, exec_modify. reflexivity.
  - now rewrite set_mediaStream_same.
Qed.

Lemma disconnectCapture_exec s :
  exec disconnectCapture s
  = (set_sourceNode None (set_scriptProcessorNode None s),
     if isSome (scriptProcessorNode s) && isSome (sourceNode s)
     then [DisconnectProcessor; DisconnectSource] else []).
Proof.
  unfold disconnectCapture. rewrite exec_get_bind.
  unfold inputAudioContext. rewrite andb_true_r.
  destruct (isSome (scriptProcessorNode s) && isSome (sourceNode s)); cbn [when].
  - erewrite exec_then; [|rewrite exec_emit_bind, exec_emit; reflexivity].
    rewrite exec_modify_bind, exec_modify. reflexivity.
  - erewrite exec_then; [|apply exec_skip].
    rewrite exec_modify_bind, exec_modify. reflexivity.
Qed.

Lemma windDown_exec s : exec windDown s = (wound s, closed s ++ unwired s).
Proof.
  unfold windDown, wound, unwired.
  rewrite exec_modify_bind.
  erewrite exec_then; [|apply closeSession_exec].
  erewrite exec_then; [|apply disconnectCapture_exec].
  rewrite releaseMedia_exec. reflexivity.
Qed.

Lemma forget_exec s :
  exec forget s = (forgotten s, closed s ++ cleared (creditUsageInterval s)).
Proof.
  unfold forget, forgotten.
  erewrite exec_then.
  2:{ rewrite exec_get_bind. instantiate (1 := closed s). instantiate (1 := s).
      unfold closed. destruct (session s); reflexivity. }
  rewrite !exec_modify_bind, cancelCreditPoll_exec. reflexivity.
Qed.

Lemma saving_cases s :
  match saving s with
  | Some (user, sid) =>
      supabaseSession s = Some user /\ currentSessionId s = Some sid
      /\ Live.truthy sid = true /\ transcripts s <> []
  | None =>
      supabaseSession s = None \/ truthy_str (currentSessionId s) = false
      \/ transcripts s = []
  end.
Proof.
  unfold saving.
  destruct (supabaseSession s) as [user|]; [|now left].
  destruct (currentSessionId s) as [sid|]; [|right; now left].
  destruct (transcripts s) as [|l ls]; [right; now right|].
  cbn [truthy_str]. destruct (Live.truthy sid) eqn:Ht.
  - repeat split; [exact Ht|discriminate].
  - right. now left.
Qed.

Lemma saveRequest_run s : run saveRequest s = (isSome (saving s), s, requested s).
Proof.
  unfold saveRequest, requested, saving, rowsFor.
  cbn [run mbind act_bind get].
  destruct (supabaseSession s) as [user|]; [|reflexivity].
  destruct (currentSessionId s) as [sid|]; [|reflexivity].
  cbn [truthy_str]. destruct (Live.truthy sid); [|destruct (transcripts s); reflexivity].
  destruct (transcripts s); reflexivity.
Qed.

Lemma saveRequest_exec s : exec saveRequest s = (s, requested s).
Proof. unfold exec. now rewrite saveRequest_run. Qed.

Lemma saveRequest_result s : result saveRequest s = isSome (saving s).
Proof. unfold result. now rewrite saveRequest_run. Qed.

Lemma saveReply_exec env issued s :
  exec (saveReply env issued) s
  = (match issued, insertReply env with
     | true, Returned rows =>
         set_chatHistory (<[sessionKey (currentSessionId s) := rows]> (chatHistory s)) s
     | _, _ => s
     end,
     match issued, insertReply env with
     | true, Failed msg => [ConsoleError ("Error saving session history: " +:+ msg)]
     | _, _ => []
     end).
Proof.
  unfold saveReply. destruct issued; [|reflexivity].
  destruct (insertReply env); reflexivity.
Qed.

(** The two halves of the save make the whole. *)
Lemma saveCurrentSessionHistory_split env s :
  exec (saveCurrentSessionHistory env) s
  = exec (issued ← saveRequest; saveReply env issued) s.
Proof.
  rewrite exec_bind, saveRequest_exec, saveRequest_result.
  cbn [fst snd]. rewrite saveReply_exec.
  unfold saveCurrentSessionHistory, requested, saving, rowsFor.
  rewrite exec_get_bind.
  destruct (supabaseSession s) as [user|]; [|reflexivity].
  destruct (currentSessionId s) as [sid|] eqn:Hsid; [|reflexivity].
  cbn [truthy_str sessionKey]. destruct (Live.truthy sid); cbn [negb].
  - destruct (transcripts s) as [|l ls]; [reflexivity|].
    rewrite exec_emit_bind. cbn [isSome fst snd].
    destruct (insertReply env); reflexivity.
  - destruct (transcripts s); reflexivity.
Qed.

Lemma result_then {A B} (m : Act State A) (k : Act State B) s :
  result (m ≫= λ _, k) s = result k (fst (exec m s)).
Proof. apply result_bind. Qed.

Lemma marked_field {C} (f : State -> C) s :
  (forall v x, f (set_part2State v x) = f x) ->
  (forall v x, f (set_part2TopicForPart3 v x) = f x) ->
  f (marked s) = f s.
Proof.
  intros H1 H2. unfold marked.
  destruct (isPart2 (currentPart s) && truthy_str (part2Topic s)); [|reflexivity].
  now rewrite H1, H2.
Qed.

Lemma halted_field {C} (f : State -> C) s :
  (forall v x, f (set_part2State v x) = f x) ->
  (forall v x, f (set_part2TopicForPart3 v x) = f x) ->
  (forall v x, f (set_part2TimerInterval v x) = f x) ->
  (forall v x, f (set_creditUsageInterval v x) = f x) ->
  f (halted s) = f s.
Proof.
  intros H1 H2 H3 H4. unfold halted. rewrite H4, H3. now apply marked_field.
Qed.

Ltac halted_fields :=
  repeat match goal with
    | |- context [?f (halted ?s)] =>
        rewrite (halted_field f s) by (intros; reflexivity)
    end.

Lemma saving_halted s : saving (halted s) = saving s.
Proof. unfold saving. now halted_fields. Qed.

Lemma closed_halted s : closed (halted s) = closed s.
Proof. unfold closed. now halted_fields. Qed.

Lemma unwired_halted s : unwired (halted s) = unwired s.
Proof. unfold unwired. now halted_fields. Qed.

Lemma requested_halted s : requested (halted s) = requested s.
Proof. unfold requested. rewrite saving_halted. now halted_fields. Qed.

Lemma halted_exec s :
  exec (markPart2Finished;; cancelPartTimer;; cancelCreditPoll) s
  = (halted s, cleared (part2TimerInterval s) ++ cleared (creditUsageInterval s)).
Proof.
  erewrite exec_then; [|apply markPart2Finished_exec].
  erewrite exec_then; [|apply cancelPartTimer_exec].
  rewrite cancelCreditPoll_exec. cbn [fst snd app].
  change (creditUsageInterval (set_part2TimerInterval None (marked s)))
    with (creditUsageInterval (marked s)).
  rewrite (marked_field part2TimerInterval), (marked_field creditUsageInterval)
    by (intros; reflexivity).
  reflexivity.
Qed.

Lemma stopRecordingUntilAwait_exec s :
  exec stopRecordingUntilAwait s
  = (match transcripts s with
     | [] => wound (halted s)
     | _ :: _ => halted s
     end,
     cleared (part2TimerInterval s) ++ cleared (creditUsageInterval s)
     ++ match transcripts s with
        | [] => closed s ++ unwired s
        | _ :: _ => requested s
        end).
Proof.
  unfold stopRecordingUntilAwait.
  rewrite exec_get_bind, guard_never_returns.
  erewrite exec_then; [|apply markPart2Finished_exec].
  erewrite exec_then; [|apply cancelPartTimer_exec].
  erewrite exec_then; [|apply cancelCreditPoll_exec].
  fold (halted s). rewrite exec_get_bind.
  rewrite (halted_field transcripts) by (intros; reflexivity).
  change (creditUsageInterval (set_part2TimerInterval None (marked s)))
    with (creditUsageInterval (marked s)).
  rewrite (marked_field part2TimerInterval), (marked_field creditUsageInterval)
    by (intros; reflexivity).
  cbn [fst snd app].
  destruct (transcripts s) as [|l ls].
  - erewrite exec_then; [|apply windDown_exec].
    cbn [fst snd]. rewrite closed_halted, unwired_halted.
    rewrite ?app_nil_r, <- ?app_assoc. reflexivity.
  - rewrite exec_bind, saveRequest_exec. cbn [fst snd].
    rewrite requested_halted, ?app_nil_r, <- ?app_assoc. reflexivity.
Qed.

Lemma stopRecordingUntilAwait_result s :
  result stopRecordingUntilAwait s
  = match transcripts s with
    | [] => None
    | _ :: _ => Some (isSome (saving s))
    end.
Proof.
  unfold stopRecordingUntilAwait.
  rewrite result_bind, result_get, exec_get. cbn [fst].
  rewrite guard_never_returns.
  rewrite result_then, markPart2Finished_exec. cbn [fst].
  rewrite result_then, cancelPartTimer_exec. cbn [fst].
  rewrite result_then, cancelCreditPoll_exec. cbn [fst].
  fold (halted s).
  rewrite result_bind, result_get, exec_get. cbn [fst].
  rewrite (halted_field transcripts) by (intros; reflexivity).
  destruct (transcripts s) as [|l ls].
  - rewrite result_then. reflexivity.
  - rewrite result_bind, saveRequest_result, saving_halted. reflexivity.
Qed.

Lemma stopRecordingAfterAwait_exec env issued s :
  exec (stopRecordingAfterAwait env issued) s
  = (wound (fst (exec (saveReply env issued) s)),
     snd (exec (saveReply env issued) s)
     ++ [ProcessMissingFeedback]
     ++ closed (fst (exec (saveReply env issued) s))
     ++ unwired (fst (exec (saveReply env issued) s))).
Proof.
  unfold stopRecordingAfterAwait.
  erewrite exec_then; [|apply exec_pair].
  rewrite exec_emit_bind, windDown_exec. reflexivity.
Qed.

Lemma unwired_ext s s' :
  scriptProcessorNode s' = scriptProcessorNode s ->
  sourceNode s' = sourceNode s -> mediaStream s' = mediaStream s ->
  unwired s' = unwired s.
Proof. intros H1 H2 H3. unfold unwired. now rewrite H1, H2, H3. Qed.

Lemma unwired_forgotten v s :
  unwired (set_chatHistory v (forgotten (halted s))) = unwired s.
Proof.
  apply unwired_ext.
  - change (scriptProcessorNode (marked s) = scriptProcessorNode s).
    apply marked_field; reflexivity.
  - change (sourceNode (marked s) = sourceNode s).
    apply marked_field; reflexivity.
  - change (mediaStream (marked s) = mediaStream s).
    apply marked_field; reflexivity.
Qed.

Lemma unwired_halted_forgotten s : unwired (forgotten (halted s)) = unwired s.
Proof. apply (unwired_forgotten ∅ s). Qed.

Lemma cleanup_exec env s : exec (cleanup env) s = (cleaned env s, cleanedUp env s).
Proof.
  unfold cleanup, cleaned, cleanedUp.
  rewrite exec_bind, stopRecordingUntilAwait_exec, stopRecordingUntilAwait_result.
  cbn [fst snd].
  destruct (transcripts s) as [|l ls] eqn:Hts.
  - erewrite exec_then; [|apply forget_exec].
    rewrite exec_skip. cbn [fst snd].
    change (closed (wound (halted s))) with (@nil Event).
    change (cleared (creditUsageInterval (wound (halted s)))) with (@nil Event).
    rewrite ?app_nil_r, <- ?app_assoc. reflexivity.
  - erewrite exec_then; [|apply forget_exec].
    rewrite stopRecordingAfterAwait_exec, saveReply_exec. cbn [fst snd].
    unfold keptHistory, answered.
    rewrite closed_halted.
    change (cleared (creditUsageInterval (halted s))) with (@nil Event).
    change (chatHistory (forgotten (halted s)))
      with (∅ : gmap string (list HistoryRow)).
    change (currentSessionId (forgotten (halted s)))
      with (currentSessionId (marked s)).
    rewrite (marked_field currentSessionId) by reflexivity.
    pose proof (saving_cases s) as Hsav.
    destruct (saving s) as [[user sid]|]; cbn [isSome].
    + destruct Hsav as (_ & -> & _ & _). cbn [sessionKey].
      destruct (insertReply env) as [msg|rows|]; rewrite ?insert_empty.
      * change (closed (forgotten (halted s))) with (@nil Event).
        rewrite unwired_halted_forgotten.
        rewrite ?app_nil_r, <- ?app_assoc. reflexivity.
      * change (closed (set_chatHistory {[sid := rows]} (forgotten (halted s))))
          with (@nil Event).
        rewrite unwired_forgotten.
        rewrite ?app_nil_r, <- ?app_assoc. reflexivity.
      * change (closed (forgotten (halted s))) with (@nil Event).
        rewrite unwired_halted_forgotten.
        rewrite ?app_nil_r, <- ?app_assoc. reflexivity.
    + change (closed (forgotten (halted s))) with (@nil Event).
      rewrite unwired_halted_forgotten.
      rewrite ?app_nil_r, <- ?app_assoc. reflexivity.
Qed.

(** [stopRecording] is its two halves, one after the other. *)
Lemma stopRecording_split env s :
  exec (stopRecording env) s
  = exec (suspended ← stopRecordingUntilAwait;
          match suspended with
          | Some issued => stopRecordingAfterAwait env issued
          | None => skip
          end) s.
Proof.
  rewrite exec_bind, stopRecordingUntilAwait_exec, stopRecordingUntilAwait_result.
  rewrite stopRecording_release. unfold release.
  erewrite exec_then; [|apply markPart2Finished_exec].
  erewrite exec_then; [|apply cancelPartTimer_exec].
  erewrite exec_then; [|apply cancelCreditPoll_exec].
  fold (halted s). fold windDown.
  change (creditUsageInterval (set_part2TimerInterval None (marked s)))
    with (creditUsageInterval (marked s)).
  rewrite (marked_field part2TimerInterval), (marked_field creditUsageInterval)
    by (intros; reflexivity).
  unfold persistTranscript.
  erewrite exec_then.
  2:{ rewrite exec_get_bind, (halted_field transcripts) by (intros; reflexivity).
      apply exec_pair. }
  cbn [fst snd app].
  destruct (transcripts s) as [|l ls].
  - rewrite exec_skip. cbn [fst snd app].
    rewrite windDown_exec, closed_halted, unwired_halted. cbn [fst snd].
    rewrite ?app_nil_r, <- ?app_assoc. reflexivity.
  - rewrite stopRecordingAfterAwait_exec.
    erewrite (exec_then (saveCurrentSessionHistory env));
      [|rewrite saveCurrentSessionHistory_split, exec_bind, saveRequest_exec,
          saveRequest_result; cbn [fst snd]; reflexivity].
    rewrite exec_emit, windDown_exec, saving_halted, requested_halted.
    cbn [fst snd]. rewrite ?app_nil_r, <- ?app_assoc. reflexivity.
Qed.

Lemma cleaned_atRest env s : atRest (cleaned env s).
Proof. unfold cleaned. destruct (transcripts s); repeat split. Qed.

Lemma cleanup_releases_all env s : atRest (fst (exec (cleanup env) s)).
Proof. rewrite cleanup_exec. apply cleaned_atRest. Qed.

Lemma perform_held a env : stable consistent (perform a env).
Proof.
  destruct a; cbn [perform].
  - intros s. apply consistent_ext; unfold exec; cbn [run modify fst];
      unfold onLogin, initClient; cbv zeta;
      change (client (set_supabaseSession (Some user) s)) with (client s);
      destruct (client s); reflexivity.
  - intros s _. rewrite exec_modify_bind. apply atRest_consistent, cleanup_releases_all.
  - unfold fetchUserProfile. held.
  - apply onmessage_held.
  - apply handlePartSelect_held.
  - apply handleStartPart_held.
  - apply handleVisualizerClick_held.
  - apply preparationTick_held.
  - apply speakingTick_held.
  - apply deductCredits_held.
Qed.

End Held.

(** X11. Every action keeps the books: taken as a whole, that is run from
    its first line to its last with no other event handled while it waits
    at an [await], an action of the user, a timer that fires or a reply
    that comes in leaves the component holding its resources exactly while
    it is recording, if it found it so.  Recording then means that the
    session, the microphone stream, the two capture nodes and the
    credit-poll timer are all there, and not recording means that none of
    them is; the component is constructed that way.  Nothing is said of the
    states an action goes through before it ends. *)
Theorem actions_keep_what_is_held (a : App.Action) (env : Env) (s : App.State) :
  Flow.consistent s ->
  Flow.consistent (fst (exec (App.perform a env) s))
  /\ Flow.consistent App.initial.
Proof.
  intros Hs. split; [apply perform_held, Hs|].
  unfold Flow.consistent. cbn. repeat split.
Qed.

Lemma actions_keep_what_is_held_witness :
  Flow.consistent Scenario.appRecording
  /\ App.isRecording Scenario.appRecording = true
  /\ Flow.consistent
       (fst (exec (App.perform App.VisualizerClick Scenario.online)
               Scenario.appRecording))
  /\ App.isRecording
       (fst (exec (App.perform App.VisualizerClick Scenario.online)
               Scenario.appRecording)) = false.
Proof.
  assert (H : Flow.consistent Scenario.appRecording)
    by (vm_compute; repeat split; reflexivity).
  split; [exact H|]. split; [vm_compute; reflexivity|].
  split; [|vm_compute; reflexivity].
  exact (proj1 (actions_keep_what_is_held App.VisualizerClick Scenario.online
                  Scenario.appRecording H)).
Defined.

(** X12. Logging out leaves nothing behind, and closes an open connection
    once.  [cleanup] calls [stopRecording] without waiting for it.  With
    an empty transcript the stop has ended when the call returns, and
    [cleanup] does to the outside world exactly what a stop does.  With
    lines in the transcript the stop is suspended at its save: [cleanup]
    itself closes the connection, after the insert has been issued (if the
    guards of the save let it) and before its answer is handled; the stop
    then goes on, finds no session to close, asks for the missing feedback,
    disconnects the capture nodes and stops the microphone.  Either way,
    once both have ended nothing is held, there is no client, and the
    transcript and the credits are forgotten; the history is empty but for
    the rows of that insert, when the store returned them, and is empty
    when nobody was signed in any more. *)
Theorem logout_leaves_nothing (env : Env) (s : App.State) :
  let after := exec (App.cleanup env) s in
  snd after = Flow.cleanedUp env s
  /\ (App.transcripts s = [] -> snd after = Flow.released env s)
  /\ count isSessionClose (snd after)
     = (if isSome (App.session s) then 1 else 0)%nat
  /\ Flow.atRest (fst after)
  /\ App.part2TimerInterval (fst after) = None
  /\ App.client (fst after) = false
  /\ App.transcripts (fst after) = []
  /\ App.chatHistory (fst after) = Flow.keptHistory env s
  /\ (App.supabaseSession s = None -> App.chatHistory (fst after) = ∅)
  /\ App.userCredits (fst after) = None.
Proof.
  cbv zeta. rewrite cleanup_exec. cbn [fst snd].
  split; [reflexivity|]. split; [|split; [|split; [|split; [|split; [|split]]]]].
  - intros Hts. unfold Flow.cleanedUp, Flow.released, Flow.persisted, Flow.closed,
      Flow.unwired. rewrite Hts. reflexivity.
  - unfold Flow.cleanedUp, Flow.requested, Flow.answered, Flow.closed,
      Flow.unwired, Flow.cleared, count.
    destruct (App.part2TimerInterval s), (App.creditUsageInterval s),
      (App.transcripts s), (Flow.saving s) as [[user sid]|],
      (App.session s), (App.scriptProcessorNode s), (App.sourceNode s),
      (App.mediaStream s); cbn [isSome andb app];
      try destruct (insertReply env); reflexivity.
  - apply cleaned_atRest.
  - unfold Flow.cleaned. destruct (App.transcripts s); reflexivity.
  - unfold Flow.cleaned. destruct (App.transcripts s); reflexivity.
  - unfold Flow.cleaned. destruct (App.transcripts s); reflexivity.
  - assert (Hhist : App.chatHistory (Flow.cleaned env s) = Flow.keptHistory env s).
    { unfold Flow.cleaned, Flow.keptHistory.
      pose proof (saving_cases s) as Hsav.
      destruct (App.transcripts s) as [|l ls] eqn:Hts; [|reflexivity].
      destruct (Flow.saving s) as [[user sid]|]; [|reflexivity].
      now destruct Hsav as (_ & _ & _ & Hne). }
    split; [exact Hhist|]. split.
    + intros Hu. rewrite Hhist. unfold Flow.keptHistory, Flow.saving.
      now rewrite Hu.
    + unfold Flow.cleaned. destruct (App.transcripts s); reflexivity.
Qed.

Lemma logout_leaves_nothing_witness :
  let env := Scenario.online in
  let s := Scenario.appRecording in
  let after := exec (App.perform App.Logout env) s in
  App.transcripts s <> []
  /\ snd after
     = [ClearInterval 3; SessionClose 1; ProcessMissingFeedback;
        DisconnectProcessor; DisconnectSource; TrackStop 7]
  /\ snd (exec (App.stopRecording env) s)
     = [ClearInterval 3;
        InsertTranscripts
          (Flow.rowsFor "user-1" (uuid env) (App.transcripts s));
        ProcessMissingFeedback; SessionClose 1;
        DisconnectProcessor; DisconnectSource; TrackStop 7]
  /\ Flow.atRest (fst after)
  /\ App.chatHistory (fst after) = ∅.
Proof.
  pose proof (logout_leaves_nothing Scenario.online
                (App.set_supabaseSession None Scenario.appRecording))
    as (Hevents & _ & _ & Hrest & _ & _ & _ & _ & Hhistory & _).
  vm_compute in Hevents, Hrest. specialize (Hhistory eq_refl).
  vm_compute. vm_compute in Hhistory.
  split; [discriminate|].
  split; [exact Hevents|].
  split; [reflexivity|].
  split; [exact Hrest|exact Hhistory].
Defined.

(* ================================================================== *)
(** * Credits                                                          *)
(* ================================================================== *)

Section Gating.
Import App Flow.

Lemma quiet_bind {A B} (m : Act State A) (k : A -> Act State B) :
  quiet m -> (forall x, quiet (k x)) -> quiet (m ≫= k).
Proof.
  intros Hm Hk s. rewrite events_bind. apply Forall_app. split; [apply Hm|apply Hk].
Qed.

Lemma quiet_get : quiet get.
Proof. intros s. constructor. Qed.
Lemma quiet_skip : quiet skip.
Proof. intros s. constructor. Qed.
Lemma quiet_modify f : quiet (modify f).
Proof. intros s. constructor. Qed.
Lemma quiet_emit e : acquires e = false -> quiet (emit e).
Proof. intros H s. constructor; [exact H|constructor]. Qed.
Lemma quiet_when b m : quiet m -> quiet (when b m).
Proof. intros H. destruct b; [exact H|apply quiet_skip]. Qed.

Ltac quiet_step :=
  first
    [ apply quiet_get | apply quiet_skip | apply quiet_modify
    | apply quiet_emit; reflexivity
    | apply quiet_when
    | apply quiet_bind; [|intros ?]
    | match goal with
      | |- quiet (match ?x with _ => _ end) => destruct x
      | |- quiet (if ?b then _ else _) => destruct b
      | |- quiet (let _ := _ in _) => cbv zeta
      end ].

Ltac quiet_auto := repeat quiet_step.

Lemma quiet_blocked {A} (m : Act State A) : quiet m -> blocked m.
Proof. intros H s _. apply H. Qed.

Lemma blocked_bind {A B} (m : Act State A) (k : A -> Act State B) :
  quiet m -> keeps userCredits m -> (forall x, blocked (k x)) -> blocked (m ≫= k).
Proof.
  intros Hm Hkeep Hk s Hs. rewrite events_bind. apply Forall_app.
  split; [apply Hm|]. apply Hk. unfold creditsExhausted in *.
  now rewrite Hkeep.
Qed.

Lemma blocked_then {A B} (m : Act State A) (k : A -> Act State B) :
  blocked m -> (forall x, quiet (k x)) -> blocked (m ≫= k).
Proof.
  intros Hm Hk s Hs. rewrite events_bind. apply Forall_app.
  split; [now apply Hm|apply Hk].
Qed.

Lemma release_quiet env : quiet (release env).
Proof.
  unfold release, markPart2Finished, cancelPartTimer, cancelCreditPoll,
    persistTranscript, saveCurrentSessionHistory, closeSession,
    disconnectCapture, releaseMedia.
  quiet_auto.
Qed.

Lemma stopRecording_quiet env : quiet (stopRecording env).
Proof. intros s. rewrite stopRecording_release. apply release_quiet. Qed.

Lemma stopCurrentSession_quiet env : quiet (stopCurrentSession env).
Proof.
  unfold stopCurrentSession. apply quiet_bind; [apply quiet_get|]. intros s.
  apply quiet_when, stopRecording_quiet.
Qed.

Lemma startRecording_blocked instruction modalities env :
  blocked (startRecording instruction modalities env).
Proof.
  intros s Hs. unfold startRecording. rewrite exec_get_bind, Hs. constructor.
Qed.

Lemma handlePartSelect_quiet part env : quiet (handlePartSelect part env).
Proof.
  unfold handlePartSelect. apply quiet_bind; [apply stopCurrentSession_quiet|].
  intros ?. quiet_auto.
Qed.

Lemma generateCueCard_quiet env : quiet (generateCueCard env).
Proof. unfold generateCueCard, startPart2Preparation. quiet_auto. Qed.

Lemma handleStartPart_blocked env : blocked (handleStartPart env).
Proof.
  unfold handleStartPart.
  apply blocked_bind; [apply quiet_modify|keeps_auto|]. intros ?.
  apply blocked_bind; [apply quiet_get|keeps_auto|]. intros s.
  destruct (currentPart s) as [[| |]|].
  - apply startRecording_blocked.
  - apply quiet_blocked.
    apply quiet_bind; [apply quiet_modify|]. intros ?.
    apply quiet_bind; [apply quiet_modify|]. intros ?.
    apply generateCueCard_quiet.
  - destruct (part2TopicForPart3 s) as [topic|]; [|apply quiet_blocked, quiet_skip].
    destruct (Live.truthy topic);
      [apply startRecording_blocked|apply quiet_blocked, quiet_skip].
  - apply quiet_blocked, quiet_skip.
Qed.

Lemma clearPart2Timer_quiet : quiet clearPart2Timer.
Proof. unfold clearPart2Timer. quiet_auto. Qed.

Lemma startPart2SpeakingSession_blocked env :
  blocked (startPart2SpeakingSession env).
Proof.
  unfold startPart2SpeakingSession.
  apply blocked_bind; [apply quiet_modify|keeps_auto|]. intros ?.
  apply blocked_bind; [apply quiet_modify|keeps_auto|]. intros ?.
  apply blocked_then; [apply startRecording_blocked|]. intros ?. quiet_auto.
Qed.

Lemma preparationTick_blocked env : blocked (preparationTick env).
Proof.
  unfold preparationTick.
  apply blocked_bind; [apply quiet_modify|keeps_auto|]. intros ?.
  apply blocked_bind; [apply quiet_get|keeps_auto|]. intros s.
  destruct (part2PreparationTimeLeft s <=? 0); [|apply quiet_blocked, quiet_skip].
  cbn [when].
  apply blocked_bind; [apply clearPart2Timer_quiet|
                       unfold clearPart2Timer; keeps_auto|].
  intros ?. apply startPart2SpeakingSession_blocked.
Qed.

Lemma speakingTick_quiet env : quiet (speakingTick env).
Proof.
  unfold speakingTick.
  apply quiet_bind; [apply quiet_modify|]. intros ?.
  apply quiet_bind; [apply quiet_get|]. intros s.
  apply quiet_when. apply quiet_bind; [apply clearPart2Timer_quiet|]. intros ?.
  apply stopCurrentSession_quiet.
Qed.

Lemma deductCredits_quiet env : quiet (deductCredits env).
Proof.
  unfold deductCredits.
  apply quiet_bind; [apply quiet_get|]. intros s.
  destruct (negb (isRecording s) || negb (isSome (userCredits s)));
    [apply quiet_skip|].
  apply quiet_bind; [apply quiet_emit; reflexivity|]. intros ?.
  destruct (rpcReply env) as [msg|balance|].
  - apply quiet_emit; reflexivity.
  - apply quiet_bind; [apply quiet_modify|]. intros ?.
    apply quiet_when.
    apply quiet_bind; [apply stopCurrentSession_quiet|]. intros ?.
    apply quiet_modify.
  - apply quiet_bind; [apply quiet_modify|]. intros ?.
    apply quiet_bind; [apply stopCurrentSession_quiet|]. intros ?.
    apply quiet_modify.
Qed.

Lemma handleVisualizerClick_quiet env : quiet (handleVisualizerClick env).
Proof.
  unfold handleVisualizerClick.
  apply quiet_bind; [apply quiet_get|]. intros s.
  destruct (isRecording s); [apply stopRecording_quiet|].
  destruct (currentPart s); [apply handlePartSelect_quiet|apply quiet_skip].
Qed.

Lemma onmessage_quiet clock message : quiet (onmessage clock message).
Proof.
  intros s. unfold onmessage, exec. cbn [run].
  destruct (Live.onmessage clock message (live s)) as [l evs]. cbn [snd].
  induction evs as [|e evs IH]; constructor; [reflexivity|exact IH].
Qed.

Lemma quiet_ret {A} (x : A) : quiet (mret x).
Proof. intros s. constructor. Qed.

Lemma cleanup_quiet env : quiet (cleanup env).
Proof.
  unfold cleanup, stopRecordingUntilAwait, stopRecordingAfterAwait, forget,
    windDown, saveRequest, saveReply, markPart2Finished, cancelPartTimer,
    cancelCreditPoll, closeSession, disconnectCapture, releaseMedia.
  repeat first [quiet_step | apply quiet_ret].
Qed.

Lemma perform_blocked a env : blocked (perform a env).
Proof.
  destruct a; cbn [perform].
  - apply quiet_blocked, quiet_modify.
  - apply quiet_blocked. apply quiet_bind; [apply quiet_modify|]. intros ?.
    apply cleanup_quiet.
  - apply quiet_blocked. unfold fetchUserProfile. quiet_auto.
  - apply quiet_blocked, onmessage_quiet.
  - apply quiet_blocked, handlePartSelect_quiet.
  - apply handleStartPart_blocked.
  - apply quiet_blocked, handleVisualizerClick_quiet.
  - apply preparationTick_blocked.
  - apply quiet_blocked, speakingTick_quiet.
  - apply quiet_blocked, deductCredits_quiet.
Qed.

End Gating.

(** X13. With the credits used up, nothing the user does and no timer that
    fires opens a connection to the service or asks for the microphone,
    whatever part is selected and whatever state the component is in; a
    start opens the out-of-credits dialog instead and changes nothing
    else. *)
Theorem no_credits_no_start (a : App.Action) (env : Env) (s : App.State)
    (instruction : string) (modalities : list Modality) :
  App.creditsExhausted s = true ->
  Forall (fun e => Flow.acquires e = false) (snd (exec (App.perform a env) s))
  /\ exec (App.startRecording instruction modalities env) s
     = (App.set_isOutOfCreditsModalOpen true s, []).
Proof.
  intros Hs. split; [now apply perform_blocked|].
  unfold App.startRecording. now rewrite exec_get_bind, Hs.
Qed.

Lemma no_credits_no_start_witness :
  let s := App.set_userCredits (Some 0) Scenario.appPreparing in
  Forall (fun e => Flow.acquires e = false)
    (snd (exec (App.perform App.PreparationTick Scenario.online) s))
  /\ exec (App.startRecording App.PART2_INSTRUCTION [AUDIO] Scenario.online) s
     = (App.set_isOutOfCreditsModalOpen true s, []).
Proof.
  apply (no_credits_no_start App.PreparationTick Scenario.online
           (App.set_userCredits (Some 0) Scenario.appPreparing)).
  reflexivity.
Defined.

Section Metering.
Import App Flow.

Lemma set_userCredits_same s : set_userCredits (userCredits s) s = s.
Proof. now destruct s. Qed.

Lemma deductCredits_carries_on env s :
  isRecording s = true -> isSome (userCredits s) = true -> carriesOn env = true ->
  exec (deductCredits env) s
  = (set_userCredits (balanceAfter [env] (userCredits s)) s, polled [env]).
Proof.
  intros Hrec Hcred Hon. unfold deductCredits.
  rewrite exec_get_bind, Hrec, Hcred. cbn [negb orb].
  rewrite exec_emit_bind. unfold carriesOn in Hon.
  cbn [balanceAfter polled]. destruct (rpcReply env) as [msg|b|]; [| |discriminate].
  - rewrite exec_emit. cbn [fst snd]. now rewrite set_userCredits_same.
  - rewrite exec_modify_bind.
    assert (Hb : (b <=? 0) = false) by (apply Z.ltb_lt in Hon; apply Z.leb_gt; lia).
    rewrite Hb. cbn [when]. rewrite exec_skip. reflexivity.
Qed.

Lemma balanceAfter_some envs c :
  isSome c = true -> forallb carriesOn envs = true ->
  isSome (balanceAfter envs c) = true.
Proof.
  revert c. induction envs as [|env rest IH]; intros c Hc Hall; [exact Hc|].
  cbn [forallb] in Hall. apply andb_prop in Hall as [Hon Hrest].
  cbn [balanceAfter]. apply IH; [|exact Hrest].
  unfold carriesOn in Hon. destruct (rpcReply env); [exact Hc|reflexivity|discriminate].
Qed.

Lemma pollAll_carries_on envs s :
  isRecording s = true -> isSome (userCredits s) = true ->
  forallb carriesOn envs = true ->
  exec (pollAll envs) s
  = (set_userCredits (balanceAfter envs (userCredits s)) s, polled envs).
Proof.
  revert s. induction envs as [|env rest IH]; intros s Hrec Hcred Hall.
  - cbn [pollAll balanceAfter polled]. rewrite exec_skip.
    now rewrite set_userCredits_same.
  - cbn [forallb] in Hall. apply andb_prop in Hall as [Hon Hrest].
    cbn [pollAll].
    erewrite exec_then; [|apply (deductCredits_carries_on env s Hrec Hcred Hon)].
    rewrite IH; [|exact Hrec| |exact Hrest].
    + cbn [fst snd polled balanceAfter userCredits set_userCredits].
      rewrite app_nil_r. reflexivity.
    + cbn [userCredits set_userCredits balanceAfter].
      unfold carriesOn in Hon.
      destruct (rpcReply env); [exact Hcred|reflexivity|discriminate].
Qed.

Lemma deducted_polled envs :
  deducted (polled envs) = 10 * Z.of_nat (List.length envs).
Proof.
  induction envs as [|env rest IH]; [reflexivity|].
  cbn [polled deducted List.length]. rewrite Nat2Z.inj_succ.
  change (creditUpdateIntervalMs / 1000) with 10.
  destruct (rpcReply env); cbn [app deducted]; rewrite IH; lia.
Qed.

End Metering.

(** X14. While the store keeps answering a credit poll with an error or
    with a balance above zero, polling only meters: [n] polls ask the store
    for [n] times 10 seconds, the page shows the last balance returned, and
    nothing else of the component changes; the recording goes on. *)
Theorem credit_polls_meter (envs : list Env) (s : App.State) :
  App.isRecording s = true -> isSome (App.userCredits s) = true ->
  forallb Flow.carriesOn envs = true ->
  let after := exec (Flow.pollAll envs) s in
  fst after = App.set_userCredits (Flow.balanceAfter envs (App.userCredits s)) s
  /\ snd after = Flow.polled envs
  /\ Flow.deducted (snd after) = 10 * Z.of_nat (List.length envs)
  /\ App.isRecording (fst after) = true
  /\ isSome (App.userCredits (fst after)) = true.
Proof.
  intros Hrec Hcred Hall. cbv zeta.
  rewrite (pollAll_carries_on envs s Hrec Hcred Hall). cbn [fst snd].
  split; [reflexivity|]. split; [reflexivity|].
  split; [apply deducted_polled|]. split; [exact Hrec|].
  now apply balanceAfter_some.
Qed.

Lemma credit_polls_meter_witness :
  let failing :=
    {| uuid := "u"; connect := None; userMedia := None; timer := 3%nat;
       countdown := 4%nat; insertReply := Nothing;
       rpcReply := Failed "timeout"; generated := None |} in
  let envs := [Scenario.online; failing; Scenario.online] in
  let s := App.set_userCredits (Some 600) Scenario.appRecording in
  let after := exec (Flow.pollAll envs) s in
  fst after = App.set_userCredits (Flow.balanceAfter envs (App.userCredits s)) s
  /\ snd after = Flow.polled envs
  /\ Flow.deducted (snd after) = 10 * Z.of_nat (List.length envs)
  /\ App.isRecording (fst after) = true
  /\ isSome (App.userCredits (fst after)) = true.
Proof.
  apply (credit_polls_meter
           [Scenario.online;
            {| uuid := "u"; connect := None; userMedia := None; timer := 3%nat;
               countdown := 4%nat; insertReply := Nothing;
               rpcReply := Failed "timeout"; generated := None |};
            Scenario.online]
           (App.set_userCredits (Some 600) Scenario.appRecording));
    reflexivity.
Defined.

(* ================================================================== *)
(** * The Part 2 countdowns                                            *)
(* ================================================================== *)

Section Countdowns.
Import App Flow.

Lemma ticks_last k (tick : Act State unit) s :
  exec (ticks (S k) tick) s
  = (fst (exec tick (fst (exec (ticks k tick) s))),
     snd (exec (ticks k tick) s) ++ snd (exec tick (fst (exec (ticks k tick) s)))).
Proof.
  revert s. induction k as [|k IH]; intros s.
  - cbn [ticks]. erewrite exec_then; [|apply exec_pair].
    rewrite !exec_skip. cbn [fst snd app]. now rewrite app_nil_r.
  - change (ticks (S (S k)) tick) with (tick;; ticks (S k) tick).
    erewrite exec_then; [|apply exec_pair]. rewrite IH. cbn [fst snd].
    change (ticks (S k) tick) with (tick;; ticks k tick).
    erewrite (exec_then tick (ticks k tick)); [|apply exec_pair].
    cbn [fst snd]. now rewrite app_assoc.
Qed.

Lemma set_part2PreparationTimeLeft_same s :
  set_part2PreparationTimeLeft (part2PreparationTimeLeft s) s = s.
Proof. now destruct s. Qed.

Lemma set_part2SpeakingTimeLeft_same s :
  set_part2SpeakingTimeLeft (part2SpeakingTimeLeft s) s = s.
Proof. now destruct s. Qed.

Lemma preparationTick_waits env s :
  1 < part2PreparationTimeLeft s ->
  exec (preparationTick env) s
  = (set_part2PreparationTimeLeft (part2PreparationTimeLeft s - 1) s, []).
Proof.
  intros Ht. unfold preparationTick. rewrite exec_modify_bind, exec_get_bind.
  cbn [part2PreparationTimeLeft set_part2PreparationTimeLeft].
  assert (H : (part2PreparationTimeLeft s - 1 <=? 0) = false) by (apply Z.leb_gt; lia).
  rewrite H. apply exec_skip.
Qed.

Lemma preparation_counts_down env k s :
  Z.of_nat k < part2PreparationTimeLeft s ->
  exec (ticks k (preparationTick env)) s
  = (set_part2PreparationTimeLeft (part2PreparationTimeLeft s - Z.of_nat k) s, []).
Proof.
  revert s. induction k as [|k IH]; intros s Hk.
  - cbn [ticks]. rewrite exec_skip. cbn [Z.of_nat]. rewrite Z.sub_0_r.
    now rewrite set_part2PreparationTimeLeft_same.
  - cbn [ticks]. erewrite exec_then; [|apply preparationTick_waits; lia].
    rewrite IH by (cbn [part2PreparationTimeLeft set_part2PreparationTimeLeft]; lia).
    cbn [fst snd app part2PreparationTimeLeft set_part2PreparationTimeLeft].
    replace (part2PreparationTimeLeft s - 1 - Z.of_nat k)
      with (part2PreparationTimeLeft s - Z.of_nat (S k)) by lia.
    reflexivity.
Qed.

Lemma speakingTick_waits env s :
  1 < part2SpeakingTimeLeft s ->
  exec (speakingTick env) s
  = (set_part2SpeakingTimeLeft (part2SpeakingTimeLeft s - 1) s, []).
Proof.
  intros Ht. unfold speakingTick. rewrite exec_modify_bind, exec_get_bind.
  cbn [part2SpeakingTimeLeft set_part2SpeakingTimeLeft].
  assert (H : (part2SpeakingTimeLeft s - 1 <=? 0) = false) by (apply Z.leb_gt; lia).
  rewrite H. apply exec_skip.
Qed.

Lemma speaking_counts_down env k s :
  Z.of_nat k < part2SpeakingTimeLeft s ->
  exec (ticks k (speakingTick env)) s
  = (set_part2SpeakingTimeLeft (part2SpeakingTimeLeft s - Z.of_nat k) s, []).
Proof.
  revert s. induction k as [|k IH]; intros s Hk.
  - cbn [ticks]. rewrite exec_skip. cbn [Z.of_nat]. rewrite Z.sub_0_r.
    now rewrite set_part2SpeakingTimeLeft_same.
  - cbn [ticks]. erewrite exec_then; [|apply speakingTick_waits; lia].
    rewrite IH by (cbn [part2SpeakingTimeLeft set_part2SpeakingTimeLeft]; lia).
    cbn [fst snd app part2SpeakingTimeLeft set_part2SpeakingTimeLeft].
    replace (part2SpeakingTimeLeft s - 1 - Z.of_nat k)
      with (part2SpeakingTimeLeft s - Z.of_nat (S k)) by lia.
    reflexivity.
Qed.

Lemma clearPart2Timer_exec s :
  exec clearPart2Timer s
  = (set_part2TimerInterval None s, cleared (part2TimerInterval s)).
Proof.
  unfold clearPart2Timer. rewrite exec_get_bind.
  destruct (part2TimerInterval s) as [id|].
  - now rewrite exec_emit_bind, exec_modify.
  - erewrite exec_then; [|apply exec_skip]. now rewrite exec_modify.
Qed.

(** The tick on which the preparation countdown reaches zero. *)
Lemma preparationTick_fires env s :
  part2PreparationTimeLeft s <= 1 ->
  exec (preparationTick env) s
  = (fst (exec (startPart2SpeakingSession env)
            (set_part2TimerInterval None
               (set_part2PreparationTimeLeft (part2PreparationTimeLeft s - 1) s))),
     cleared (part2TimerInterval s)
     ++ snd (exec (startPart2SpeakingSession env)
               (set_part2TimerInterval None
                  (set_part2PreparationTimeLeft (part2PreparationTimeLeft s - 1) s)))).
Proof.
  intros Ht. unfold preparationTick. rewrite exec_modify_bind, exec_get_bind.
  cbn [part2PreparationTimeLeft set_part2PreparationTimeLeft].
  assert (H : (part2PreparationTimeLeft s - 1 <=? 0) = true) by (apply Z.leb_le; lia).
  rewrite H. cbn [when].
  erewrite exec_then; [|apply clearPart2Timer_exec]. reflexivity.
Qed.

Lemma startPart2SpeakingSession_exec env s c stream :
  creditsExhausted s = false -> isRecording s = false -> client s = true ->
  connect env = Some c -> userMedia env = Some stream ->
  exec (startPart2SpeakingSession env) s
  = (set_part2TimerInterval (Some (countdown env))
       (recordingFrom PART2_INSTRUCTION [AUDIO] env c stream
          (set_part2SpeakingTimeLeft 120 (set_part2State speaking s))),
     acquired PART2_INSTRUCTION [AUDIO] env stream
     ++ [SetInterval SpeakingCountdown (countdown env) 1000]).
Proof.
  intros Hcred Hrec Hc Hconn Hmedia. unfold startPart2SpeakingSession.
  rewrite !exec_modify_bind.
  erewrite exec_then;
    [|apply (startRecording_exec PART2_INSTRUCTION [AUDIO] env _ c stream);
      assumption].
  rewrite exec_modify_bind, exec_emit. reflexivity.
Qed.

Lemma speakingTick_fires env s :
  part2SpeakingTimeLeft s <= 1 ->
  exec (speakingTick env) s
  = (fst (exec (stopCurrentSession env)
            (set_part2TimerInterval None
               (set_part2SpeakingTimeLeft (part2SpeakingTimeLeft s - 1) s))),
     cleared (part2TimerInterval s)
     ++ snd (exec (stopCurrentSession env)
               (set_part2TimerInterval None
                  (set_part2SpeakingTimeLeft (part2SpeakingTimeLeft s - 1) s)))).
Proof.
  intros Ht. unfold speakingTick. rewrite exec_modify_bind, exec_get_bind.
  cbn [part2SpeakingTimeLeft set_part2SpeakingTimeLeft].
  assert (H : (part2SpeakingTimeLeft s - 1 <=? 0) = true) by (apply Z.leb_le; lia).
  rewrite H. cbn [when].
  erewrite exec_then; [|apply clearPart2Timer_exec]. reflexivity.
Qed.

Lemma preparation_fires env s n c stream :
  part2PreparationTimeLeft s = Z.of_nat (S n) ->
  creditsExhausted s = false -> isRecording s = false ->
  client s = true -> connect env = Some c -> userMedia env = Some stream ->
  exec (ticks (S n) (preparationTick env)) s
  = (set_part2TimerInterval (Some (countdown env))
       (recordingFrom PART2_INSTRUCTION [AUDIO] env c stream
          (set_part2SpeakingTimeLeft 120
             (set_part2State speaking
                (set_part2TimerInterval None
                   (set_part2PreparationTimeLeft 0 s))))),
     cleared (part2TimerInterval s)
     ++ acquired PART2_INSTRUCTION [AUDIO] env stream
     ++ [SetInterval SpeakingCountdown (countdown env) 1000]).
Proof.
  intros Ht Hcred Hrec Hc Hconn Hmedia.
  rewrite ticks_last, (preparation_counts_down env n s) by lia.
  cbn [fst snd app]. rewrite preparationTick_fires
    by (cbn [part2PreparationTimeLeft set_part2PreparationTimeLeft]; lia).
  cbn [part2PreparationTimeLeft set_part2PreparationTimeLeft part2TimerInterval].
  rewrite Ht.
  replace (Z.of_nat (S n) - Z.of_nat n - 1) with 0 by lia.
  rewrite (startPart2SpeakingSession_exec env _ c stream) by assumption.
  reflexivity.
Qed.

Lemma speaking_fires env s n :
  part2SpeakingTimeLeft s = Z.of_nat (S n) ->
  exec (ticks (S n) (speakingTick env)) s
  = (fst (exec (stopCurrentSession env)
            (set_part2TimerInterval None (set_part2SpeakingTimeLeft 0 s))),
     cleared (part2TimerInterval s)
     ++ snd (exec (stopCurrentSession env)
               (set_part2TimerInterval None (set_part2SpeakingTimeLeft 0 s)))).
Proof.
  intros Ht.
  rewrite ticks_last, (speaking_counts_down env n s) by lia.
  cbn [fst snd app]. rewrite speakingTick_fires
    by (cbn [part2SpeakingTimeLeft set_part2SpeakingTimeLeft]; lia).
  cbn [part2SpeakingTimeLeft set_part2SpeakingTimeLeft part2TimerInterval].
  rewrite Ht.
  replace (Z.of_nat (S n) - Z.of_nat n - 1) with 0 by lia.
  reflexivity.
Qed.

Lemma handlePartSelect_exec part env s :
  isRecording s = false -> creditsExhausted s = false ->
  exists s',
    exec (handlePartSelect part env) s = (s', [])
    /\ part2TimerInterval s' = part2TimerInterval s
    /\ currentPart s' = Some part
    /\ part2State s' = App.idle
    /\ part2PreparationTimeLeft s' = 60
    /\ client s' = client s
    /\ isRecording s' = false
    /\ creditsExhausted s' = false.
Proof.
  intros Hrec Hcred. unfold handlePartSelect.
  erewrite exec_then; [|apply (stopCurrentSession_idle env s Hrec)].
  rewrite exec_get_bind, Hcred. rewrite !exec_modify_bind. cbv zeta.
  destruct part.
  - rewrite !exec_modify_bind, exec_modify. eexists.
    split; [reflexivity|]. repeat split; assumption.
  - rewrite !exec_modify_bind, exec_modify. eexists.
    split; [reflexivity|]. repeat split; assumption.
  - rewrite exec_get_bind. destruct (negb _).
    + rewrite exec_modify. eexists.
      split; [reflexivity|]. repeat split; assumption.
    + rewrite !exec_modify_bind, exec_modify. eexists.
      split; [reflexivity|]. repeat split; assumption.
Qed.

End Countdowns.

(** X15. The preparation minute.  With [n + 1] seconds left, the first
    [n] ticks of the preparation countdown only count down; the next one
    clears the countdown and starts the Part 2 talk: it connects with the
    Part 2 instruction, takes the microphone, starts the credit poll and
    arms the speaking countdown at 120 seconds. *)
Theorem preparation_minute (env : Env) (s : App.State) (n id c stream : nat) :
  App.part2PreparationTimeLeft s = Z.of_nat (S n) ->
  App.part2TimerInterval s = Some id ->
  App.creditsExhausted s = false -> App.isRecording s = false ->
  App.client s = true -> connect env = Some c -> userMedia env = Some stream ->
  (forall k, (k <= n)%nat ->
     exec (Flow.ticks k (App.preparationTick env)) s
     = (App.set_part2PreparationTimeLeft (Z.of_nat (S n) - Z.of_nat k) s, []))
  /\ exec (Flow.ticks (S n) (App.preparationTick env)) s
     = (App.set_part2TimerInterval (Some (countdown env))
          (Flow.recordingFrom App.PART2_INSTRUCTION [AUDIO] env c stream
             (App.set_part2SpeakingTimeLeft 120
                (App.set_part2State App.speaking
                   (App.set_part2TimerInterval None
                      (App.set_part2PreparationTimeLeft 0 s))))),
        [ClearInterval id; Connect App.PART2_INSTRUCTION [AUDIO];
         InputContextResume; GetUserMedia; WireCapture stream 4096;
         SetInterval CreditPoll (timer env) 10000;
         SetInterval SpeakingCountdown (countdown env) 1000]).
Proof.
  intros Ht Hid Hcred Hrec Hc Hconn Hmedia. split.
  - intros k Hk. rewrite preparation_counts_down by lia. now rewrite Ht.
  - rewrite (preparation_fires env s n c stream) by assumption.
    now rewrite Hid.
Qed.

Lemma preparation_minute_witness :
  let s := Scenario.appPreparing in
  let env := Scenario.online in
  (forall k, (k <= 59)%nat ->
     exec (Flow.ticks k (App.preparationTick env)) s
     = (App.set_part2PreparationTimeLeft (Z.of_nat 60 - Z.of_nat k) s, []))
  /\ exec (Flow.ticks 60 (App.preparationTick env)) s
     = (App.set_part2TimerInterval (Some (countdown env))
          (Flow.recordingFrom App.PART2_INSTRUCTION [AUDIO] env 1%nat 7%nat
             (App.set_part2SpeakingTimeLeft 120
                (App.set_part2State App.speaking
                   (App.set_part2TimerInterval None
                      (App.set_part2PreparationTimeLeft 0 s))))),
        [ClearInterval 4%nat; Connect App.PART2_INSTRUCTION [AUDIO];
         InputContextResume; GetUserMedia; WireCapture 7%nat 4096;
         SetInterval CreditPoll (timer env) 10000;
         SetInterval SpeakingCountdown (countdown env) 1000]).
Proof.
  apply (preparation_minute Scenario.online Scenario.appPreparing
           59%nat 4%nat 1%nat 7%nat); reflexivity.
Defined.

(** X16. The two minutes of the talk.  With [n + 1] seconds left the first
    [n] ticks of the speaking countdown only count down; the next one
    clears the countdown and stops the recording: the outside world sees
    exactly what a stop does, nothing is held afterwards, Part 2 is
    finished and its topic is carried to Part 3. *)
Theorem speaking_two_minutes (env : Env) (s : App.State) (n : nat)
    (topic : string) :
  App.part2SpeakingTimeLeft s = Z.of_nat (S n) ->
  App.isRecording s = true ->
  App.currentPart s = Some App.part2 ->
  App.part2Topic s = Some topic -> topic <> "" ->
  (forall k, (k <= n)%nat ->
     exec (Flow.ticks k (App.speakingTick env)) s
     = (App.set_part2SpeakingTimeLeft (Z.of_nat (S n) - Z.of_nat k) s, []))
  /\ let after := exec (Flow.ticks (S n) (App.speakingTick env)) s in
     snd after = Flow.released env s
     /\ Flow.atRest (fst after)
     /\ App.part2TimerInterval (fst after) = None
     /\ App.part2State (fst after) = App.finished
     /\ App.part2TopicForPart3 (fst after) = Some topic
     /\ App.part2SpeakingTimeLeft (fst after) = 0.
Proof.
  intros Ht Hrec Hp Htopic Hne. split.
  - intros k Hk. rewrite speaking_counts_down by lia. now rewrite Ht.
  - cbv zeta. rewrite (speaking_fires env s n Ht).
    set (s' := App.set_part2TimerInterval None (App.set_part2SpeakingTimeLeft 0 s)).
    assert (Hstop : exec (App.stopCurrentSession env) s'
                    = exec (App.stopRecording env) s').
    { unfold App.stopCurrentSession. rewrite exec_get_bind.
      change (App.isRecording s') with (App.isRecording s). now rewrite Hrec. }
    rewrite Hstop. cbn [fst snd].
    pose proof (stopRecording_stopped env s') as Hstopped.
    destruct (stopRecording_finishes_part2 env s' topic Hp Htopic Hne) as [H1 H2].
    split; [|split; [|split; [|split; [|split]]]].
    + rewrite stopRecording_events. unfold Flow.released.
      change (App.part2TimerInterval s') with (@None nat).
      cbn [Flow.cleared app]. reflexivity.
    + now apply stopped_atRest.
    + apply Hstopped.
    + exact H2.
    + exact H1.
    + assert (K : keeps App.part2SpeakingTimeLeft (App.stopRecording env)).
      { apply stopRecording_keeps. unfold App.release. keeps_auto. }
      rewrite K. reflexivity.
Qed.

Lemma speaking_two_minutes_witness :
  let s := Scenario.appSpeaking in
  let env := Scenario.online in
  (forall k, (k <= 119)%nat ->
     exec (Flow.ticks k (App.speakingTick env)) s
     = (App.set_part2SpeakingTimeLeft (Z.of_nat 120 - Z.of_nat k) s, []))
  /\ let after := exec (Flow.ticks 120 (App.speakingTick env)) s in
     snd after = Flow.released env s
     /\ Flow.atRest (fst after)
     /\ App.part2TimerInterval (fst after) = None
     /\ App.part2State (fst after) = App.finished
     /\ App.part2TopicForPart3 (fst after) = Some "A memorable trip"
     /\ App.part2SpeakingTimeLeft (fst after) = 0.
Proof.
  apply (speaking_two_minutes Scenario.online Scenario.appSpeaking 119%nat
           "A memorable trip"); try reflexivity.
  discriminate.
Defined.

(** X17. The speaking countdown runs whether or not the recording started.
    When the preparation minute ends with the credits used up, the start
    is refused and the out-of-credits dialog opens, yet the state is set to
    speaking and the countdown is armed; when it has run down it is
    cleared and, nothing being recorded, nothing is stopped: Part 2 never
    becomes finished and no topic is carried to Part 3. *)
Theorem countdown_without_recording (env env' : Env) (s : App.State) :
  App.creditsExhausted s = true -> App.isRecording s = false ->
  let armed := exec (App.startPart2SpeakingSession env) s in
  let done := exec (Flow.ticks 120 (App.speakingTick env')) (fst armed) in
  armed = (App.set_part2TimerInterval (Some (countdown env))
             (App.set_isOutOfCreditsModalOpen true
                (App.set_part2SpeakingTimeLeft 120
                   (App.set_part2State App.speaking s))),
           [SetInterval SpeakingCountdown (countdown env) 1000])
  /\ done = (App.set_part2TimerInterval None
               (App.set_part2SpeakingTimeLeft 0 (fst armed)),
             [ClearInterval (countdown env)])
  /\ App.part2State (fst done) = App.speaking
  /\ App.part2TopicForPart3 (fst done) = App.part2TopicForPart3 s
  /\ App.isRecording (fst done) = false.
Proof.
  intros Hcred Hrec. cbv zeta.
  assert (Harmed : exec (App.startPart2SpeakingSession env) s
    = (App.set_part2TimerInterval (Some (countdown env))
         (App.set_isOutOfCreditsModalOpen true
            (App.set_part2SpeakingTimeLeft 120
               (App.set_part2State App.speaking s))),
       [SetInterval SpeakingCountdown (countdown env) 1000])).
  { unfold App.startPart2SpeakingSession. rewrite !exec_modify_bind.
    erewrite exec_then.
    2:{ unfold App.startRecording. rewrite exec_get_bind.
        change (App.creditsExhausted _) with (App.creditsExhausted s).
        rewrite Hcred. apply exec_modify. }
    rewrite exec_modify_bind, exec_emit. reflexivity. }
  rewrite Harmed. cbn [fst]. split; [reflexivity|].
  set (a := App.set_part2TimerInterval _ _).
  assert (Hdone : exec (Flow.ticks 120 (App.speakingTick env')) a
    = (App.set_part2TimerInterval None (App.set_part2SpeakingTimeLeft 0 a),
       [ClearInterval (countdown env)])).
  { rewrite (speaking_fires env' a 119%nat eq_refl).
    rewrite stopCurrentSession_idle by exact Hrec. reflexivity. }
  rewrite Hdone. cbn [fst]. repeat split. exact Hrec.
Qed.

Lemma countdown_without_recording_witness :
  let s := App.set_userCredits (Some 0) Scenario.appPreparing in
  let armed := exec (App.startPart2SpeakingSession Scenario.online) s in
  let done := exec (Flow.ticks 120 (App.speakingTick Scenario.online)) (fst armed) in
  armed = (App.set_part2TimerInterval (Some (countdown Scenario.online))
             (App.set_isOutOfCreditsModalOpen true
                (App.set_part2SpeakingTimeLeft 120
                   (App.set_part2State App.speaking s))),
           [SetInterval SpeakingCountdown (countdown Scenario.online) 1000])
  /\ done = (App.set_part2TimerInterval None
               (App.set_part2SpeakingTimeLeft 0 (fst armed)),
             [ClearInterval (countdown Scenario.online)])
  /\ App.part2State (fst done) = App.speaking
  /\ App.part2TopicForPart3 (fst done) = App.part2TopicForPart3 s
  /\ App.isRecording (fst done) = false.
Proof.
  apply (countdown_without_recording Scenario.online Scenario.online
           (App.set_userCredits (Some 0) Scenario.appPreparing));
    reflexivity.
Defined.

(** X18. Selecting a part while nothing is recording does not cancel a
    running preparation countdown: the part changes, the Part 2 state goes
    back to idle and the time left is put back to 60, but the timer stays;
    sixty ticks later it starts a Part 2 recording under the part that was
    selected. *)
Theorem part_select_keeps_countdown (part : App.Part) (env env' : Env)
    (s : App.State) (id c stream : nat) :
  App.isRecording s = false -> App.creditsExhausted s = false ->
  App.part2TimerInterval s = Some id -> App.client s = true ->
  connect env' = Some c -> userMedia env' = Some stream ->
  let after := exec (App.handlePartSelect part env) s in
  let later := exec (Flow.ticks 60 (App.preparationTick env')) (fst after) in
  snd after = []
  /\ App.part2TimerInterval (fst after) = Some id
  /\ App.currentPart (fst after) = Some part
  /\ App.part2State (fst after) = App.idle
  /\ snd later
     = [ClearInterval id; Connect App.PART2_INSTRUCTION [AUDIO];
        InputContextResume; GetUserMedia; WireCapture stream 4096;
        SetInterval CreditPoll (timer env') 10000;
        SetInterval SpeakingCountdown (countdown env') 1000]
  /\ App.isRecording (fst later) = true
  /\ App.part2State (fst later) = App.speaking
  /\ App.currentPart (fst later) = Some part.
Proof.
  intros Hrec Hcred Hid Hc Hconn Hmedia. cbv zeta.
  destruct (handlePartSelect_exec part env s Hrec Hcred)
    as (s' & -> & Ht & Hp & Hst & Hleft & Hc' & Hrec' & Hcred').
  cbn [fst snd]. rewrite Hc in Hc'. rewrite Hid in Ht.
  rewrite (preparation_fires env' s' 59%nat c stream Hleft Hcred' Hrec' Hc'
             Hconn Hmedia).
  cbn [fst snd]. rewrite Ht.
  repeat split; try assumption.
Qed.

Lemma part_select_keeps_countdown_witness :
  let s := Scenario.appPreparing in
  let after := exec (App.handlePartSelect App.part1 Scenario.online) s in
  let later := exec (Flow.ticks 60 (App.preparationTick Scenario.online))
                 (fst after) in
  snd after = []
  /\ App.part2TimerInterval (fst after) = Some 4%nat
  /\ App.currentPart (fst after) = Some App.part1
  /\ App.part2State (fst after) = App.idle
  /\ snd later
     = [ClearInterval 4%nat; Connect App.PART2_INSTRUCTION [AUDIO];
        InputContextResume; GetUserMedia; WireCapture 7%nat 4096;
        SetInterval CreditPoll (timer Scenario.online) 10000;
        SetInterval SpeakingCountdown (countdown Scenario.online) 1000]
  /\ App.isRecording (fst later) = true
  /\ App.part2State (fst later) = App.speaking
  /\ App.currentPart (fst later) = Some App.part1.
Proof.
  apply (part_select_keeps_countdown App.part1 Scenario.online Scenario.online
           Scenario.appPreparing 4%nat 1%nat 7%nat); reflexivity.
Defined.

(* ================================================================== *)
(** * The cue card and the session history                             *)
(* ================================================================== *)

Section CueCards.
Import App Flow.

Lemma generateCueCard_succeeds env s g :
  client s = true -> generated env = Some g ->
  exec (generateCueCard env) s
  = (set_part2TimerInterval (Some (countdown env))
       (set_part2PreparationTimeLeft 60
          (set_part2State preparing
             (set_transcripts []
                (set_part2CueCard
                   (Some {| description := gen_description g;
                            points := gen_points g |})
                   (set_part2Topic (topic g) s))))),
     [GenerateContent; SetInterval PreparationCountdown (countdown env) 1000]).
Proof.
  intros Hc Hg. unfold generateCueCard. rewrite exec_get_bind, Hc, Hg.
  cbn [when]. rewrite exec_emit_bind. rewrite !exec_modify_bind.
  unfold startPart2Preparation. rewrite !exec_modify_bind, exec_emit.
  reflexivity.
Qed.

Lemma generateCueCard_fails env s :
  client s = false \/ generated env = None ->
  exec (generateCueCard env) s
  = (set_part2State idle
       (set_transcripts
          [examinerSays "Sorry, there was an error generating the cue card. Please try again."]
          s),
     (if client s then [GenerateContent] else [])
     ++ [ConsoleError "Error generating cue card:"]).
Proof.
  intros Hfail. unfold generateCueCard. rewrite exec_get_bind.
  destruct (client s).
  - destruct Hfail as [Hfail| ->]; [discriminate|].
    cbn [when]. rewrite !exec_emit_bind, exec_modify_bind, exec_modify.
    reflexivity.
  - cbn [when]. erewrite exec_then; [|apply exec_skip].
    rewrite exec_emit_bind, exec_modify_bind, exec_modify. reflexivity.
Qed.

End CueCards.

(** X19. Starting Part 2 asks the service for a cue card.  When the card
    comes back, the topic and the card are stored, the transcript is
    emptied and the preparation countdown is armed at 60 seconds, with one
    request made.  When there is no client or the request fails, the error
    is logged, the examiner line "Sorry, there was an error generating the
    cue card. Please try again." replaces the transcript, the Part 2 state
    goes back to idle and no countdown is armed. *)
Theorem cue_card_outcomes (env : Env) (s : App.State) :
  App.currentPart s = Some App.part2 ->
  let after := exec (App.handleStartPart env) s in
  let asked :=
    App.set_transcripts [App.examinerSays "Generating your Part 2 cue card..."]
      (App.set_part2State App.generating (App.set_isIntroModalOpen false s)) in
  (forall g, App.client s = true -> generated env = Some g ->
     after = (App.set_part2TimerInterval (Some (countdown env))
                (App.set_part2PreparationTimeLeft 60
                   (App.set_part2State App.preparing
                      (App.set_transcripts []
                         (App.set_part2CueCard
                            (Some {| App.description := gen_description g;
                                     App.points := gen_points g |})
                            (App.set_part2Topic (topic g) asked))))),
              [GenerateContent;
               SetInterval PreparationCountdown (countdown env) 1000]))
  /\ (App.client s = false \/ generated env = None ->
      after = (App.set_part2State App.idle
                 (App.set_transcripts
                    [App.examinerSays "Sorry, there was an error generating the cue card. Please try again."]
                    asked),
               (if App.client s then [GenerateContent] else [])
               ++ [ConsoleError "Error generating cue card:"])
      /\ App.part2TimerInterval (fst after) = App.part2TimerInterval s
      /\ App.isRecording (fst after) = App.isRecording s).
Proof.
  intros Hp. cbv zeta.
  assert (Hstart : exec (App.handleStartPart env) s
    = exec (App.generateCueCard env)
        (App.set_transcripts [App.examinerSays "Generating your Part 2 cue card..."]
           (App.set_part2State App.generating (App.set_isIntroModalOpen false s)))).
  { unfold App.handleStartPart. rewrite exec_modify_bind, exec_get_bind.
    change (App.currentPart (App.set_isIntroModalOpen false s))
      with (App.currentPart s).
    rewrite Hp. now rewrite !exec_modify_bind. }
  rewrite Hstart. split.
  - intros g Hc Hg. now apply generateCueCard_succeeds.
  - intros Hfail. rewrite generateCueCard_fails by exact Hfail.
    repeat split.
Qed.

Lemma cue_card_outcomes_witness :
  let s := fst (exec (App.handlePartSelect App.part2 Scenario.online)
                  (App.onLogin "user-1" 0 App.initial)) in
  let env := Scenario.online in
  let after := exec (App.handleStartPart env) s in
  let asked :=
    App.set_transcripts [App.examinerSays "Generating your Part 2 cue card..."]
      (App.set_part2State App.generating (App.set_isIntroModalOpen false s)) in
  (forall g, App.client s = true -> generated env = Some g ->
     after = (App.set_part2TimerInterval (Some (countdown env))
                (App.set_part2PreparationTimeLeft 60
                   (App.set_part2State App.preparing
                      (App.set_transcripts []
                         (App.set_part2CueCard
                            (Some {| App.description := gen_description g;
                                     App.points := gen_points g |})
                            (App.set_part2Topic (topic g) asked))))),
              [GenerateContent;
               SetInterval PreparationCountdown (countdown env) 1000]))
  /\ (App.client s = false \/ generated env = None ->
      after = (App.set_part2State App.idle
                 (App.set_transcripts
                    [App.examinerSays "Sorry, there was an error generating the cue card. Please try again."]
                    asked),
               (if App.client s then [GenerateContent] else [])
               ++ [ConsoleError "Error generating cue card:"])
      /\ App.part2TimerInterval (fst after) = App.part2TimerInterval s
      /\ App.isRecording (fst after) = App.isRecording s).
Proof.
  apply (cue_card_outcomes Scenario.online). reflexivity.
Defined.

Section SavingHistory.
Import App Flow.

Lemma saveCurrentSessionHistory_exec env s user sid l ls :
  supabaseSession s = Some user -> currentSessionId s = Some sid ->
  sid <> "" -> transcripts s = l :: ls ->
  exec (saveCurrentSessionHistory env) s
  = (match insertReply env with
     | Returned rows => set_chatHistory (<[sid := rows]> (chatHistory s)) s
     | _ => s
     end,
     InsertTranscripts (rowsFor user sid (l :: ls))
     :: match insertReply env with
        | Failed msg => [ConsoleError ("Error saving session history: " +:+ msg)]
        | _ => []
        end).
Proof.
  intros Hu Hsid Hne Hts. unfold saveCurrentSessionHistory.
  rewrite exec_get_bind, Hu, Hsid. cbn [truthy_str].
  rewrite (truthy_nonempty _ Hne). cbn [negb]. rewrite Hts.
  rewrite exec_emit_bind.
  destruct (insertReply env); [rewrite exec_emit|rewrite exec_modify|rewrite exec_skip];
    reflexivity.
Qed.

Lemma saveCurrentSessionHistory_skips env s :
  supabaseSession s = None \/ truthy_str (currentSessionId s) = false
  \/ transcripts s = [] ->
  exec (saveCurrentSessionHistory env) s = (s, []).
Proof.
  intros H. unfold saveCurrentSessionHistory. rewrite exec_get_bind.
  destruct (supabaseSession s) as [user|]; [|reflexivity].
  destruct (truthy_str (currentSessionId s)) eqn:Ht; [|reflexivity].
  cbn [negb]. destruct (currentSessionId s) as [sid|]; [|reflexivity].
  destruct H as [H|[H|H]]; try discriminate. now rewrite H.
Qed.

End SavingHistory.

(** X20. Saving a session writes the transcript as it stands: one row per
    line, in order, each with the user, the session id, the speaker and the
    text of its line; when the store returns the rows, they are filed in
    the history under the session id and the history of every other session
    is left alone. *)
Theorem save_writes_transcript (env : Env) (s : App.State) (user sid : string)
    (rows : list HistoryRow) :
  App.supabaseSession s = Some user -> App.currentSessionId s = Some sid ->
  sid <> "" -> App.transcripts s <> [] -> insertReply env = Returned rows ->
  let after := exec (App.saveCurrentSessionHistory env) s in
  let sent := Flow.rowsFor user sid (App.transcripts s) in
  after = (App.set_chatHistory (<[sid := rows]> (App.chatHistory s)) s,
           [InsertTranscripts sent])
  /\ map ins_speaker sent = map Live.speaker (App.transcripts s)
  /\ map ins_text sent = map Live.text (App.transcripts s)
  /\ Forall (fun r => user_id r = user /\ session_id r = sid) sent
  /\ App.chatHistory (fst after) !! sid = Some rows
  /\ (forall other, other <> sid ->
        App.chatHistory (fst after) !! other = App.chatHistory s !! other).
Proof.
  intros Hu Hsid Hne Hts Hreply. cbv zeta.
  destruct (App.transcripts s) as [|l ls] eqn:Hlines; [contradiction|].
  rewrite (saveCurrentSessionHistory_exec env s user sid l ls Hu Hsid Hne Hlines).
  rewrite Hreply. cbn [fst]. split; [reflexivity|].
  unfold Flow.rowsFor. rewrite !map_map. cbn [ins_speaker ins_text].
  split; [reflexivity|]. split; [reflexivity|]. split; [|split].
  - apply List.Forall_forall. intros r Hr. apply in_map_iff in Hr as (x & <- & _).
    split; reflexivity.
  - cbn [App.chatHistory App.set_chatHistory]. apply lookup_insert_eq.
  - intros other Hother. cbn [App.chatHistory App.set_chatHistory].
    now apply lookup_insert_ne.
Qed.

Lemma save_writes_transcript_witness :
  let env := {| uuid := "u"; connect := None; userMedia := None; timer := 3%nat;
                countdown := 4%nat;
                insertReply := Returned [{| row_session := "3f1c9a52-7d4e-4b8a-9c21-5e6f7a8b9c0d";
                                            row_speaker := "Candidate";
                                            row_text := "Hello";
                                            created_at := "2025-01-01T10:00:00Z" |}];
                rpcReply := Nothing; generated := None |} in
  let s := Scenario.appRecording in
  let user := "user-1" in
  let sid := "3f1c9a52-7d4e-4b8a-9c21-5e6f7a8b9c0d" in
  let rows := [{| row_session := "3f1c9a52-7d4e-4b8a-9c21-5e6f7a8b9c0d";
                  row_speaker := "Candidate"; row_text := "Hello";
                  created_at := "2025-01-01T10:00:00Z" |}] in
  let after := exec (App.saveCurrentSessionHistory env) s in
  let sent := Flow.rowsFor user sid (App.transcripts s) in
  after = (App.set_chatHistory (<[sid := rows]> (App.chatHistory s)) s,
           [InsertTranscripts sent])
  /\ map ins_speaker sent = map Live.speaker (App.transcripts s)
  /\ map ins_text sent = map Live.text (App.transcripts s)
  /\ Forall (fun r => user_id r = user /\ session_id r = sid) sent
  /\ App.chatHistory (fst after) !! sid = Some rows
  /\ (forall other, other <> sid ->
        App.chatHistory (fst after) !! other = App.chatHistory s !! other).
Proof.
  apply (save_writes_transcript
           {| uuid := "u"; connect := None; userMedia := None; timer := 3%nat;
              countdown := 4%nat;
              insertReply := Returned [{| row_session := "3f1c9a52-7d4e-4b8a-9c21-5e6f7a8b9c0d";
                                          row_speaker := "Candidate";
                                          row_text := "Hello";
                                          created_at := "2025-01-01T10:00:00Z" |}];
              rpcReply := Nothing; generated := None |}
           Scenario.appRecording "user-1" "3f1c9a52-7d4e-4b8a-9c21-5e6f7a8b9c0d");
    try reflexivity; discriminate.
Defined.

(** X21. Saving does nothing at all (no call to the store, no change of
    state) when nobody is signed in, when there is no session id or when
    the transcript is empty, and only then.  Otherwise the insert is
    issued, and when the store answers it with an error, that error is
    logged as "Error saving session history: " followed by its message,
    nothing else is done and the state is left as it was. *)
Theorem save_skips_or_fails (env : Env) (s : App.State) :
  (App.supabaseSession s = None \/ truthy_str (App.currentSessionId s) = false
   \/ App.transcripts s = [] ->
   exec (App.saveCurrentSessionHistory env) s = (s, []))
  /\ (forall user sid,
        App.supabaseSession s = Some user -> App.currentSessionId s = Some sid ->
        sid <> "" -> App.transcripts s <> [] ->
        forall msg, insertReply env = Failed msg ->
        exec (App.saveCurrentSessionHistory env) s
        = (s, [InsertTranscripts (Flow.rowsFor user sid (App.transcripts s));
               ConsoleError ("Error saving session history: " +:+ msg)]))
  /\ (forall msg, insertReply env = Failed msg ->
        fst (exec (App.saveCurrentSessionHistory env) s) = s
        /\ (In (ConsoleError ("Error saving session history: " +:+ msg))
               (snd (exec (App.saveCurrentSessionHistory env) s))
            <-> ~ (App.supabaseSession s = None
                   \/ truthy_str (App.currentSessionId s) = false
                   \/ App.transcripts s = [])))
  /\ (exec (App.saveCurrentSessionHistory env) s = (s, []) ->
      App.supabaseSession s = None \/ truthy_str (App.currentSessionId s) = false
      \/ App.transcripts s = []).
Proof.
  assert (Hfail : forall user sid,
             App.supabaseSession s = Some user -> App.currentSessionId s = Some sid ->
             sid <> "" -> App.transcripts s <> [] ->
             forall msg, insertReply env = Failed msg ->
             exec (App.saveCurrentSessionHistory env) s
             = (s, [InsertTranscripts (Flow.rowsFor user sid (App.transcripts s));
                    ConsoleError ("Error saving session history: " +:+ msg)])).
  { intros user sid Hu Hsid Hne Hts msg Hmsg.
    destruct (App.transcripts s) as [|l ls] eqn:Hlines; [contradiction|].
    rewrite (saveCurrentSessionHistory_exec env s user sid l ls Hu Hsid Hne Hlines).
    now rewrite Hmsg. }
  assert (Hcases :
            (App.supabaseSession s = None
             \/ truthy_str (App.currentSessionId s) = false
             \/ App.transcripts s = [])
            \/ exists user sid,
                 App.supabaseSession s = Some user
                 /\ App.currentSessionId s = Some sid
                 /\ sid <> "" /\ App.transcripts s <> []).
  { destruct (App.supabaseSession s) as [user|]; [|left; now left].
    destruct (App.currentSessionId s) as [sid|] eqn:Hsid;
      [|left; right; now left].
    destruct (truthy_str (Some sid)) eqn:Ht; [|left; right; now left].
    destruct (App.transcripts s) as [|l ls]; [left; right; now right|].
    right. exists user, sid. repeat split; try discriminate.
    intros ->. discriminate. }
  split; [apply saveCurrentSessionHistory_skips|].
  split; [exact Hfail|]. split.
  - intros msg Hmsg. destruct Hcases as [Hskip|(user & sid & Hu & Hsid & Hne & Hts)].
    + rewrite (saveCurrentSessionHistory_skips env s Hskip). cbn [fst snd].
      split; [reflexivity|]. split; [intros []|intros H; now destruct H].
    + rewrite (Hfail user sid Hu Hsid Hne Hts msg Hmsg). cbn [fst snd].
      split; [reflexivity|]. split.
      * intros _ [H|[H|H]].
        -- rewrite Hu in H. discriminate.
        -- rewrite Hsid in H. cbn [truthy_str] in H.
           rewrite (truthy_nonempty _ Hne) in H. discriminate.
        -- contradiction.
      * intros _. right. now left.
  - intros Hnothing.
    destruct Hcases as [Hskip|(user & sid & Hu & Hsid & Hne & Hts)];
      [exact Hskip|].
    destruct (App.transcripts s) as [|l ls] eqn:Hlines; [contradiction|].
    rewrite (saveCurrentSessionHistory_exec env s user sid l ls Hu Hsid Hne Hlines)
      in Hnothing.
    discriminate.
Qed.

Lemma save_skips_or_fails_witness :
  let env := {| uuid := "u"; connect := None; userMedia := None; timer := 3%nat;
                countdown := 4%nat; insertReply := Failed "timeout";
                rpcReply := Nothing; generated := None |} in
  let s := Scenario.appRecording in
  App.transcripts s = [{| Live.speaker := "Candidate"; Live.text := "Hello" |}]
  /\ exec (App.saveCurrentSessionHistory env) s
     = (s, [InsertTranscripts
              [{| user_id := "user-1";
                  session_id := "3f1c9a52-7d4e-4b8a-9c21-5e6f7a8b9c0d";
                  ins_speaker := "Candidate"; ins_text := "Hello" |}];
            ConsoleError "Error saving session history: timeout"])
  /\ exec (App.saveCurrentSessionHistory env)
       (App.set_supabaseSession None s)
     = (App.set_supabaseSession None s, []).
Proof.
  cbv zeta.
  destruct (save_skips_or_fails
              {| uuid := "u"; connect := None; userMedia := None; timer := 3%nat;
                 countdown := 4%nat; insertReply := Failed "timeout";
                 rpcReply := Nothing; generated := None |}
              Scenario.appRecording) as (_ & Hfail & _).
  destruct (save_skips_or_fails
              {| uuid := "u"; connect := None; userMedia := None; timer := 3%nat;
                 countdown := 4%nat; insertReply := Failed "timeout";
                 rpcReply := Nothing; generated := None |}
              (App.set_supabaseSession None Scenario.appRecording))
    as (Hskip & _).
  assert (Hu : App.supabaseSession Scenario.appRecording = Some "user-1")
    by (vm_compute; reflexivity).
  assert (Hsid : App.currentSessionId Scenario.appRecording
                 = Some "3f1c9a52-7d4e-4b8a-9c21-5e6f7a8b9c0d")
    by (vm_compute; reflexivity).
  assert (Hne : "3f1c9a52-7d4e-4b8a-9c21-5e6f7a8b9c0d" <> "") by discriminate.
  assert (Hts : App.transcripts Scenario.appRecording
                = [{| Live.speaker := "Candidate"; Live.text := "Hello" |}])
    by (vm_compute; reflexivity).
  split; [exact Hts|]. split.
  - rewrite (Hfail "user-1" "3f1c9a52-7d4e-4b8a-9c21-5e6f7a8b9c0d" Hu Hsid Hne
               ltac:(rewrite Hts; discriminate) "timeout" eq_refl).
    rewrite Hts. reflexivity.
  - apply Hskip. left. reflexivity.
Defined.

(* ================================================================== *)
(** * History and feedback                                             *)
(* ================================================================== *)

Section Objects.
Context {V : Type}.

Lemma get_put_eq k (v : V) o : Obj.get k (Obj.put k v o) = Some v.
Proof.
  induction o as [|[k' v'] o IH]; cbn [Obj.put Obj.get].
  - now rewrite String.eqb_refl.
  - destruct (String.eqb k' k) eqn:E; cbn [Obj.get]; rewrite E; [reflexivity|exact IH].
Qed.

Lemma get_put_ne k k' (v : V) o :
  String.eqb k k' = false -> Obj.get k' (Obj.put k v o) = Obj.get k' o.
Proof.
  intros Hne. induction o as [|[k0 v0] o IH]; cbn [Obj.put Obj.get].
  - now rewrite Hne.
  - destruct (String.eqb k0 k) eqn:E; cbn [Obj.get].
    + apply String.eqb_eq in E. subst k0. now rewrite Hne.
    + destruct (String.eqb k0 k'); [reflexivity|exact IH].
Qed.

Lemma isSome_get_keys k (o : Obj.t V) :
  isSome (Obj.get k o) = existsb (String.eqb k) (Obj.keys o).
Proof.
  induction o as [|[k' v'] o IH]; [reflexivity|].
  cbn [Obj.get Obj.keys map fst existsb]. rewrite (String.eqb_sym k k').
  destruct (String.eqb k' k); [reflexivity|exact IH].
Qed.

End Objects.

Section Grouping.
Import History.

Lemma get_file sid acc item :
  Obj.get sid (file acc item)
  = if String.eqb (row_session item) sid
    then Some (default [] (Obj.get (row_session item) acc) ++ [item])
    else Obj.get sid acc.
Proof.
  unfold file. cbv zeta.
  destruct (Obj.get (row_session item) acc) as [rows|] eqn:G; cbn [isSome default].
  - rewrite G. destruct (String.eqb (row_session item) sid) eqn:E.
    + apply String.eqb_eq in E. subst sid. apply get_put_eq.
    + now apply get_put_ne.
  - rewrite get_put_eq. destruct (String.eqb (row_session item) sid) eqn:E.
    + apply String.eqb_eq in E. subst sid. apply get_put_eq.
    + now rewrite !get_put_ne.
Qed.

Lemma get_fold_file sid data acc :
  Obj.get sid (fold_left file data acc)
  = match Obj.get sid acc with
    | Some old => Some (old ++ rowsOf sid data)
    | None => match rowsOf sid data with
              | [] => None
              | rows => Some rows
              end
    end.
Proof.
  revert acc. induction data as [|item data IH]; intros acc.
  - cbn [fold_left rowsOf List.filter].
    destruct (Obj.get sid acc); [now rewrite app_nil_r|reflexivity].
  - cbn [fold_left]. rewrite IH, get_file. unfold rowsOf. cbn [List.filter].
    destruct (String.eqb (row_session item) sid) eqn:E.
    + apply String.eqb_eq in E. subst sid.
      destruct (Obj.get (row_session item) acc) as [old|]; cbn [default].
      * now rewrite <- app_assoc.
      * reflexivity.
    + destruct (Obj.get sid acc); reflexivity.
Qed.

Lemma get_groupedHistory sid data :
  Obj.get sid (groupedHistory data)
  = match rowsOf sid data with
    | [] => None
    | rows => Some rows
    end.
Proof. unfold groupedHistory. now rewrite get_fold_file. Qed.

Lemma get_fold_feedback sid data acc :
  Obj.get sid
    (fold_left (fun acc item => Obj.put (fb_session item) (feedback item) acc)
       data acc)
  = match last (List.filter (fun r => String.eqb (fb_session r) sid) data) with
    | Some r => Some (feedback r)
    | None => Obj.get sid acc
    end.
Proof.
  revert acc. induction data as [|item data IH]; intros acc; [reflexivity|].
  cbn [fold_left List.filter]. rewrite IH.
  destruct (String.eqb (fb_session item) sid) eqn:E.
  - rewrite last_cons.
    destruct (last (List.filter _ data)); [reflexivity|].
    apply String.eqb_eq in E. subst sid. apply get_put_eq.
  - destruct (last (List.filter _ data)); [reflexivity|].
    now apply get_put_ne.
Qed.

End Grouping.

(** X22. Fetching the history groups the rows by session: what is filed
    under a session id is the rows of that session, all of them and in the
    order the store returned them, and a session without rows has no
    entry (so no entry is ever an empty list).  When the first query fails,
    or nobody is signed in, both records of the panel are left as they
    were. *)
Theorem history_grouped_by_session (data : list HistoryRow)
    (feedbacks : Reply (list History.FeedbackRow)) (p : History.Panel)
    (sid : string) :
  Obj.get sid (History.chatHistory
                 (History.fetchHistory true (Returned data) feedbacks p))
  = match History.rowsOf sid data with
    | [] => None
    | rows => Some rows
    end
  /\ Obj.get sid (History.chatHistory
                    (History.fetchHistory true (Returned data) feedbacks p))
     <> Some []
  /\ (forall msg, History.fetchHistory true (Failed msg) feedbacks p = p)
  /\ (forall history, History.fetchHistory false history feedbacks p = p).
Proof.
  assert (H : Obj.get sid (History.chatHistory
                 (History.fetchHistory true (Returned data) feedbacks p))
              = Obj.get sid (History.groupedHistory data)).
  { unfold History.fetchHistory. cbn [negb]. now destruct feedbacks. }
  rewrite H, get_groupedHistory.
  split; [reflexivity|]. split; [|split; reflexivity].
  destruct (History.rowsOf sid data); discriminate.
Qed.

(** X23. The feedback shown for a session is the one of the last feedback
    row the store returned for it; when the feedback query fails or returns
    nothing, the feedback already on the page is kept while the history is
    replaced. *)
Theorem feedback_last_row_wins (data : list HistoryRow)
    (fdata : list History.FeedbackRow) (p : History.Panel) (sid : string) :
  Obj.get sid (History.sessionFeedback
                 (History.fetchHistory true (Returned data) (Returned fdata) p))
  = History.feedback
      <$> last (List.filter (fun r => String.eqb (History.fb_session r) sid) fdata)
  /\ (forall msg,
        History.fetchHistory true (Returned data) (Failed msg) p
        = {| History.chatHistory := History.groupedHistory data;
             History.sessionFeedback := History.sessionFeedback p |})
  /\ History.fetchHistory true (Returned data) Nothing p
     = {| History.chatHistory := History.groupedHistory data;
          History.sessionFeedback := History.sessionFeedback p |}.
Proof.
  split; [|split; reflexivity].
  unfold History.fetchHistory. cbn [negb History.sessionFeedback].
  unfold History.feedbackMap. rewrite get_fold_feedback.
  destruct (last _); reflexivity.
Qed.

Section Retrying.
Import History Feedback.

Lemma generateFeedback_cases o session speech :
  let gen := generate o session in
  let g := Generate session (promptFor speech) in
  generateFeedback o session speech
  = match gen 1%nat with
    | Some t => (t, [g])
    | None =>
        match gen 2%nat with
        | Some t => (t, [g; Log "attempt failed"; Sleep 1000; g])
        | None =>
            match gen 3%nat with
            | Some t => (t, [g; Log "attempt failed"; Sleep 1000;
                             g; Log "attempt failed"; Sleep 2000; g])
            | None => ("", [g; Log "attempt failed"; Sleep 1000;
                            g; Log "attempt failed"; Sleep 2000;
                            g; Log "attempt failed"; Log "All attempts failed"])
            end
        end
    end.
Proof.
  cbv zeta. unfold generateFeedback, maxRetries. cbn [attempts Nat.eqb].
  destruct (generate o session 1); [reflexivity|].
  destruct (generate o session 2); [reflexivity|].
  destruct (generate o session 3); reflexivity.
Qed.

Lemma attempts_about gen session prompt attempt remaining sid :
  String.eqb session sid = false ->
  List.filter (about sid) (snd (attempts gen session prompt attempt remaining)) = [].
Proof.
  intros Hne. revert attempt.
  induction remaining as [|r IH]; intros attempt; [reflexivity|].
  cbn [attempts]. destruct (gen attempt).
  - cbn [snd List.filter about]. now rewrite Hne.
  - specialize (IH (S attempt)).
    destruct (attempts gen session prompt (S attempt) r) as [txt es].
    cbn [snd] in IH.
    destruct (attempt =? maxRetries)%nat; cbn [snd List.filter about];
      now rewrite Hne.
Qed.

Lemma processSession_chat o p session :
  chatHistory (fst (processSession o p session)) = chatHistory p.
Proof.
  unfold processSession.
  destruct (Obj.get session (chatHistory p)) as [[|r rows]|]; try reflexivity.
  destruct (blank _); [reflexivity|].
  destruct (generateFeedback o session _) as [txt es].
  destruct (negb _); [reflexivity|]. destruct (insert o session); reflexivity.
Qed.

Lemma processSession_other o p session sid :
  String.eqb session sid = false ->
  List.filter (about sid) (snd (processSession o p session)) = []
  /\ Obj.get sid (sessionFeedback (fst (processSession o p session)))
     = Obj.get sid (sessionFeedback p).
Proof.
  intros Hne. unfold processSession.
  destruct (Obj.get session (chatHistory p)) as [[|r rows]|]; try (split; reflexivity).
  destruct (blank _); [split; reflexivity|].
  pose proof (attempts_about (generate o session) session
                (promptFor (candidateTranscripts (r :: rows))) 1 maxRetries sid Hne)
    as Hes.
  fold (generateFeedback o session (candidateTranscripts (r :: rows))) in Hes.
  destruct (generateFeedback o session _) as [txt es]. cbn [snd] in Hes.
  destruct (negb _); [split; [exact Hes|reflexivity]|].
  destruct (insert o session); cbn [fst snd sessionFeedback];
    rewrite List.filter_app, Hes; cbn [List.filter about app]; rewrite Hne;
    split; try reflexivity.
  now apply get_put_ne.
Qed.

Lemma processSession_silent o p sid :
  silent sid p ->
  fst (processSession o p sid) = p
  /\ List.filter (about sid) (snd (processSession o p sid)) = [].
Proof.
  intros Hs. unfold processSession.
  destruct (Obj.get sid (chatHistory p)) as [[|r rows]|] eqn:G;
    try (split; reflexivity).
  rewrite (Hs _ G). split; reflexivity.
Qed.

Lemma processSessions_skips o sid sessions p :
  ~ In sid sessions \/ silent sid p ->
  List.filter (about sid) (snd (processSessions o p sessions)) = []
  /\ Obj.get sid (sessionFeedback (fst (processSessions o p sessions)))
     = Obj.get sid (sessionFeedback p)
  /\ chatHistory (fst (processSessions o p sessions)) = chatHistory p.
Proof.
  revert p. induction sessions as [|session rest IH]; intros p Hskip.
  - repeat split.
  - cbn [processSessions].
    pose proof (processSession_chat o p session) as Hchat.
    assert (Hone : List.filter (about sid) (snd (processSession o p session)) = []
                   /\ Obj.get sid (sessionFeedback (fst (processSession o p session)))
                      = Obj.get sid (sessionFeedback p)).
    { destruct (String.eqb session sid) eqn:E.
      - apply String.eqb_eq in E. subst session.
        destruct Hskip as [Hnot|Hs]; [exfalso; apply Hnot; now left|].
        destruct (processSession_silent o p sid Hs) as [-> Hes].
        split; [exact Hes|reflexivity].
      - now apply processSession_other. }
    destruct Hone as [Hes1 Hfb1].
    destruct (processSession o p session) as [p1 es1]. cbn [fst snd] in *.
    assert (Hskip1 : ~ In sid rest \/ silent sid p1).
    { destruct Hskip as [Hnot|Hs].
      - left. intros Hin. apply Hnot. now right.
      - right. unfold silent. now rewrite Hchat. }
    destruct (IH p1 Hskip1) as (Hes2 & Hfb2 & Hchat2).
    destruct (processSessions o p1 rest) as [p2 es2]. cbn [fst snd] in *.
    rewrite List.filter_app, Hes1, Hes2, Hfb2, Hfb1, Hchat2, Hchat.
    repeat split.
Qed.

Lemma sessionsToProcess_missing p sid :
  In sid (sessionsToProcess p) -> Obj.get sid (sessionFeedback p) = None.
Proof.
  unfold sessionsToProcess. intros Hin. apply List.filter_In in Hin as [_ Hno].
  rewrite <- isSome_get_keys in Hno.
  destruct (Obj.get sid (sessionFeedback p)); [discriminate|reflexivity].
Qed.

End Retrying.

(** X24. Feedback generation tries at most three times and stops at the
    first attempt that succeeds: its text is the feedback, and that many
    requests were made, all with the prompt built from the candidate's
    speech.  It waits 1000 ms after the first failure and 2000 ms after the
    second, and does not wait after the third: when all three fail the
    feedback is empty, 3000 ms were spent waiting and the last thing done
    is the log line that all attempts failed. *)
Theorem feedback_retries (o : Feedback.Oracle) (session speech : string) :
  let gen := Feedback.generate o session in
  let txt := fst (Feedback.generateFeedback o session speech) in
  let es := snd (Feedback.generateFeedback o session speech) in
  let requests := List.length (List.filter Feedback.isGenerate es) in
  (1 <= requests <= 3)%nat
  /\ Forall (fun e => Feedback.isGenerate e = true ->
                      e = Feedback.Generate session (Feedback.promptFor speech)) es
  /\ (forall k t, (1 <= k <= 3)%nat -> gen k = Some t ->
        (forall j, (1 <= j < k)%nat -> gen j = None) ->
        txt = t /\ requests = k
        /\ Feedback.slept es = 1000 * (2 ^ Z.of_nat (k - 1) - 1))
  /\ ((forall k, (1 <= k <= 3)%nat -> gen k = None) ->
      txt = "" /\ requests = 3%nat /\ Feedback.slept es = 3000
      /\ last es = Some (Feedback.Log "All attempts failed")).
Proof.
  cbv zeta. rewrite generateFeedback_cases. cbv zeta.
  split; [|split; [|split]].
  - destruct (Feedback.generate o session 1); [cbn; lia|].
    destruct (Feedback.generate o session 2); [cbn; lia|].
    destruct (Feedback.generate o session 3); cbn; lia.
  - destruct (Feedback.generate o session 1);
      [|destruct (Feedback.generate o session 2);
        [|destruct (Feedback.generate o session 3)]];
      cbn [snd]; repeat constructor; try discriminate.
  - intros k t Hk Hgen Hbefore.
    assert (Hcases : k = 1%nat \/ k = 2%nat \/ k = 3%nat) by lia.
    destruct Hcases as [->|[->| ->]].
    + rewrite Hgen. repeat split.
    + rewrite (Hbefore 1%nat) by lia. rewrite Hgen. repeat split.
    + rewrite (Hbefore 1%nat), (Hbefore 2%nat) by lia. rewrite Hgen.
      repeat split.
  - intros Hnone. rewrite !Hnone by lia. repeat split.
Qed.

(** X25. Feedback is generated only where it is missing and only where the
    candidate said something: a session that already has feedback when the
    history has been fetched, or whose candidate lines are empty or white
    space only, gets no request to the model and no insert, and what the
    page shows for it is not touched; the history itself is never changed
    by the run.  Without a client or a signed-in user nothing happens at
    all. *)
Theorem feedback_only_where_missing (history : Reply (list HistoryRow))
    (feedbacks : Reply (list History.FeedbackRow)) (o : Feedback.Oracle)
    (p : History.Panel) (sid : string) :
  let fetched := History.fetchHistory true history feedbacks p in
  let after := Feedback.processMissingFeedback true true history feedbacks o p in
  isSome (Obj.get sid (History.sessionFeedback fetched)) = true
  \/ (forall rows, Obj.get sid (History.chatHistory fetched) = Some rows ->
        Feedback.blank (Feedback.candidateTranscripts rows) = true) ->
  List.filter (Feedback.about sid) (snd after) = []
  /\ Obj.get sid (History.sessionFeedback (fst after))
     = Obj.get sid (History.sessionFeedback fetched)
  /\ History.chatHistory (fst after) = History.chatHistory fetched
  /\ (forall signedIn,
        Feedback.processMissingFeedback false signedIn history feedbacks o p
        = (p, []))
  /\ (forall client,
        Feedback.processMissingFeedback client false history feedbacks o p
        = (p, [])).
Proof.
  cbv zeta. intros Hskip.
  set (p1 := History.fetchHistory true history feedbacks p) in *.
  assert (Hcond : ~ In sid (Feedback.sessionsToProcess p1) \/ Feedback.silent sid p1).
  { destruct Hskip as [Hfb|Hblank]; [left|right; exact Hblank].
    intros Hin. apply sessionsToProcess_missing in Hin.
    rewrite Hin in Hfb. discriminate. }
  unfold Feedback.processMissingFeedback. cbn [negb orb]. fold p1.
  split; [|split; [|split; [|split]]].
  - destruct (Feedback.sessionsToProcess p1) as [|s0 rest] eqn:Hs; [reflexivity|].
    destruct (processSessions_skips o sid (s0 :: rest) p1 Hcond) as (Hes & _ & _).
    destruct (Feedback.processSessions o p1 (s0 :: rest)) as [p2 es].
    exact Hes.
  - destruct (Feedback.sessionsToProcess p1) as [|s0 rest] eqn:Hs; [reflexivity|].
    destruct (processSessions_skips o sid (s0 :: rest) p1 Hcond) as (_ & Hfb & _).
    destruct (Feedback.processSessions o p1 (s0 :: rest)) as [p2 es].
    exact Hfb.
  - destruct (Feedback.sessionsToProcess p1) as [|s0 rest] eqn:Hs; [reflexivity|].
    destruct (processSessions_skips o sid (s0 :: rest) p1 Hcond) as (_ & _ & Hchat).
    destruct (Feedback.processSessions o p1 (s0 :: rest)) as [p2 es].
    exact Hchat.
  - reflexivity.
  - intros client. now destruct client.
Qed.

Lemma feedback_only_where_missing_witness :
  let history :=
    Returned [{| row_session := "s-1"; row_speaker := "Candidate";
                 row_text := "I like long walks"; created_at := "2025-01-01" |};
              {| row_session := "s-2"; row_speaker := "Candidate";
                 row_text := "I enjoy cooking"; created_at := "2025-01-02" |}] in
  let feedbacks :=
    Returned [{| History.fb_session := "s-1";
                 History.feedback := "Try **stroll** and **ramble**." |}] in
  let o := {| Feedback.generate := fun _ _ => Some "Consider **culinary** and **savour**.";
              Feedback.insert := fun _ => Feedback.InsertOk |} in
  let p := {| History.chatHistory := []; History.sessionFeedback := [] |} in
  let fetched := History.fetchHistory true history feedbacks p in
  let after := Feedback.processMissingFeedback true true history feedbacks o p in
  List.filter (Feedback.about "s-1") (snd after) = []
  /\ Obj.get "s-1" (History.sessionFeedback (fst after))
     = Obj.get "s-1" (History.sessionFeedback fetched)
  /\ History.chatHistory (fst after) = History.chatHistory fetched
  /\ (forall signedIn,
        Feedback.processMissingFeedback false signedIn history feedbacks o p
        = (p, []))
  /\ (forall client,
        Feedback.processMissingFeedback client false history feedbacks o p
        = (p, [])).
Proof.
  apply (feedback_only_where_missing
           (Returned [{| row_session := "s-1"; row_speaker := "Candidate";
                         row_text := "I like long walks";
                         created_at := "2025-01-01" |};
                      {| row_session := "s-2"; row_speaker := "Candidate";
                         row_text := "I enjoy cooking";
                         created_at := "2025-01-02" |}])
           (Returned [{| History.fb_session := "s-1";
                         History.feedback := "Try **stroll** and **ramble**." |}])
           {| Feedback.generate := fun _ _ => Some "Consider **culinary** and **savour**.";
              Feedback.insert := fun _ => Feedback.InsertOk |}
           {| History.chatHistory := []; History.sessionFeedback := [] |} "s-1").
  left. reflexivity.
Defined.

(* ================================================================== *)
(** * The visualizer                                                   *)
(* ================================================================== *)

Section Drawing.
Import Visualizer.
Local Open Scope Q_scope.










End Drawing.



(* ================================================================== *)
(** * Selecting a part; the earlier versions                           *)
(* ================================================================== *)

Section Selecting.
Import App Flow.

Lemma stopCurrentSession_not_recording env :
  ensures (fun s => isRecording s = false) (stopCurrentSession env).
Proof.
  intros s. unfold stopCurrentSession. rewrite exec_get_bind.
  destruct (isRecording s) eqn:Hrec; [|exact Hrec].
  apply (stopRecording_stopped env s).
Qed.

Lemma handlePartSelect_not_recording part env :
  ensures (fun s => isRecording s = false) (handlePartSelect part env).
Proof.
  unfold handlePartSelect.
  apply ensures_bind_l; [apply stopCurrentSession_not_recording|].
  intros ?. apply stable_keeps. keeps_auto.
Qed.

End Selecting.

(** X27. Selecting a part, or clicking the circle, never starts a
    recording: in any state and whatever the outside world answers, no
    connection is opened and the microphone is not asked for, and the
    component is not recording afterwards (a click while recording stops,
    a click otherwise selects the current part again). *)
Theorem selection_never_records (part : App.Part) (env : Env) (s : App.State) :
  let selected := exec (App.handlePartSelect part env) s in
  let clicked := exec (App.handleVisualizerClick env) s in
  Forall (fun e => Flow.acquires e = false) (snd selected)
  /\ App.isRecording (fst selected) = false
  /\ Forall (fun e => Flow.acquires e = false) (snd clicked)
  /\ App.isRecording (fst clicked) = false
  /\ (App.isRecording s = true -> snd clicked = Flow.released env s).
Proof.
  cbv zeta. split; [apply handlePartSelect_quiet|].
  split; [apply handlePartSelect_not_recording|].
  split; [apply handleVisualizerClick_quiet|].
  unfold App.handleVisualizerClick. rewrite exec_get_bind.
  destruct (App.isRecording s) eqn:Hrec.
  - split; [apply (stopRecording_stopped env s)|].
    intros _. apply stopRecording_events.
  - split; [|discriminate].
    destruct (App.currentPart s) as [p|];
      [apply handlePartSelect_not_recording|exact Hrec].
Qed.

Section Toggling.
Import Basic.

Lemma basic_toggle_on env s c stream :
  isRecording s = false -> client s = true ->
  connect env = Some c -> userMedia env = Some stream ->
  exec (toggleRecording env) s
  = (set_isRecording true
       (set_scriptProcessorNode (Some bufferSize)
          (set_sourceNode (Some stream)
             (set_mediaStream (Some stream)
                (set_session
                   (Some {| connection := c; systemInstruction := "";
                            responseModalities := [AUDIO] |})
                   (set_currentSessionId (Some (uuid env))
                      (set_transcripts [] s)))))),
     [Connect "" [AUDIO]; InputContextResume; GetUserMedia;
      WireCapture stream bufferSize]).
Proof.
  intros Hrec Hc Hconn Hmedia. unfold toggleRecording.
  rewrite exec_get_bind, Hrec. unfold startRecording.
  rewrite exec_get_bind, Hrec. rewrite !exec_modify_bind.
  erewrite exec_then.
  2:{ unfold initSession. rewrite exec_get_bind.
      change (client _) with (client s). rewrite Hc. cbn [negb].
      rewrite exec_emit_bind, Hconn, exec_modify. reflexivity. }
  cbn [fst snd]. rewrite exec_get_bind. cbn [session set_session isSome negb].
  rewrite !exec_emit_bind, Hmedia.
  rewrite !exec_modify_bind, exec_emit_bind, exec_modify. reflexivity.
Qed.

Lemma basic_toggle_off env s c stream node :
  isRecording s = true -> transcripts s = [] ->
  session s = Some c -> mediaStream s = Some stream ->
  sourceNode s = Some stream -> scriptProcessorNode s = Some node ->
  exec (toggleRecording env) s
  = (set_mediaStream None
       (set_sourceNode None
          (set_scriptProcessorNode None
             (set_session None (set_isRecording false s)))),
     [SessionClose (connection c); DisconnectProcessor; DisconnectSource;
      TrackStop stream]).
Proof.
  intros Hrec Hts Hsess Hms Hsrc Hsp. unfold toggleRecording.
  rewrite exec_get_bind, Hrec. unfold stopRecording.
  rewrite exec_get_bind, Hrec. cbn [negb andb].
  erewrite exec_then.
  2:{ unfold saveCurrentSessionHistory. rewrite exec_get_bind, Hts.
      destruct (supabaseSession s); [destruct (currentSessionId s)|];
        apply exec_skip. }
  rewrite exec_modify_bind.
  erewrite exec_then.
  2:{ unfold closeSession. rewrite exec_get_bind.
      change (session _) with (session s). rewrite Hsess.
      rewrite exec_emit_bind, exec_modify. reflexivity. }
  erewrite exec_then.
  2:{ unfold disconnectCapture. rewrite exec_get_bind.
      change (scriptProcessorNode _) with (scriptProcessorNode s).
      change (sourceNode _) with (sourceNode s). rewrite Hsp, Hsrc.
      cbn [isSome andb inputAudioContext when].
      erewrite exec_then; [|rewrite exec_emit_bind, exec_emit; reflexivity].
      rewrite exec_modify_bind, exec_modify. reflexivity. }
  unfold releaseMedia. rewrite exec_get_bind.
  change (mediaStream _) with (mediaStream s). rewrite Hms.
  rewrite exec_emit_bind, exec_modify. reflexivity.
Qed.

End Toggling.

(** X28. First version of [index.tsx]: two clicks on the record button make
    a round trip.  From a state in which nothing is held, the first click
    connects, takes the microphone and wires the capture nodes; the second
    one, with nothing said in between, closes the connection, disconnects
    the nodes and stops the track, writes nothing to the store, and leaves
    the component as it was before the first click but for the new session
    id and the emptied transcript. *)
Theorem basic_toggle_round_trip (env env' : Env) (s : Basic.State)
    (c stream : nat) :
  Basic.isRecording s = false -> Basic.session s = None ->
  Basic.mediaStream s = None -> Basic.sourceNode s = None ->
  Basic.scriptProcessorNode s = None -> Basic.client s = true ->
  connect env = Some c -> userMedia env = Some stream ->
  let on := exec (Basic.toggleRecording env) s in
  let off := exec (Basic.toggleRecording env') (fst on) in
  snd on = [Connect "" [AUDIO]; InputContextResume; GetUserMedia;
            WireCapture stream 4096]
  /\ Basic.isRecording (fst on) = true
  /\ snd off = [SessionClose c; DisconnectProcessor; DisconnectSource;
                TrackStop stream]
  /\ fst off = Basic.set_currentSessionId (Some (uuid env))
                 (Basic.set_transcripts [] s).
Proof.
  intros Hrec Hsess Hms Hsrc Hsp Hc Hconn Hmedia. cbv zeta.
  rewrite (basic_toggle_on env s c stream Hrec Hc Hconn Hmedia). cbn [fst snd].
  split; [reflexivity|]. split; [reflexivity|].
  erewrite basic_toggle_off; try reflexivity. cbn [fst snd connection].
  split; [reflexivity|].
  destruct s. cbn in Hrec, Hsess, Hms, Hsrc, Hsp. subst. reflexivity.
Qed.

Lemma basic_toggle_round_trip_witness :
  let s := Basic.onLogin "user-1" 0 Basic.initial in
  let on := exec (Basic.toggleRecording Scenario.online) s in
  let off := exec (Basic.toggleRecording Scenario.offline) (fst on) in
  snd on = [Connect "" [AUDIO]; InputContextResume; GetUserMedia;
            WireCapture 7%nat 4096]
  /\ Basic.isRecording (fst on) = true
  /\ snd off = [SessionClose 1%nat; DisconnectProcessor; DisconnectSource;
                TrackStop 7%nat]
  /\ fst off = Basic.set_currentSessionId (Some (uuid Scenario.online))
                 (Basic.set_transcripts [] s).
Proof.
  apply (basic_toggle_round_trip Scenario.online Scenario.offline
           (Basic.onLogin "user-1" 0 Basic.initial) 1%nat 7%nat);
    reflexivity.
Defined.

Section Earliest.
Import Legacy.

Lemma legacy_start_keeps_session env : keeps session (startRecording env).
Proof. unfold startRecording, stopRecording, disconnectCapture, releaseMedia. keeps_auto. Qed.

Lemma legacy_stop_keeps_session : keeps session stopRecording.
Proof. unfold stopRecording, disconnectCapture, releaseMedia. keeps_auto. Qed.

Lemma legacy_start_exec env s stream :
  isRecording s = false -> userMedia env = Some stream ->
  exec (startRecording env) s
  = (set_isRecording true
       (set_scriptProcessorNode (Some bufferSize)
          (set_sourceNode (Some stream) (set_mediaStream (Some stream) s))),
     [InputContextResume; GetUserMedia; WireCapture stream bufferSize]).
Proof.
  intros Hrec Hmedia. unfold startRecording.
  rewrite exec_get_bind, Hrec. rewrite !exec_emit_bind, Hmedia.
  rewrite !exec_modify_bind, exec_emit_bind, exec_modify. reflexivity.
Qed.

Lemma legacy_stop_exec s stream node :
  mediaStream s = Some stream -> sourceNode s = Some stream ->
  scriptProcessorNode s = Some node ->
  exec stopRecording s
  = (set_mediaStream None
       (set_sourceNode None
          (set_scriptProcessorNode None (set_isRecording false s))),
     [DisconnectProcessor; DisconnectSource; TrackStop stream]).
Proof.
  intros Hms Hsrc Hsp. unfold stopRecording.
  rewrite exec_get_bind, Hms. cbn [isSome negb andb]. rewrite andb_false_r.
  rewrite exec_modify_bind.
  erewrite exec_then.
  2:{ unfold disconnectCapture. rewrite exec_get_bind.
      change (scriptProcessorNode _) with (scriptProcessorNode s).
      change (sourceNode _) with (sourceNode s). rewrite Hsp, Hsrc.
      cbn [isSome andb inputAudioContext when].
      erewrite exec_then; [|rewrite exec_emit_bind, exec_emit; reflexivity].
      rewrite exec_modify_bind, exec_modify. reflexivity. }
  unfold releaseMedia. rewrite exec_get_bind.
  change (mediaStream _) with (mediaStream s). rewrite Hms.
  rewrite exec_emit_bind, exec_modify. reflexivity.
Qed.

End Earliest.

(** X29. Earliest version of the component: recording does not touch the
    connection.  The session opened at construction (or its absence, when
    connecting failed) is the same after any start and any stop; a start
    that gets the microphone wires the capture nodes with a buffer of 256
    frames and connects to nothing, and the stop after it disconnects the
    nodes and stops the track and closes nothing. *)
Theorem legacy_session_survives (env : Env) (s : Legacy.State) (stream : nat) :
  Legacy.isRecording s = false -> userMedia env = Some stream ->
  let on := exec (Legacy.startRecording env) s in
  let off := exec Legacy.stopRecording (fst on) in
  snd on = [InputContextResume; GetUserMedia; WireCapture stream 256]
  /\ Legacy.isRecording (fst on) = true
  /\ snd off = [DisconnectProcessor; DisconnectSource; TrackStop stream]
  /\ Legacy.isRecording (fst off) = false
  /\ Legacy.mediaStream (fst off) = None
  /\ Legacy.session (fst on) = Legacy.session s
  /\ Legacy.session (fst off) = Legacy.session s
  /\ (forall env' s', Legacy.session (fst (exec (Legacy.startRecording env') s'))
                      = Legacy.session s')
  /\ (forall s', Legacy.session (fst (exec Legacy.stopRecording s'))
                 = Legacy.session s').
Proof.
  intros Hrec Hmedia. cbv zeta.
  rewrite (legacy_start_exec env s stream Hrec Hmedia). cbn [fst snd].
  erewrite legacy_stop_exec; try reflexivity. cbn [fst snd].
  repeat split.
  - intros env' s'. apply legacy_start_keeps_session.
  - intros s'. apply legacy_stop_keeps_session.
Qed.

Lemma legacy_session_survives_witness :
  let s := fst (Legacy.constructed Scenario.online) in
  let on := exec (Legacy.startRecording Scenario.online) s in
  let off := exec Legacy.stopRecording (fst on) in
  snd on = [InputContextResume; GetUserMedia; WireCapture 7%nat 256]
  /\ Legacy.isRecording (fst on) = true
  /\ snd off = [DisconnectProcessor; DisconnectSource; TrackStop 7%nat]
  /\ Legacy.isRecording (fst off) = false
  /\ Legacy.mediaStream (fst off) = None
  /\ Legacy.session (fst on) = Legacy.session s
  /\ Legacy.session (fst off) = Legacy.session s
  /\ (forall env' s', Legacy.session (fst (exec (Legacy.startRecording env') s'))
                      = Legacy.session s')
  /\ (forall s', Legacy.session (fst (exec Legacy.stopRecording s'))
                 = Legacy.session s').
Proof.
  apply (legacy_session_survives Scenario.online
           (fst (Legacy.constructed Scenario.online)) 7%nat); reflexivity.
Defined.
